(** * The emesh-sp rule database (sp_mapdb.c): rule store, matchers,
      classifiers and updater, and the properties of its specification.

    The development follows qca/src/emesh-sp/sp_mapdb.c function by function.
    C integers are mathematical integers [Z]; where the code narrows a value
    (an assignment to a [uint8_t] or an [int16_t]) the wrap-around is written
    out.  The rule table is the global [rule_manager]; it is threaded
    explicitly through the updater.  Rule nodes are heap objects: a node
    carries the address it was allocated at, so that unlinking and replacing
    a node act on that node and on no other. *)

From Stdlib Require Import ZArith Lia Bool.
From stdpp Require Import base option list.

Local Open Scope Z_scope.

(** ** Constants of the headers *)

(** sp_mapdb.h and sp_types.h are not part of the sources.  The constants the
    code takes from them are collected here and every result below holds for
    all their values (under the hypotheses stated with it). *)
Class sp_header := {
  (* sp_mapdb.h *)
  SP_MAPDB_RULE_MAX : Z;
  SP_MAPDB_USE_UP : Z;
  SP_MAPDB_USE_DSCP : Z;
  SP_MAPDB_NO_MATCH : Z;
  SP_MAPDB_RULE_DEFAULT_PCP : Z;
  SP_MAPDB_ADD_REMOVE_FILTER_DELETE : Z;
  SP_MAPDB_ADD_REMOVE_FILTER_ADD : Z;
  (* sp_types.h: rule types *)
  SP_RULE_TYPE_MESH : Z;
  SP_RULE_TYPE_SAWF : Z;
  SP_RULE_TYPE_SAWF_SCS : Z;
  SP_RULE_TYPE_SCS : Z;
  SP_RULE_TYPE_MSCS : Z;
  (* sp_types.h: invalid values *)
  SP_RULE_INVALID_PRIORITY : Z;
  SP_RULE_INVALID_RULE_ID : Z;
  SP_RULE_INVALID_MSCS_TID_BITMAP : Z;
  SP_RULE_INVALID_VLAN_TCI : Z;
  (* sp_types.h: match flags of the generic matcher *)
  SP_RULE_FLAG_MATCH_ALWAYS_TRUE : Z;
  SP_RULE_FLAG_MATCH_UP : Z;
  SP_RULE_FLAG_MATCH_UP_SENSE : Z;
  SP_RULE_FLAG_MATCH_SOURCE_MAC : Z;
  SP_RULE_FLAG_MATCH_SOURCE_MAC_SENSE : Z;
  SP_RULE_FLAG_MATCH_DST_MAC : Z;
  SP_RULE_FLAG_MATCH_DST_MAC_SENSE : Z;
  SP_RULE_FLAG_MATCH_VLAN_ID : Z;
  SP_RULE_FLAG_MATCH_VLAN_ID_SENSE : Z;
  SP_RULE_FLAG_MATCH_SRC_IPV4 : Z;
  SP_RULE_FLAG_MATCH_SRC_IPV4_SENSE : Z;
  SP_RULE_FLAG_MATCH_DST_IPV4 : Z;
  SP_RULE_FLAG_MATCH_DST_IPV4_SENSE : Z;
  SP_RULE_FLAG_MATCH_SRC_PORT : Z;
  SP_RULE_FLAG_MATCH_SRC_PORT_SENSE : Z;
  SP_RULE_FLAG_MATCH_DST_PORT : Z;
  SP_RULE_FLAG_MATCH_DST_PORT_SENSE : Z;
  SP_RULE_FLAG_MATCH_DSCP : Z;
  SP_RULE_FLAG_MATCH_DSCP_SENSE : Z;
  SP_RULE_FLAG_MATCH_PROTOCOL : Z;
  SP_RULE_FLAG_MATCH_PROTOCOL_SENSE : Z;
  (* sp_types.h: match flags of the SAWF matcher *)
  SP_RULE_FLAG_MATCH_SAWF_IP_VERSION_TYPE : Z;
  SP_RULE_FLAG_MATCH_SAWF_DST_MAC : Z;
  SP_RULE_FLAG_MATCH_SAWF_DST_PORT : Z;
  SP_RULE_FLAG_MATCH_SAWF_DST_PORT_RANGE_START : Z;
  SP_RULE_FLAG_MATCH_SAWF_DST_PORT_RANGE_END : Z;
  SP_RULE_FLAG_MATCH_SAWF_DST_IPV4 : Z;
  SP_RULE_FLAG_MATCH_SAWF_DST_IPV4_MASK : Z;
  SP_RULE_FLAG_MATCH_SAWF_SOURCE_MAC : Z;
  SP_RULE_FLAG_MATCH_SAWF_SRC_IPV6 : Z;
  SP_RULE_FLAG_MATCH_SAWF_SRC_IPV6_MASK : Z;
  SP_RULE_FLAG_MATCH_SAWF_DST_IPV6 : Z;
  SP_RULE_FLAG_MATCH_SAWF_DST_IPV6_MASK : Z;
  SP_RULE_FLAG_MATCH_SAWF_SRC_PORT : Z;
  SP_RULE_FLAG_MATCH_SAWF_SRC_PORT_RANGE_START : Z;
  SP_RULE_FLAG_MATCH_SAWF_SRC_PORT_RANGE_END : Z;
  SP_RULE_FLAG_MATCH_SAWF_SRC_IPV4 : Z;
  SP_RULE_FLAG_MATCH_SAWF_SRC_IPV4_MASK : Z;
  SP_RULE_FLAG_MATCH_SAWF_PROTOCOL : Z;
  SP_RULE_FLAG_MATCH_SAWF_DSCP : Z;
  SP_RULE_FLAG_MATCH_SAWF_VLAN_PCP : Z;
  SP_RULE_FLAG_MATCH_SAWF_VLAN_ID : Z;
  SP_RULE_FLAG_MATCH_SCS_SPI : Z
}.

(** The number of precedence buckets.  The search enumerates "from
    prec_map[0xFE] to prec_map[0]" (comment of sp_mapdb_ruletable_search) with
    a loop that starts at [SP_MAPDB_RULE_MAX_PRECEDENCENUM - 1]. *)
Definition SP_MAPDB_RULE_MAX_PRECEDENCENUM : Z := 255.

(** Constants of the Linux kernel headers. *)
Definition ETH_P_IP : Z := 2048.      (* 0x0800 *)
Definition ETH_P_IPV6 : Z := 34525.   (* 0x86DD *)
Definition ETH_P_8021Q : Z := 33024.  (* 0x8100 *)
Definition IPPROTO_TCP : Z := 6.
Definition IPPROTO_UDP : Z := 17.
Definition VLAN_PRIO_MASK : Z := 57344.  (* 0xe000 *)
Definition VLAN_PRIO_SHIFT : Z := 13.
Definition VLAN_VID_MASK : Z := 4095.    (* 0x0fff *)

(** [ntohs] on a little-endian host (the ARM cores this tree targets): the two
    bytes of a 16-bit value are exchanged.  [htons] is the same function. *)
Definition ntohs (x : Z) : Z :=
  Z.lor (Z.shiftl (Z.land x 255) 8) (Z.land (Z.shiftr x 8) 255).

(** Narrowing conversions. *)
Definition to_uint8 (x : Z) : Z := x mod 256.
Definition to_int16 (x : Z) : Z :=
  let y := x mod 65536 in if y <? 32768 then y else y - 65536.

(** ** Data model *)

(** A MAC address, [uint8_t[ETH_ALEN]], as a 48-bit number. *)
Definition mac_addr := Z.

Definition ether_addr_equal (a b : mac_addr) : bool := a =? b.

(** An IPv6 address, [uint32_t[4]]. *)
Definition ipv6_words : Type := Z * Z * Z * Z.

Definition ipv6_and (a m : ipv6_words) : ipv6_words :=
  match a, m with
  | (a0, a1, a2, a3), (m0, m1, m2, m3) =>
      (Z.land a0 m0, Z.land a1 m1, Z.land a2 m2, Z.land a3 m3)
  end.

(** [memcmp(a, b, sizeof(uint32_t) * 4)] as a truth value: non-zero exactly
    when the addresses differ. *)
Definition ipv6_memcmp (a b : ipv6_words) : bool :=
  match a, b with
  | (a0, a1, a2, a3), (b0, b1, b2, b3) =>
      negb ((a0 =? b0) && (a1 =? b1) && (a2 =? b2) && (a3 =? b3))
  end.

(** [struct sp_rule_inner]. *)
Record sp_rule_inner := {
  flags : Z;
  flags_sawf : Z;
  user_priority : Z;
  sa : mac_addr;
  da : mac_addr;
  src_ipv4_addr : Z;
  dst_ipv4_addr : Z;
  src_ipv4_addr_mask : Z;
  dst_ipv4_addr_mask : Z;
  src_ipv6_addr : ipv6_words;
  dst_ipv6_addr : ipv6_words;
  src_ipv6_addr_mask : ipv6_words;
  dst_ipv6_addr_mask : ipv6_words;
  src_port : Z;
  dst_port : Z;
  src_port_range_start : Z;
  src_port_range_end : Z;
  dst_port_range_start : Z;
  dst_port_range_end : Z;
  protocol_number : Z;
  vlan_id : Z;
  vlan_pcp : Z;
  dscp : Z;
  ip_version_type : Z;
  ifindex : Z;
  match_pattern_value : Z;
  match_pattern_mask : Z;
  rule_output : Z;
  dscp_remark : Z;
  vlan_pcp_remark : Z;
  service_class_id : Z;
  mscs_tid_bitmap : Z;
  priority_limit : Z;
  service_interval_dl : Z;
  burst_size_dl : Z;
  service_interval_ul : Z;
  burst_size_ul : Z
}.

(** [struct sp_rule]. *)
Record sp_rule := {
  id : Z;
  rule_precedence : Z;
  classifier_type : Z;
  cmd : Z;
  inner : sp_rule_inner
}.

Definition set_classifier_type (r : sp_rule) (t : Z) : sp_rule :=
  {| id := id r; rule_precedence := rule_precedence r; classifier_type := t;
     cmd := cmd r; inner := inner r |}.

Definition set_rule_precedence (r : sp_rule) (p : Z) : sp_rule :=
  {| id := id r; rule_precedence := p; classifier_type := classifier_type r;
     cmd := cmd r; inner := inner r |}.

(** What the matchers and classifiers read of a [struct sk_buff]: the fields
    of the buffer itself, of the Ethernet and VLAN headers at [skb->data], of
    the IP header, and of the TCP or UDP header.  [pskb_may_pull] can fail;
    its outcome for each header is part of the packet. *)
Record sk_buff := {
  skb_priority : Z;          (* skb->priority, a 32-bit value *)
  skb_protocol : Z;          (* skb->protocol, network byte order *)
  eth_h_proto : Z;           (* h_proto of the Ethernet header at skb->data *)
  vlan_h_vlan_TCI : Z;       (* the VLAN header after the Ethernet header *)
  may_pull_iphdr : bool;     (* pskb_may_pull(skb, sizeof(struct iphdr)) *)
  iph_tos : Z;               (* ipv4_get_dsfield(ip_hdr(skb)) *)
  iph_saddr : Z;
  iph_daddr : Z;
  iph_protocol : Z;
  ipv6h_dsfield : Z;         (* ipv6_get_dsfield(ipv6_hdr(skb)) *)
  may_pull_tcphdr : bool;    (* pskb_may_pull(skb, sizeof(struct tcphdr)) *)
  tcph_source : Z;
  tcph_dest : Z;
  may_pull_udphdr : bool;    (* pskb_may_pull(skb, sizeof(struct udphdr)) *)
  udph_source : Z;
  udph_dest : Z
}.

(** ** The generic matcher *)

Section Matcher.
Context `{H : sp_header}.

(** [flags & BIT] as a condition. *)
Definition flag_set (fl bit : Z) : bool := negb (Z.land fl bit =? 0).

(** One sensed field test: [sense = !!(flags & SENSE)], and the field fails
    when [!(compare_result ^ sense)]. *)
Definition sense_check (fl sense_bit : Z) (compare_result : bool) : bool :=
  xorb compare_result (flag_set fl sense_bit).

(** [if (flags & FLAG) { ...; if (!(compare_result ^ sense)) return false; }]:
    [true] when the matcher goes on to the next field. *)
Definition field_check (fl flag_bit sense_bit : Z) (compare_result : bool) : bool :=
  if flag_set fl flag_bit then sense_check fl sense_bit compare_result else true.

Definition match_up (skb : sk_buff) (rule : sp_rule) : bool :=
  field_check (flags (inner rule)) SP_RULE_FLAG_MATCH_UP SP_RULE_FLAG_MATCH_UP_SENSE
    (skb_priority skb =? user_priority (inner rule)).

Definition match_source_mac (rule : sp_rule) (smac : mac_addr) : bool :=
  field_check (flags (inner rule)) SP_RULE_FLAG_MATCH_SOURCE_MAC
    SP_RULE_FLAG_MATCH_SOURCE_MAC_SENSE
    (ether_addr_equal smac (sa (inner rule))).

Definition match_dst_mac (rule : sp_rule) (dmac : mac_addr) : bool :=
  field_check (flags (inner rule)) SP_RULE_FLAG_MATCH_DST_MAC
    SP_RULE_FLAG_MATCH_DST_MAC_SENSE
    (ether_addr_equal dmac (da (inner rule))).

(** The VLAN id test: without an 802.1Q tag the rule does not match.  The tag
    control word is stored in an [int16_t] before the comparison. *)
Definition match_vlan_id (skb : sk_buff) (rule : sp_rule) : bool :=
  let fl := flags (inner rule) in
  if flag_set fl SP_RULE_FLAG_MATCH_VLAN_ID then
    if ntohs (eth_h_proto skb) =? ETH_P_8021Q then
      let vlan_id' := to_int16 (ntohs (vlan_h_vlan_TCI skb)) in
      sense_check fl SP_RULE_FLAG_MATCH_VLAN_ID_SENSE (vlan_id' =? vlan_id (inner rule))
    else false
  else true.

(** The flags that need the IPv4 header. *)
Definition ipv4_group : Z :=
  Z.lor SP_RULE_FLAG_MATCH_SRC_IPV4
    (Z.lor SP_RULE_FLAG_MATCH_DST_IPV4
       (Z.lor SP_RULE_FLAG_MATCH_SRC_PORT
          (Z.lor SP_RULE_FLAG_MATCH_DST_PORT
             (Z.lor SP_RULE_FLAG_MATCH_DSCP SP_RULE_FLAG_MATCH_PROTOCOL)))).

Definition match_dscp (skb : sk_buff) (rule : sp_rule) : bool :=
  field_check (flags (inner rule)) SP_RULE_FLAG_MATCH_DSCP SP_RULE_FLAG_MATCH_DSCP_SENSE
    (Z.shiftr (iph_tos skb) 2 =? dscp (inner rule)).

Definition match_src_ipv4 (skb : sk_buff) (rule : sp_rule) : bool :=
  field_check (flags (inner rule)) SP_RULE_FLAG_MATCH_SRC_IPV4
    SP_RULE_FLAG_MATCH_SRC_IPV4_SENSE
    (iph_saddr skb =? src_ipv4_addr (inner rule)).

Definition match_dst_ipv4 (skb : sk_buff) (rule : sp_rule) : bool :=
  field_check (flags (inner rule)) SP_RULE_FLAG_MATCH_DST_IPV4
    SP_RULE_FLAG_MATCH_DST_IPV4_SENSE
    (iph_daddr skb =? dst_ipv4_addr (inner rule)).

Definition match_protocol (skb : sk_buff) (rule : sp_rule) : bool :=
  field_check (flags (inner rule)) SP_RULE_FLAG_MATCH_PROTOCOL
    SP_RULE_FLAG_MATCH_PROTOCOL_SENSE
    (iph_protocol skb =? protocol_number (inner rule)).

(** The transport header: [None] when the TCP or UDP header cannot be pulled
    (the matcher returns false), otherwise the locals [src_port] and
    [dst_port], which stay 0 for any other protocol. *)
Definition transport_ports (skb : sk_buff) : option (Z * Z) :=
  if iph_protocol skb =? IPPROTO_TCP then
    if may_pull_tcphdr skb then Some (tcph_source skb, tcph_dest skb) else None
  else if iph_protocol skb =? IPPROTO_UDP then
    if may_pull_udphdr skb then Some (udph_source skb, udph_dest skb) else None
  else Some (0, 0).

Definition match_src_port (rule : sp_rule) (src_port' : Z) : bool :=
  field_check (flags (inner rule)) SP_RULE_FLAG_MATCH_SRC_PORT
    SP_RULE_FLAG_MATCH_SRC_PORT_SENSE
    (ntohs src_port' =? src_port (inner rule)).

Definition match_dst_port (rule : sp_rule) (dst_port' : Z) : bool :=
  field_check (flags (inner rule)) SP_RULE_FLAG_MATCH_DST_PORT
    SP_RULE_FLAG_MATCH_DST_PORT_SENSE
    (ntohs dst_port' =? dst_port (inner rule)).

(** The part of the matcher after the VLAN test. *)
Definition match_ipv4 (skb : sk_buff) (rule : sp_rule) : bool :=
  if flag_set (flags (inner rule)) ipv4_group then
    if skb_protocol skb =? ntohs ETH_P_IP then
      if may_pull_iphdr skb then
        match_dscp skb rule && match_src_ipv4 skb rule && match_dst_ipv4 skb rule
        && match_protocol skb rule
        && match transport_ports skb with
           | None => false
           | Some (src_port', dst_port') =>
               match_src_port rule src_port' && match_dst_port rule dst_port'
           end
      else false
    else false
  else true.

(** sp_mapdb_rule_match() *)
Definition sp_mapdb_rule_match (skb : sk_buff) (rule : sp_rule)
    (smac dmac : mac_addr) : bool :=
  if flag_set (flags (inner rule)) SP_RULE_FLAG_MATCH_ALWAYS_TRUE then true
  else
    match_up skb rule && match_source_mac rule smac && match_dst_mac rule dmac
    && match_vlan_id skb rule && match_ipv4 skb rule.

End Matcher.

(** ** The input of the SAWF matcher *)

(** [struct sp_rule_input_params].  Its declaration is in sp_types.h; the
    members are the ones sp_mapdb_rule_match_sawf() reads.  The two members of
    [ip], [ipv4_addr] and [ipv6_addr], are two fields, as the code names
    them. *)
Module Params.

Record ip_t := {
  ipv4_addr : Z;
  ipv6_addr : ipv6_words
}.

Record endpoint := {
  ip : ip_t;
  mac : mac_addr;
  port : Z
}.

Record t := {
  src : endpoint;
  dst : endpoint;
  ip_version_type : Z;
  dev_addr : mac_addr;
  ifindex : Z;
  protocol : Z;
  dscp : Z;
  vlan_tci : Z;
  spi : Z
}.

Definition set_ipv4_addr (e : endpoint) (v : Z) : endpoint :=
  {| ip := {| ipv4_addr := v; ipv6_addr := ipv6_addr (ip e) |};
     mac := mac e; port := port e |}.

Definition set_ipv6_addr (e : endpoint) (v : ipv6_words) : endpoint :=
  {| ip := {| ipv4_addr := ipv4_addr (ip e); ipv6_addr := v |};
     mac := mac e; port := port e |}.

Definition set_src (p : t) (e : endpoint) : t :=
  {| src := e; dst := dst p; ip_version_type := ip_version_type p;
     dev_addr := dev_addr p; ifindex := ifindex p; protocol := protocol p;
     dscp := dscp p; vlan_tci := vlan_tci p; spi := spi p |}.

Definition set_dst (p : t) (e : endpoint) : t :=
  {| src := src p; dst := e; ip_version_type := ip_version_type p;
     dev_addr := dev_addr p; ifindex := ifindex p; protocol := protocol p;
     dscp := dscp p; vlan_tci := vlan_tci p; spi := spi p |}.

Definition set_spi (p : t) (v : Z) : t :=
  {| src := src p; dst := dst p; ip_version_type := ip_version_type p;
     dev_addr := dev_addr p; ifindex := ifindex p; protocol := protocol p;
     dscp := dscp p; vlan_tci := vlan_tci p; spi := v |}.

End Params.

Abbreviation sp_rule_input_params := Params.t.

(** ** The SAWF matcher *)

(** The matcher writes to [*params] (the masked comparisons store the masked
    value back), so a test is a function from the parameters to a verdict and
    the parameters it leaves behind. *)
Definition sawf_check : Type := sp_rule_input_params -> bool * sp_rule_input_params.

(** A test that only reads. *)
Definition sawf_guard (f : sp_rule_input_params -> bool) : sawf_check :=
  fun p => (f p, p).

(** Sequencing with [return false] on the first failure. *)
Definition sawf_seq (c1 c2 : sawf_check) : sawf_check :=
  fun p => let (ok, p') := c1 p in if ok then c2 p' else (false, p').

Notation "c1 ;;; c2" := (sawf_seq c1 c2) (at level 63, right associativity).

Section MatcherSawf.
Context `{H : sp_header}.

Variable rule : sp_rule.

Let fl : Z := flags_sawf (inner rule).

Definition sawf_ip_version_type : sawf_check :=
  sawf_guard (fun p =>
    if flag_set fl SP_RULE_FLAG_MATCH_SAWF_IP_VERSION_TYPE
    then Params.ip_version_type p =? ip_version_type (inner rule) else true).

(** Destination MAC, with the netdevice fallback of SAWF-SCS rules. *)
Definition sawf_dst_mac : sawf_check :=
  sawf_guard (fun p =>
    if flag_set fl SP_RULE_FLAG_MATCH_SAWF_DST_MAC then
      if ether_addr_equal (Params.mac (Params.dst p)) (da (inner rule)) then true
      else if classifier_type rule =? SP_RULE_TYPE_SAWF_SCS then
        ether_addr_equal (Params.dev_addr p) (da (inner rule))
        && (Params.ifindex p =? ifindex (inner rule))
      else false
    else true).

Definition sawf_dst_port : sawf_check :=
  sawf_guard (fun p =>
    if flag_set fl SP_RULE_FLAG_MATCH_SAWF_DST_PORT
    then Params.port (Params.dst p) =? dst_port (inner rule) else true).

Definition sawf_dst_port_range : sawf_check :=
  sawf_guard (fun p =>
    if flag_set fl SP_RULE_FLAG_MATCH_SAWF_DST_PORT_RANGE_START
       && flag_set fl SP_RULE_FLAG_MATCH_SAWF_DST_PORT_RANGE_END
    then (Params.port (Params.dst p) >=? dst_port_range_start (inner rule))
         && (Params.port (Params.dst p) <=? dst_port_range_end (inner rule))
    else true).

Definition sawf_dst_ipv4 : sawf_check := fun p =>
  if flag_set fl SP_RULE_FLAG_MATCH_SAWF_DST_IPV4 then
    let p' :=
      if flag_set fl SP_RULE_FLAG_MATCH_SAWF_DST_IPV4_MASK
      then Params.set_dst p
             (Params.set_ipv4_addr (Params.dst p)
                (Z.land (Params.ipv4_addr (Params.ip (Params.dst p)))
                   (dst_ipv4_addr_mask (inner rule))))
      else p in
    (Params.ipv4_addr (Params.ip (Params.dst p')) =? dst_ipv4_addr (inner rule), p')
  else (true, p).

Definition sawf_source_mac : sawf_check :=
  sawf_guard (fun p =>
    if flag_set fl SP_RULE_FLAG_MATCH_SAWF_SOURCE_MAC
    then ether_addr_equal (Params.mac (Params.src p)) (sa (inner rule)) else true).

Definition sawf_src_ipv6 : sawf_check := fun p =>
  if flag_set fl SP_RULE_FLAG_MATCH_SAWF_SRC_IPV6 then
    let p' :=
      if flag_set fl SP_RULE_FLAG_MATCH_SAWF_SRC_IPV6_MASK
      then Params.set_src p
             (Params.set_ipv6_addr (Params.src p)
                (ipv6_and (Params.ipv6_addr (Params.ip (Params.src p)))
                   (src_ipv6_addr_mask (inner rule))))
      else p in
    (negb (ipv6_memcmp (Params.ipv6_addr (Params.ip (Params.src p')))
             (src_ipv6_addr (inner rule))), p')
  else (true, p).

Definition sawf_dst_ipv6 : sawf_check := fun p =>
  if flag_set fl SP_RULE_FLAG_MATCH_SAWF_DST_IPV6 then
    let p' :=
      if flag_set fl SP_RULE_FLAG_MATCH_SAWF_DST_IPV6_MASK
      then Params.set_dst p
             (Params.set_ipv6_addr (Params.dst p)
                (ipv6_and (Params.ipv6_addr (Params.ip (Params.dst p)))
                   (dst_ipv6_addr_mask (inner rule))))
      else p in
    (negb (ipv6_memcmp (Params.ipv6_addr (Params.ip (Params.dst p')))
             (dst_ipv6_addr (inner rule))), p')
  else (true, p).

Definition sawf_src_port : sawf_check :=
  sawf_guard (fun p =>
    if flag_set fl SP_RULE_FLAG_MATCH_SAWF_SRC_PORT
    then Params.port (Params.src p) =? src_port (inner rule) else true).

Definition sawf_src_port_range : sawf_check :=
  sawf_guard (fun p =>
    if flag_set fl SP_RULE_FLAG_MATCH_SAWF_SRC_PORT_RANGE_START
       && flag_set fl SP_RULE_FLAG_MATCH_SAWF_SRC_PORT_RANGE_END
    then (Params.port (Params.src p) >=? src_port_range_start (inner rule))
         && (Params.port (Params.src p) <=? src_port_range_end (inner rule))
    else true).

Definition sawf_src_ipv4 : sawf_check := fun p =>
  if flag_set fl SP_RULE_FLAG_MATCH_SAWF_SRC_IPV4 then
    let p' :=
      if flag_set fl SP_RULE_FLAG_MATCH_SAWF_SRC_IPV4_MASK
      then Params.set_src p
             (Params.set_ipv4_addr (Params.src p)
                (Z.land (Params.ipv4_addr (Params.ip (Params.src p)))
                   (src_ipv4_addr_mask (inner rule))))
      else p in
    (Params.ipv4_addr (Params.ip (Params.src p')) =? src_ipv4_addr (inner rule), p')
  else (true, p).

Definition sawf_protocol : sawf_check :=
  sawf_guard (fun p =>
    if flag_set fl SP_RULE_FLAG_MATCH_SAWF_PROTOCOL
    then Params.protocol p =? protocol_number (inner rule) else true).

Definition sawf_dscp : sawf_check :=
  sawf_guard (fun p =>
    if flag_set fl SP_RULE_FLAG_MATCH_SAWF_DSCP
    then Params.dscp p =? dscp (inner rule) else true).

Definition sawf_vlan_pcp : sawf_check :=
  sawf_guard (fun p =>
    if flag_set fl SP_RULE_FLAG_MATCH_SAWF_VLAN_PCP then
      if Params.vlan_tci p =? SP_RULE_INVALID_VLAN_TCI then false
      else to_uint8 (Z.shiftr (Z.land (Params.vlan_tci p) VLAN_PRIO_MASK) VLAN_PRIO_SHIFT)
           =? vlan_pcp (inner rule)
    else true).

Definition sawf_vlan_id : sawf_check :=
  sawf_guard (fun p =>
    if flag_set fl SP_RULE_FLAG_MATCH_SAWF_VLAN_ID then
      if Params.vlan_tci p =? SP_RULE_INVALID_VLAN_TCI then false
      else Z.land (Params.vlan_tci p) VLAN_VID_MASK =? vlan_id (inner rule)
    else true).

Definition sawf_spi : sawf_check := fun p =>
  if flag_set fl SP_RULE_FLAG_MATCH_SCS_SPI then
    let p' := Params.set_spi p (Z.land (Params.spi p) (match_pattern_mask (inner rule))) in
    (Params.spi p' =? match_pattern_value (inner rule), p')
  else (true, p).

(** sp_mapdb_rule_match_sawf(): the verdict and [*params] on return. *)
Definition sp_mapdb_rule_match_sawf : sawf_check :=
  sawf_ip_version_type ;;; sawf_dst_mac ;;; sawf_dst_port ;;; sawf_dst_port_range ;;;
  sawf_dst_ipv4 ;;; sawf_source_mac ;;; sawf_src_ipv6 ;;; sawf_dst_ipv6 ;;;
  sawf_src_port ;;; sawf_src_port_range ;;; sawf_src_ipv4 ;;; sawf_protocol ;;;
  sawf_dscp ;;; sawf_vlan_pcp ;;; sawf_vlan_id ;;; sawf_spi.

End MatcherSawf.

(** ** The rule table *)

(** [struct sp_mapdb_rule_node]: a rule and the address of the node that holds
    it.  A node is written once, before it is linked. *)
Record sp_mapdb_rule_node := {
  node_addr : nat;
  rule : sp_rule
}.

(** The globals of sp_mapdb.c: [rule_manager] (the precedence buckets, the
    rule-id hash table and the rule count) and [single_writer], together with
    the next address [kzalloc] hands out for a rule node.

    A bucket [prec_map[i].rule_list] is the list of its nodes from the head.
    The hash table is the list of its entries, newest first, each entry given
    by the node it points to: all entries of one rule id hang off one hash
    chain, [hash_add] links at the head of the chain, so a walk of the chain
    of a rule id meets the entries of that id in the order of this list. *)
Record sp_mapdb_state := {
  prec_map : list (list sp_mapdb_rule_node);
  rule_id_hashmap : list sp_mapdb_rule_node;
  rule_count : Z;
  single_writer : bool;
  next_node : nat
}.

Definition set_single_writer (st : sp_mapdb_state) (b : bool) : sp_mapdb_state :=
  {| prec_map := prec_map st; rule_id_hashmap := rule_id_hashmap st;
     rule_count := rule_count st; single_writer := b; next_node := next_node st |}.

(** [typedef enum ... sp_mapdb_update_result_t]. *)
Inductive sp_mapdb_update_result_t :=
| SP_MAPDB_UPDATE_RESULT_ERR_TBLFULL
| SP_MAPDB_UPDATE_RESULT_ERR_TBLEMPTY
| SP_MAPDB_UPDATE_RESULT_ERR_ALLOCNODE
| SP_MAPDB_UPDATE_RESULT_ERR_ALLOCHASH
| SP_MAPDB_UPDATE_RESULT_ERR_RULENOEXIST
| SP_MAPDB_UPDATE_RESULT_ERR_UNKNOWNBIT
| SP_MAPDB_UPDATE_RESULT_ERR_SINGLE_WRITER
| SP_MAPDB_UPDATE_RESULT_ERR_INVALIDENTRY
| SP_MAPDB_UPDATE_RESULT_ERR_NEWRULE_NULLPTR
| SP_MAPDB_UPDATE_RESULT_SUCCESS_ADD
| SP_MAPDB_UPDATE_RESULT_SUCCESS_DELETE
| SP_MAPDB_UPDATE_RESULT_SUCCESS_MODIFY.

(** The bucket of precedence [i]. *)
Definition bucket (pm : list (list sp_mapdb_rule_node)) (i : nat) : list sp_mapdb_rule_node :=
  default [] (pm !! i).

(** [list_add_rcu(&node->rule_list, &prec_map[p].rule_list)]: link at the head
    of bucket [p]. *)
Definition list_add_rcu (node : sp_mapdb_rule_node) (p : Z)
    (pm : list (list sp_mapdb_rule_node)) : list (list sp_mapdb_rule_node) :=
  alter (cons node) (Z.to_nat p) pm.

(** [list_del_rcu(&node->rule_list)]: unlink the node at address [a] from the
    list it is on. *)
Definition list_del_rcu (a : nat)
    (pm : list (list sp_mapdb_rule_node)) : list (list sp_mapdb_rule_node) :=
  filter (fun n => node_addr n ≠ a) <$> pm.

(** [list_replace_rcu(&old->rule_list, &new->rule_list)]: the new node takes
    the place of the node at address [a]. *)
Definition list_replace_rcu (a : nat) (new : sp_mapdb_rule_node)
    (pm : list (list sp_mapdb_rule_node)) : list (list sp_mapdb_rule_node) :=
  fmap (M:=list) (fun n => if decide (node_addr n = a) then new else n) <$> pm.

(** sp_mapdb_rules_init() *)
Definition sp_mapdb_rules_init : sp_mapdb_state :=
  {| prec_map := replicate (Z.to_nat SP_MAPDB_RULE_MAX_PRECEDENCENUM) [];
     rule_id_hashmap := [];
     rule_count := 0;
     single_writer := false;
     next_node := 0%nat |}.

(** The key test of sp_mapdb_search_hashentry(). *)
Definition hashentry_matches (ruleid rule_type : Z) (n : sp_mapdb_rule_node) : bool :=
  (id (rule n) =? ruleid) && (classifier_type (rule n) =? rule_type).

(** sp_mapdb_search_hashentry(): the first entry of the chain with the rule id
    and rule type, as its position in the table and the node it points to. *)
Definition sp_mapdb_search_hashentry (st : sp_mapdb_state) (ruleid rule_type : Z)
    : option (nat * sp_mapdb_rule_node) :=
  list_find (fun n => hashentry_matches ruleid rule_type n = true) (rule_id_hashmap st).

Section Updater.
Context `{H : sp_header}.

(** sp_mapdb_rule_add().  [alloc_node] and [alloc_hash] say whether the two
    [kzalloc] calls succeed.  The notifier chain is not part of the table. *)
Definition sp_mapdb_rule_add (st : sp_mapdb_state) (newrule : sp_rule) (rule_type : Z)
    (alloc_node alloc_hash : bool) : sp_mapdb_update_result_t * sp_mapdb_state :=
  if rule_count st =? SP_MAPDB_RULE_MAX then (SP_MAPDB_UPDATE_RESULT_ERR_TBLFULL, st)
  else if rule_output (inner newrule) >=? SP_MAPDB_NO_MATCH then
    (SP_MAPDB_UPDATE_RESULT_ERR_INVALIDENTRY, st)
  else if negb alloc_node then (SP_MAPDB_UPDATE_RESULT_ERR_ALLOCNODE, st)
  else
    let copied := set_classifier_type newrule rule_type in
    let stored :=
      if rule_precedence newrule =? SP_MAPDB_RULE_MAX_PRECEDENCENUM
      then set_rule_precedence copied 0 else copied in
    let newrule_precedence := rule_precedence stored in
    let new_rule_node := {| node_addr := next_node st; rule := stored |} in
    match sp_mapdb_search_hashentry st (id newrule) rule_type with
    | None =>
        if negb alloc_hash then (SP_MAPDB_UPDATE_RESULT_ERR_ALLOCHASH, st)
        else
          (SP_MAPDB_UPDATE_RESULT_SUCCESS_ADD,
           {| prec_map := list_add_rcu new_rule_node newrule_precedence (prec_map st);
              rule_id_hashmap := new_rule_node :: rule_id_hashmap st;
              rule_count := rule_count st + 1;
              single_writer := single_writer st;
              next_node := S (next_node st) |})
    | Some (cur_hashentry, cur_rule_node) =>
        if rule_precedence (rule cur_rule_node) =? newrule_precedence then
          (SP_MAPDB_UPDATE_RESULT_SUCCESS_MODIFY,
           {| prec_map :=
                list_replace_rcu (node_addr cur_rule_node) new_rule_node (prec_map st);
              rule_id_hashmap := <[cur_hashentry := new_rule_node]> (rule_id_hashmap st);
              rule_count := rule_count st;
              single_writer := single_writer st;
              next_node := S (next_node st) |})
        else
          (SP_MAPDB_UPDATE_RESULT_SUCCESS_MODIFY,
           {| prec_map :=
                list_add_rcu new_rule_node newrule_precedence
                  (list_del_rcu (node_addr cur_rule_node) (prec_map st));
              rule_id_hashmap := <[cur_hashentry := new_rule_node]> (rule_id_hashmap st);
              rule_count := rule_count st;
              single_writer := single_writer st;
              next_node := S (next_node st) |})
    end.

(** sp_mapdb_rule_delete() *)
Definition sp_mapdb_rule_delete (st : sp_mapdb_state) (ruleid rule_type : Z)
    : sp_mapdb_update_result_t * sp_mapdb_state :=
  if rule_count st =? 0 then (SP_MAPDB_UPDATE_RESULT_ERR_TBLEMPTY, st)
  else
    match sp_mapdb_search_hashentry st ruleid rule_type with
    | None => (SP_MAPDB_UPDATE_RESULT_ERR_RULENOEXIST, st)
    | Some (cur_hashentry, tobedeleted) =>
        (SP_MAPDB_UPDATE_RESULT_SUCCESS_DELETE,
         {| prec_map := list_del_rcu (node_addr tobedeleted) (prec_map st);
            rule_id_hashmap := delete cur_hashentry (rule_id_hashmap st);
            rule_count := rule_count st - 1;
            single_writer := single_writer st;
            next_node := next_node st |})
    end.

(** sp_mapdb_ruletable_flush(): every node of every bucket is unlinked and
    every hash entry is freed. *)
Definition sp_mapdb_ruletable_flush (st : sp_mapdb_state) : sp_mapdb_state :=
  if rule_count st =? 0 then st
  else
    {| prec_map := (fun _ => []) <$> prec_map st;
       rule_id_hashmap := [];
       rule_count := 0;
       single_writer := single_writer st;
       next_node := next_node st |}.

(** sp_mapdb_rule_update(): [newrule] is [None] for a null pointer. *)
Definition sp_mapdb_rule_update (st : sp_mapdb_state) (newrule : option sp_rule)
    (alloc_node alloc_hash : bool) : sp_mapdb_update_result_t * sp_mapdb_state :=
  match newrule with
  | None => (SP_MAPDB_UPDATE_RESULT_ERR_NEWRULE_NULLPTR, st)
  | Some r =>
      if single_writer st then (SP_MAPDB_UPDATE_RESULT_ERR_SINGLE_WRITER, st)
      else
        let locked := set_single_writer st true in
        let '(error_code, st') :=
          if cmd r =? SP_MAPDB_ADD_REMOVE_FILTER_DELETE then
            sp_mapdb_rule_delete locked (id r) (classifier_type r)
          else if cmd r =? SP_MAPDB_ADD_REMOVE_FILTER_ADD then
            sp_mapdb_rule_add locked r (classifier_type r) alloc_node alloc_hash
          else (SP_MAPDB_UPDATE_RESULT_ERR_UNKNOWNBIT, locked) in
        (error_code, set_single_writer st' false)
  end.

(** The operations on the table, and the table after a sequence of them from
    the initialised table. *)
Inductive sp_mapdb_op :=
| Op_update (newrule : option sp_rule) (alloc_node alloc_hash : bool)
| Op_flush.

Definition sp_mapdb_step (st : sp_mapdb_state) (op : sp_mapdb_op) : sp_mapdb_state :=
  match op with
  | Op_update newrule alloc_node alloc_hash =>
      snd (sp_mapdb_rule_update st newrule alloc_node alloc_hash)
  | Op_flush => sp_mapdb_ruletable_flush st
  end.

Definition sp_mapdb_run (ops : list sp_mapdb_op) : sp_mapdb_state :=
  fold_left sp_mapdb_step ops sp_mapdb_rules_init.

End Updater.

(** ** The classifiers *)



Section Classifier.
Context `{H : sp_header}.
Context `{SH : int_shift}.

(** The [set_output] switch of sp_mapdb_ruletable_search(); [output] and the
    result are [uint8_t]. *)
Definition set_output (skb : sk_buff) (output : Z) : Z :=
  if output =? SP_MAPDB_USE_UP then to_uint8 (skb_priority skb)
  else if output =? SP_MAPDB_USE_DSCP then
    let protocol := ntohs (skb_protocol skb) in
    if protocol =? ETH_P_IP then to_uint8 (Z.shiftr (iph_tos skb) 5)
    else if protocol =? ETH_P_IPV6 then to_uint8 (Z.shiftr (ipv6h_dsfield skb) 5)
    else to_uint8 SP_MAPDB_RULE_DEFAULT_PCP
  else if output =? SP_MAPDB_NO_MATCH then to_uint8 SP_MAPDB_RULE_DEFAULT_PCP
  else output.

(** [list_for_each_entry_rcu] over one bucket, with the [goto set_output] on
    the first MESH rule that matches. *)
Fixpoint mesh_bucket_scan (skb : sk_buff) (smac dmac : mac_addr)
    (l : list sp_mapdb_rule_node) : option Z :=
  match l with
  | [] => None
  | curnode :: rest =>
      if (classifier_type (rule curnode) =? SP_RULE_TYPE_MESH)
         && sp_mapdb_rule_match skb (rule curnode) smac dmac
      then Some (rule_output (inner (rule curnode)))
      else mesh_bucket_scan skb smac dmac rest
  end.

(** [for (i = n - 1; i >= 0; i--)] over the buckets. *)
Fixpoint mesh_prec_scan (skb : sk_buff) (smac dmac : mac_addr)
    (pm : list (list sp_mapdb_rule_node)) (n : nat) : option Z :=
  match n with
  | O => None
  | S i =>
      match mesh_bucket_scan skb smac dmac (bucket pm i) with
      | Some output => Some output
      | None => mesh_prec_scan skb smac dmac pm i
      end
  end.

(** sp_mapdb_ruletable_search() *)
Definition sp_mapdb_ruletable_search (st : sp_mapdb_state) (skb : sk_buff)
    (smac dmac : mac_addr) : Z :=
  let output :=
    if rule_count st =? 0 then to_uint8 SP_MAPDB_USE_DSCP
    else
      match mesh_prec_scan skb smac dmac (prec_map st)
              (Z.to_nat SP_MAPDB_RULE_MAX_PRECEDENCENUM) with
      | Some output => output
      | None => to_uint8 SP_MAPDB_NO_MATCH
      end in
  set_output skb output.





End Classifier.

(** ** The other classifiers *)

(** The conversion to [uint32_t]. *)
Definition to_uint32 (x : Z) : Z := x mod 4294967296.

(** Constants of sp_types.h that only the SAWF classifier and the netlink
    receiver use.  Like those of [sp_header] they are parameters. *)
Class sp_header_sawf := {
  SP_RULE_INVALID_DSCP_REMARK : Z;
  SP_RULE_INVALID_VLAN_PCP_REMARK : Z;
  SP_RULE_INVALID_SERVICE_CLASS_ID : Z;
  SP_RULE_FLAG_MATCH_SAWF_DSCP_REMARK : Z;
  SP_RULE_FLAG_MATCH_SAWF_VLAN_PCP_REMARK : Z;
  (* the bound of the loops that mask the words of an IPv6 address *)
  IPV6_ADDR_LEN : Z
}.

(** [struct sp_rule_output_params]: the members the classifiers assign. *)
Module Output.

Record t := {
  service_class_id : Z;
  rule_id : Z;
  priority : Z;
  dscp_remark : Z;
  vlan_pcp_remark : Z
}.

End Output.

Abbreviation sp_rule_output_params := Output.t.

Section OtherClassifiers.
Context `{H : sp_header} `{HS : sp_header_sawf}.

(** The latency parameters of a rule as they are stored through the
    out-parameters of sp_mapdb_get_wlan_latency_params(), in their order:
    service interval ([uint8_t *]) and burst size ([uint32_t *]), downlink
    then uplink. *)
Definition latency_params (r : sp_rule) : Z * Z * Z * Z :=
  (to_uint8 (service_interval_dl (inner r)), to_uint32 (burst_size_dl (inner r)),
   to_uint8 (service_interval_ul (inner r)), to_uint32 (burst_size_ul (inner r))).

(** One bucket of sp_mapdb_get_wlan_latency_params(): rules of every type are
    tried with the generic matcher. *)
Fixpoint latency_bucket_scan (skb : sk_buff) (smac dmac : mac_addr)
    (l : list sp_mapdb_rule_node) : option (Z * Z * Z * Z) :=
  match l with
  | [] => None
  | curnode :: rest =>
      if sp_mapdb_rule_match skb (rule curnode) smac dmac
      then Some (latency_params (rule curnode))
      else latency_bucket_scan skb smac dmac rest
  end.

Fixpoint latency_prec_scan (skb : sk_buff) (smac dmac : mac_addr)
    (pm : list (list sp_mapdb_rule_node)) (n : nat) : option (Z * Z * Z * Z) :=
  match n with
  | O => None
  | S i =>
      match latency_bucket_scan skb smac dmac (bucket pm i) with
      | Some out => Some out
      | None => latency_prec_scan skb smac dmac pm i
      end
  end.

(** sp_mapdb_get_wlan_latency_params(): the four values stored through the
    out-parameters. *)
Definition sp_mapdb_get_wlan_latency_params (st : sp_mapdb_state) (skb : sk_buff)
    (smac dmac : mac_addr) : Z * Z * Z * Z :=
  match latency_prec_scan skb smac dmac (prec_map st)
          (Z.to_nat SP_MAPDB_RULE_MAX_PRECEDENCENUM) with
  | Some out => out
  | None => (0, 0, 0, 0)
  end.

(** sp_mapdb_apply(): the buffer with its priority replaced by the result of
    the search. *)
Definition sp_mapdb_apply (st : sp_mapdb_state) (skb : sk_buff)
    (smac dmac : mac_addr) : sk_buff :=
  {| skb_priority := sp_mapdb_ruletable_search st skb smac dmac;
     skb_protocol := skb_protocol skb; eth_h_proto := eth_h_proto skb;
     vlan_h_vlan_TCI := vlan_h_vlan_TCI skb; may_pull_iphdr := may_pull_iphdr skb;
     iph_tos := iph_tos skb; iph_saddr := iph_saddr skb; iph_daddr := iph_daddr skb;
     iph_protocol := iph_protocol skb; ipv6h_dsfield := ipv6h_dsfield skb;
     may_pull_tcphdr := may_pull_tcphdr skb; tcph_source := tcph_source skb;
     tcph_dest := tcph_dest skb; may_pull_udphdr := may_pull_udphdr skb;
     udph_source := udph_source skb; udph_dest := udph_dest skb |}.

(** The loop the SAWF, SAWF-SCS and SCS classifiers share: one bucket, the
    rules of type [rule_type] tried with the SAWF matcher; the node the loop
    leaves with, and [*params] as the matcher calls leave it. *)
Fixpoint sawf_bucket_scan (rule_type : Z) (l : list sp_mapdb_rule_node)
    (params : sp_rule_input_params)
    : option sp_mapdb_rule_node * sp_rule_input_params :=
  match l with
  | [] => (None, params)
  | curnode :: rest =>
      if classifier_type (rule curnode) =? rule_type then
        let (matched, params') := sp_mapdb_rule_match_sawf (rule curnode) params in
        if matched then (Some curnode, params')
        else sawf_bucket_scan rule_type rest params'
      else sawf_bucket_scan rule_type rest params
  end.

Fixpoint sawf_prec_scan (rule_type : Z) (pm : list (list sp_mapdb_rule_node)) (n : nat)
    (params : sp_rule_input_params)
    : option sp_mapdb_rule_node * sp_rule_input_params :=
  match n with
  | O => (None, params)
  | S i =>
      match sawf_bucket_scan rule_type (bucket pm i) params with
      | (Some curnode, params') => (Some curnode, params')
      | (None, params') => sawf_prec_scan rule_type pm i params'
      end
  end.

(** What sp_mapdb_rule_apply_sawf() stores for a matched rule: the members of
    the rule, through its [uint8_t] and [uint32_t] locals. *)
Definition sawf_output (r : sp_rule) : sp_rule_output_params :=
  {| Output.service_class_id := to_uint8 (service_class_id (inner r));
     Output.rule_id := to_uint32 (id r);
     Output.priority := to_uint8 (rule_output (inner r));
     Output.dscp_remark := to_uint8 (dscp_remark (inner r));
     Output.vlan_pcp_remark := to_uint8 (vlan_pcp_remark (inner r)) |}.

(** What it stores when no rule matched: the initial values of its locals. *)
Definition sawf_output_invalid : sp_rule_output_params :=
  {| Output.service_class_id := to_uint8 SP_RULE_INVALID_SERVICE_CLASS_ID;
     Output.rule_id := to_uint32 SP_RULE_INVALID_RULE_ID;
     Output.priority := to_uint8 SP_MAPDB_USE_DSCP;
     Output.dscp_remark := to_uint8 SP_RULE_INVALID_DSCP_REMARK;
     Output.vlan_pcp_remark := to_uint8 SP_RULE_INVALID_VLAN_PCP_REMARK |}.

(** sp_mapdb_rule_apply_sawf(): [*rule_output] and [*params] on return.  The
    SAWF rules are scanned first, over all precedences; the SAWF-SCS rules
    only if none of them matched. *)
Definition sp_mapdb_rule_apply_sawf (st : sp_mapdb_state)
    (params : sp_rule_input_params) : sp_rule_output_params * sp_rule_input_params :=
  if rule_count st =? 0 then (sawf_output_invalid, params)
  else
    match sawf_prec_scan SP_RULE_TYPE_SAWF (prec_map st)
            (Z.to_nat SP_MAPDB_RULE_MAX_PRECEDENCENUM) params with
    | (Some curnode, params') => (sawf_output (rule curnode), params')
    | (None, params') =>
        match sawf_prec_scan SP_RULE_TYPE_SAWF_SCS (prec_map st)
                (Z.to_nat SP_MAPDB_RULE_MAX_PRECEDENCENUM) params' with
        | (Some curnode, params'') => (sawf_output (rule curnode), params'')
        | (None, params'') => (sawf_output_invalid, params'')
        end
    end.

(** sp_mapdb_apply_scs(): [output->priority], [output->rule_id] and [*params]
    on return. *)
Definition sp_mapdb_apply_scs (st : sp_mapdb_state)
    (params : sp_rule_input_params) : Z * Z * sp_rule_input_params :=
  let invalid := (to_uint8 SP_RULE_INVALID_PRIORITY, to_uint32 SP_RULE_INVALID_RULE_ID) in
  if rule_count st =? 0 then (invalid, params)
  else
    match sawf_prec_scan SP_RULE_TYPE_SCS (prec_map st)
            (Z.to_nat SP_MAPDB_RULE_MAX_PRECEDENCENUM) params with
    | (Some curnode, params') =>
        ((to_uint8 (rule_output (inner (rule curnode))), to_uint32 (id (rule curnode))),
         params')
    | (None, params') => (invalid, params')
    end.

(** The lookup of sp_mapdb_rule_query(), between taking and releasing the
    lock: the rule that is copied for the reply, [None] when the function
    leaves through [put_failure] because the table is empty or holds no SAWF
    rule of that id.  The netlink message around it is not modelled. *)
Definition sp_mapdb_rule_query (st : sp_mapdb_state) (rule_id : Z) : option sp_rule :=
  if rule_count st =? 0 then None
  else
    match sp_mapdb_search_hashentry st rule_id SP_RULE_TYPE_SAWF with
    | None => None
    | Some (_, cur_rule_node) => Some (rule cur_rule_node)
    end.

(** sp_mapdb_fini() *)
Definition sp_mapdb_fini (st : sp_mapdb_state) : sp_mapdb_state :=
  sp_mapdb_ruletable_flush st.

End OtherClassifiers.

(** ** The netlink receiver *)

(** The attributes of a rule message, [info->attrs[...]]: [None] for an
    attribute that is absent, otherwise the value [nla_get_u8], [nla_get_u16],
    [nla_get_u32], [nla_get_in_addr], [nla_get_in6_addr] or [nla_data] reads
    from it. *)
Module Attrs.

Record t := {
  SP_GNL_ATTR_ID : option Z;
  SP_GNL_ATTR_ADD_DELETE_RULE : option Z;
  SP_GNL_ATTR_RULE_PRECEDENCE : option Z;
  SP_GNL_ATTR_RULE_OUTPUT : option Z;
  SP_GNL_ATTR_USER_PRIORITY : option Z;
  SP_GNL_ATTR_SERVICE_CLASS_ID : option Z;
  SP_GNL_ATTR_SRC_PORT : option Z;
  SP_GNL_ATTR_DST_PORT : option Z;
  SP_GNL_ATTR_SRC_MAC : option mac_addr;
  SP_GNL_ATTR_DST_MAC : option mac_addr;
  SP_GNL_ATTR_IP_VERSION_TYPE : option Z;
  SP_GNL_ATTR_SRC_IPV4_ADDR : option Z;
  SP_GNL_ATTR_SRC_IPV4_ADDR_MASK : option Z;
  SP_GNL_ATTR_DST_IPV4_ADDR : option Z;
  SP_GNL_ATTR_DST_IPV4_ADDR_MASK : option Z;
  SP_GNL_ATTR_SRC_IPV6_ADDR : option ipv6_words;
  SP_GNL_ATTR_SRC_IPV6_ADDR_MASK : option ipv6_words;
  SP_GNL_ATTR_DST_IPV6_ADDR : option ipv6_words;
  SP_GNL_ATTR_DST_IPV6_ADDR_MASK : option ipv6_words;
  SP_GNL_ATTR_PROTOCOL_NUMBER : option Z;
  SP_GNL_ATTR_VLAN_ID : option Z;
  SP_GNL_ATTR_DSCP : option Z;
  SP_GNL_ATTR_DSCP_REMARK : option Z;
  SP_GNL_ATTR_VLAN_PCP : option Z;
  SP_GNL_ATTR_VLAN_PCP_REMARK : option Z;
  SP_GNL_ATTR_MATCH_PATTERN_VALUE : option Z;
  SP_GNL_ATTR_MATCH_PATTERN_MASK : option Z;
  SP_GNL_ATTR_IFINDEX : option Z;
  SP_GNL_ATTR_TID_BITMAP : option Z;
  SP_GNL_ATTR_PRIORITY_LIMIT : option Z;
  SP_GNL_ATTR_SRC_PORT_RANGE_START : option Z;
  SP_GNL_ATTR_SRC_PORT_RANGE_END : option Z;
  SP_GNL_ATTR_DST_PORT_RANGE_START : option Z;
  SP_GNL_ATTR_DST_PORT_RANGE_END : option Z;
  SP_GNL_ATTR_CLASSIFIER_TYPE : option Z
}.

End Attrs.

Abbreviation genl_attrs := Attrs.t.

(** [for (i = 0; i < n; i++) a[i] &= m[i]] on the four words of an address
    ([n] is at most 4). *)
Definition ipv6_and_first (n : Z) (a m : ipv6_words) : ipv6_words :=
  match a, m with
  | (a0, a1, a2, a3), (m0, m1, m2, m3) =>
      (if 0 <? n then Z.land a0 m0 else a0,
       if 1 <? n then Z.land a1 m1 else a1,
       if 2 <? n then Z.land a2 m2 else a2,
       if 3 <? n then Z.land a3 m3 else a3)
  end.

(** [if (present) mask |= flag]. *)
Definition mask_or (mask : Z) (entry : bool * Z) : Z :=
  if fst entry then Z.lor mask (snd entry) else mask.

Section Receiver.
Context `{H : sp_header} `{HS : sp_header_sawf}.

(** The [mask |= FLAG] statements of sp_mapdb_rule_receive(), in the order
    of the function: whether the statement is reached (its attribute is
    present) and the flag it sets.  A port range sets its two flags only when
    both of its attributes are present. *)
Definition receive_flags (a : genl_attrs) : list (bool * Z) :=
  let src_range := bool_decide (is_Some (Attrs.SP_GNL_ATTR_SRC_PORT_RANGE_START a))
                   && bool_decide (is_Some (Attrs.SP_GNL_ATTR_SRC_PORT_RANGE_END a)) in
  let dst_range := bool_decide (is_Some (Attrs.SP_GNL_ATTR_DST_PORT_RANGE_START a))
                   && bool_decide (is_Some (Attrs.SP_GNL_ATTR_DST_PORT_RANGE_END a)) in
  [ (bool_decide (is_Some (Attrs.SP_GNL_ATTR_SRC_PORT a)), SP_RULE_FLAG_MATCH_SAWF_SRC_PORT);
    (bool_decide (is_Some (Attrs.SP_GNL_ATTR_DST_PORT a)), SP_RULE_FLAG_MATCH_SAWF_DST_PORT);
    (bool_decide (is_Some (Attrs.SP_GNL_ATTR_SRC_MAC a)), SP_RULE_FLAG_MATCH_SAWF_SOURCE_MAC);
    (bool_decide (is_Some (Attrs.SP_GNL_ATTR_DST_MAC a)), SP_RULE_FLAG_MATCH_SAWF_DST_MAC);
    (bool_decide (is_Some (Attrs.SP_GNL_ATTR_IP_VERSION_TYPE a)),
     SP_RULE_FLAG_MATCH_SAWF_IP_VERSION_TYPE);
    (bool_decide (is_Some (Attrs.SP_GNL_ATTR_SRC_IPV4_ADDR a)), SP_RULE_FLAG_MATCH_SAWF_SRC_IPV4);
    (bool_decide (is_Some (Attrs.SP_GNL_ATTR_SRC_IPV4_ADDR_MASK a)),
     SP_RULE_FLAG_MATCH_SAWF_SRC_IPV4_MASK);
    (bool_decide (is_Some (Attrs.SP_GNL_ATTR_DST_IPV4_ADDR a)), SP_RULE_FLAG_MATCH_SAWF_DST_IPV4);
    (bool_decide (is_Some (Attrs.SP_GNL_ATTR_DST_IPV4_ADDR_MASK a)),
     SP_RULE_FLAG_MATCH_SAWF_DST_IPV4_MASK);
    (bool_decide (is_Some (Attrs.SP_GNL_ATTR_SRC_IPV6_ADDR a)), SP_RULE_FLAG_MATCH_SAWF_SRC_IPV6);
    (bool_decide (is_Some (Attrs.SP_GNL_ATTR_SRC_IPV6_ADDR_MASK a)),
     SP_RULE_FLAG_MATCH_SAWF_SRC_IPV6_MASK);
    (bool_decide (is_Some (Attrs.SP_GNL_ATTR_DST_IPV6_ADDR a)), SP_RULE_FLAG_MATCH_SAWF_DST_IPV6);
    (bool_decide (is_Some (Attrs.SP_GNL_ATTR_DST_IPV6_ADDR_MASK a)),
     SP_RULE_FLAG_MATCH_SAWF_DST_IPV6_MASK);
    (bool_decide (is_Some (Attrs.SP_GNL_ATTR_PROTOCOL_NUMBER a)), SP_RULE_FLAG_MATCH_SAWF_PROTOCOL);
    (bool_decide (is_Some (Attrs.SP_GNL_ATTR_VLAN_ID a)), SP_RULE_FLAG_MATCH_SAWF_VLAN_ID);
    (bool_decide (is_Some (Attrs.SP_GNL_ATTR_DSCP a)), SP_RULE_FLAG_MATCH_SAWF_DSCP);
    (bool_decide (is_Some (Attrs.SP_GNL_ATTR_DSCP_REMARK a)),
     SP_RULE_FLAG_MATCH_SAWF_DSCP_REMARK);
    (bool_decide (is_Some (Attrs.SP_GNL_ATTR_VLAN_PCP a)), SP_RULE_FLAG_MATCH_SAWF_VLAN_PCP);
    (bool_decide (is_Some (Attrs.SP_GNL_ATTR_VLAN_PCP_REMARK a)),
     SP_RULE_FLAG_MATCH_SAWF_VLAN_PCP_REMARK);
    (bool_decide (is_Some (Attrs.SP_GNL_ATTR_MATCH_PATTERN_VALUE a)), SP_RULE_FLAG_MATCH_SCS_SPI);
    (bool_decide (is_Some (Attrs.SP_GNL_ATTR_MATCH_PATTERN_MASK a)), SP_RULE_FLAG_MATCH_SCS_SPI);
    (src_range, SP_RULE_FLAG_MATCH_SAWF_SRC_PORT_RANGE_START);
    (src_range, SP_RULE_FLAG_MATCH_SAWF_SRC_PORT_RANGE_END);
    (dst_range, SP_RULE_FLAG_MATCH_SAWF_DST_PORT_RANGE_START);
    (dst_range, SP_RULE_FLAG_MATCH_SAWF_DST_PORT_RANGE_END) ].

(** [mask] when it is stored in [inner.flags_sawf]. *)
Definition receive_mask (a : genl_attrs) : Z :=
  fold_left mask_or (receive_flags a) 0.

(** An address attribute followed by its mask attribute: the mask, when
    present, is ANDed into the address that was stored (0 if there was
    none). *)
Definition masked_ipv4 (addr mask : option Z) : Z :=
  match mask with
  | Some m => Z.land (default 0 addr) m
  | None => default 0 addr
  end.

Definition masked_ipv6 (addr mask : option ipv6_words) : ipv6_words :=
  match mask with
  | Some m => ipv6_and_first IPV6_ADDR_LEN (default (0, 0, 0, 0) addr) m
  | None => default (0, 0, 0, 0) addr
  end.

(** [to_sawf_sp] when sp_mapdb_rule_receive() hands it to
    sp_mapdb_rule_update(): zero-initialised, the four invalid output values
    set, then one member per attribute that is present. *)
Definition receive_rule (a : genl_attrs) : sp_rule :=
  let src_range := bool_decide (is_Some (Attrs.SP_GNL_ATTR_SRC_PORT_RANGE_START a))
                   && bool_decide (is_Some (Attrs.SP_GNL_ATTR_SRC_PORT_RANGE_END a)) in
  let dst_range := bool_decide (is_Some (Attrs.SP_GNL_ATTR_DST_PORT_RANGE_START a))
                   && bool_decide (is_Some (Attrs.SP_GNL_ATTR_DST_PORT_RANGE_END a)) in
  {| id := default 0 (Attrs.SP_GNL_ATTR_ID a);
     rule_precedence := default 0 (Attrs.SP_GNL_ATTR_RULE_PRECEDENCE a);
     classifier_type := default SP_RULE_TYPE_SAWF (Attrs.SP_GNL_ATTR_CLASSIFIER_TYPE a);
     cmd := default 0 (Attrs.SP_GNL_ATTR_ADD_DELETE_RULE a);
     inner := {|
       flags := 0;
       flags_sawf := receive_mask a;
       user_priority := default 0 (Attrs.SP_GNL_ATTR_USER_PRIORITY a);
       sa := default 0 (Attrs.SP_GNL_ATTR_SRC_MAC a);
       da := default 0 (Attrs.SP_GNL_ATTR_DST_MAC a);
       src_ipv4_addr := masked_ipv4 (Attrs.SP_GNL_ATTR_SRC_IPV4_ADDR a)
                          (Attrs.SP_GNL_ATTR_SRC_IPV4_ADDR_MASK a);
       dst_ipv4_addr := masked_ipv4 (Attrs.SP_GNL_ATTR_DST_IPV4_ADDR a)
                          (Attrs.SP_GNL_ATTR_DST_IPV4_ADDR_MASK a);
       src_ipv4_addr_mask := default 0 (Attrs.SP_GNL_ATTR_SRC_IPV4_ADDR_MASK a);
       dst_ipv4_addr_mask := default 0 (Attrs.SP_GNL_ATTR_DST_IPV4_ADDR_MASK a);
       src_ipv6_addr := masked_ipv6 (Attrs.SP_GNL_ATTR_SRC_IPV6_ADDR a)
                          (Attrs.SP_GNL_ATTR_SRC_IPV6_ADDR_MASK a);
       dst_ipv6_addr := masked_ipv6 (Attrs.SP_GNL_ATTR_DST_IPV6_ADDR a)
                          (Attrs.SP_GNL_ATTR_DST_IPV6_ADDR_MASK a);
       src_ipv6_addr_mask := default (0, 0, 0, 0) (Attrs.SP_GNL_ATTR_SRC_IPV6_ADDR_MASK a);
       dst_ipv6_addr_mask := default (0, 0, 0, 0) (Attrs.SP_GNL_ATTR_DST_IPV6_ADDR_MASK a);
       src_port := default 0 (Attrs.SP_GNL_ATTR_SRC_PORT a);
       dst_port := default 0 (Attrs.SP_GNL_ATTR_DST_PORT a);
       src_port_range_start :=
         if src_range then default 0 (Attrs.SP_GNL_ATTR_SRC_PORT_RANGE_START a) else 0;
       src_port_range_end :=
         if src_range then default 0 (Attrs.SP_GNL_ATTR_SRC_PORT_RANGE_END a) else 0;
       dst_port_range_start :=
         if dst_range then default 0 (Attrs.SP_GNL_ATTR_DST_PORT_RANGE_START a) else 0;
       dst_port_range_end :=
         if dst_range then default 0 (Attrs.SP_GNL_ATTR_DST_PORT_RANGE_END a) else 0;
       protocol_number := default 0 (Attrs.SP_GNL_ATTR_PROTOCOL_NUMBER a);
       vlan_id := default 0 (Attrs.SP_GNL_ATTR_VLAN_ID a);
       vlan_pcp := default 0 (Attrs.SP_GNL_ATTR_VLAN_PCP a);
       dscp := default 0 (Attrs.SP_GNL_ATTR_DSCP a);
       ip_version_type := default 0 (Attrs.SP_GNL_ATTR_IP_VERSION_TYPE a);
       ifindex := default 0 (Attrs.SP_GNL_ATTR_IFINDEX a);
       match_pattern_value := default 0 (Attrs.SP_GNL_ATTR_MATCH_PATTERN_VALUE a);
       match_pattern_mask := default 0 (Attrs.SP_GNL_ATTR_MATCH_PATTERN_MASK a);
       rule_output := default 0 (Attrs.SP_GNL_ATTR_RULE_OUTPUT a);
       dscp_remark := default SP_RULE_INVALID_DSCP_REMARK (Attrs.SP_GNL_ATTR_DSCP_REMARK a);
       vlan_pcp_remark :=
         default SP_RULE_INVALID_VLAN_PCP_REMARK (Attrs.SP_GNL_ATTR_VLAN_PCP_REMARK a);
       service_class_id :=
         default SP_RULE_INVALID_SERVICE_CLASS_ID (Attrs.SP_GNL_ATTR_SERVICE_CLASS_ID a);
       mscs_tid_bitmap :=
         default SP_RULE_INVALID_MSCS_TID_BITMAP (Attrs.SP_GNL_ATTR_TID_BITMAP a);
       priority_limit := default 0 (Attrs.SP_GNL_ATTR_PRIORITY_LIMIT a);
       service_interval_dl := 0;
       burst_size_dl := 0;
       service_interval_ul := 0;
       burst_size_ul := 0 |} |}.

(** The requests sp_mapdb_rule_receive() answers itself, with
    invalid-entry: a command attribute that is neither delete nor add, and a
    port range with one of its two attributes missing. *)
Definition receive_rejects (a : genl_attrs) : bool :=
  match Attrs.SP_GNL_ATTR_ADD_DELETE_RULE a with
  | Some rule_cmd =>
      negb ((rule_cmd =? SP_MAPDB_ADD_REMOVE_FILTER_DELETE)
            || (rule_cmd =? SP_MAPDB_ADD_REMOVE_FILTER_ADD))
  | None => false
  end
  || xorb (bool_decide (is_Some (Attrs.SP_GNL_ATTR_SRC_PORT_RANGE_START a)))
          (bool_decide (is_Some (Attrs.SP_GNL_ATTR_SRC_PORT_RANGE_END a)))
  || xorb (bool_decide (is_Some (Attrs.SP_GNL_ATTR_DST_PORT_RANGE_START a)))
          (bool_decide (is_Some (Attrs.SP_GNL_ATTR_DST_PORT_RANGE_END a))).

(** sp_mapdb_rule_receive(): [rule_result], which goes into the status reply,
    and the table.  The reply message itself is not modelled. *)
Definition sp_mapdb_rule_receive (st : sp_mapdb_state) (a : genl_attrs)
    (alloc_node alloc_hash : bool) : sp_mapdb_update_result_t * sp_mapdb_state :=
  if receive_rejects a then (SP_MAPDB_UPDATE_RESULT_ERR_INVALIDENTRY, st)
  else sp_mapdb_rule_update st (Some (receive_rule a)) alloc_node alloc_hash.

End Receiver.

(** ** The vocabulary of the properties *)

(** The rules that are linked in some bucket. *)
Definition live_rules (st : sp_mapdb_state) : list sp_mapdb_rule_node :=
  mjoin (prec_map st).

(** The key of a rule: its id and its rule type. *)
Definition node_key (n : sp_mapdb_rule_node) : Z * Z :=
  (id (rule n), classifier_type (rule n)).

(** What the C types guarantee of a request: [rule_precedence] is a
    [uint8_t]. *)
Definition rule_well_typed (r : sp_rule) : Prop := 0 <= rule_precedence r < 256.

Definition op_well_typed (op : sp_mapdb_op) : Prop :=
  match op with
  | Op_update (Some r) _ _ => rule_well_typed r
  | _ => True
  end.

(** The invariant: the buckets are the [SP_MAPDB_RULE_MAX_PRECEDENCENUM]
    buckets of the array, a node is in the bucket of its precedence, the hash
    table points to exactly the linked nodes, no two of them share a key, and
    the count is their number. *)
Record store_inv (st : sp_mapdb_state) : Prop := {
  inv_buckets : length (prec_map st) = Z.to_nat SP_MAPDB_RULE_MAX_PRECEDENCENUM;
  inv_prec : ∀ i n, n ∈ bucket (prec_map st) i → rule_precedence (rule n) = Z.of_nat i;
  inv_index : rule_id_hashmap st ≡ₚ live_rules st;
  inv_addr : NoDup (node_addr <$> rule_id_hashmap st);
  inv_fresh : ∀ n, n ∈ rule_id_hashmap st → (node_addr n < next_node st)%nat;
  inv_keys : NoDup (node_key <$> rule_id_hashmap st);
  inv_count : rule_count st = Z.of_nat (length (rule_id_hashmap st))
}.

(** Between two updates the writer lock is free as well. *)
Definition table_inv (st : sp_mapdb_state) : Prop :=
  store_inv st ∧ single_writer st = false.

(** The count is within its bound. *)
Definition count_bounded `{H : sp_header} (st : sp_mapdb_state) : Prop :=
  0 <= rule_count st <= SP_MAPDB_RULE_MAX.

(** The node a request is stored as. *)
Definition stored_rule (newrule : sp_rule) (rule_type : Z) : sp_rule :=
  if rule_precedence newrule =? SP_MAPDB_RULE_MAX_PRECEDENCENUM
  then set_rule_precedence (set_classifier_type newrule rule_type) 0
  else set_classifier_type newrule rule_type.

(** The test the MESH scan applies to a node. *)
Definition mesh_hit `{H : sp_header} (skb : sk_buff) (smac dmac : mac_addr)
    (n : sp_mapdb_rule_node) : bool :=
  (classifier_type (rule n) =? SP_RULE_TYPE_MESH)
  && sp_mapdb_rule_match skb (rule n) smac dmac.

(** The nodes of buckets [n - 1] down to 0, in the order of the scan. *)
Fixpoint scan_order (pm : list (list sp_mapdb_rule_node)) (n : nat)
    : list sp_mapdb_rule_node :=
  match n with
  | O => []
  | S i => bucket pm i ++ scan_order pm i
  end.

(** [sawf_frame rule p p']: [p'] is [p] but for the addresses and the SPI,
    each of which is either as in [p] or, if the rule asks for the masked
    comparison, the value of [p] ANDed with the mask of the rule. *)
Record sawf_frame `{H : sp_header} (rule : sp_rule) (p p' : sp_rule_input_params) : Prop := {
  frame_src_mac : Params.mac (Params.src p') = Params.mac (Params.src p);
  frame_src_port : Params.port (Params.src p') = Params.port (Params.src p);
  frame_dst_mac : Params.mac (Params.dst p') = Params.mac (Params.dst p);
  frame_dst_port : Params.port (Params.dst p') = Params.port (Params.dst p);
  frame_ip_version_type : Params.ip_version_type p' = Params.ip_version_type p;
  frame_dev_addr : Params.dev_addr p' = Params.dev_addr p;
  frame_ifindex : Params.ifindex p' = Params.ifindex p;
  frame_protocol : Params.protocol p' = Params.protocol p;
  frame_dscp : Params.dscp p' = Params.dscp p;
  frame_vlan_tci : Params.vlan_tci p' = Params.vlan_tci p;
  frame_src_ipv4 :
    Params.ipv4_addr (Params.ip (Params.src p')) = Params.ipv4_addr (Params.ip (Params.src p))
    ∨ (flag_set (flags_sawf (inner rule)) SP_RULE_FLAG_MATCH_SAWF_SRC_IPV4 = true
       ∧ flag_set (flags_sawf (inner rule)) SP_RULE_FLAG_MATCH_SAWF_SRC_IPV4_MASK = true
       ∧ Params.ipv4_addr (Params.ip (Params.src p'))
         = Z.land (Params.ipv4_addr (Params.ip (Params.src p)))
             (src_ipv4_addr_mask (inner rule)));
  frame_dst_ipv4 :
    Params.ipv4_addr (Params.ip (Params.dst p')) = Params.ipv4_addr (Params.ip (Params.dst p))
    ∨ (flag_set (flags_sawf (inner rule)) SP_RULE_FLAG_MATCH_SAWF_DST_IPV4 = true
       ∧ flag_set (flags_sawf (inner rule)) SP_RULE_FLAG_MATCH_SAWF_DST_IPV4_MASK = true
       ∧ Params.ipv4_addr (Params.ip (Params.dst p'))
         = Z.land (Params.ipv4_addr (Params.ip (Params.dst p)))
             (dst_ipv4_addr_mask (inner rule)));
  frame_src_ipv6 :
    Params.ipv6_addr (Params.ip (Params.src p')) = Params.ipv6_addr (Params.ip (Params.src p))
    ∨ (flag_set (flags_sawf (inner rule)) SP_RULE_FLAG_MATCH_SAWF_SRC_IPV6 = true
       ∧ flag_set (flags_sawf (inner rule)) SP_RULE_FLAG_MATCH_SAWF_SRC_IPV6_MASK = true
       ∧ Params.ipv6_addr (Params.ip (Params.src p'))
         = ipv6_and (Params.ipv6_addr (Params.ip (Params.src p)))
             (src_ipv6_addr_mask (inner rule)));
  frame_dst_ipv6 :
    Params.ipv6_addr (Params.ip (Params.dst p')) = Params.ipv6_addr (Params.ip (Params.dst p))
    ∨ (flag_set (flags_sawf (inner rule)) SP_RULE_FLAG_MATCH_SAWF_DST_IPV6 = true
       ∧ flag_set (flags_sawf (inner rule)) SP_RULE_FLAG_MATCH_SAWF_DST_IPV6_MASK = true
       ∧ Params.ipv6_addr (Params.ip (Params.dst p'))
         = ipv6_and (Params.ipv6_addr (Params.ip (Params.dst p)))
             (dst_ipv6_addr_mask (inner rule)));
  frame_spi :
    Params.spi p' = Params.spi p
    ∨ (flag_set (flags_sawf (inner rule)) SP_RULE_FLAG_MATCH_SCS_SPI = true
       ∧ Params.spi p' = Z.land (Params.spi p) (match_pattern_mask (inner rule)))
}.

(** A test of the SAWF matcher respects the frame. *)
Definition sawf_framed `{H : sp_header} (rule : sp_rule) (c : sawf_check) : Prop :=
  ∀ p, sawf_frame rule p (snd (c p)).

(** The rule asks for a comparison that stores a masked value. *)
Definition sawf_writes `{H : sp_header} (rule : sp_rule) : bool :=
  let fl := flags_sawf (inner rule) in
  (flag_set fl SP_RULE_FLAG_MATCH_SAWF_DST_IPV4
   && flag_set fl SP_RULE_FLAG_MATCH_SAWF_DST_IPV4_MASK)
  || (flag_set fl SP_RULE_FLAG_MATCH_SAWF_SRC_IPV4
      && flag_set fl SP_RULE_FLAG_MATCH_SAWF_SRC_IPV4_MASK)
  || (flag_set fl SP_RULE_FLAG_MATCH_SAWF_SRC_IPV6
      && flag_set fl SP_RULE_FLAG_MATCH_SAWF_SRC_IPV6_MASK)
  || (flag_set fl SP_RULE_FLAG_MATCH_SAWF_DST_IPV6
      && flag_set fl SP_RULE_FLAG_MATCH_SAWF_DST_IPV6_MASK)
  || flag_set fl SP_RULE_FLAG_MATCH_SCS_SPI.






(** ** An instance of the header constants *)

(** A consistent choice of the constants, on which the definitions can be run:
    one bit per match flag, distinct values for the enumerations.  The table
    bound is left open so that small full tables can be built. *)
Definition sp_header_example (rule_max : Z) : sp_header := {|
  SP_MAPDB_RULE_MAX := rule_max;
  SP_MAPDB_USE_UP := 8;
  SP_MAPDB_USE_DSCP := 9;
  SP_MAPDB_NO_MATCH := 10;
  SP_MAPDB_RULE_DEFAULT_PCP := 0;
  SP_MAPDB_ADD_REMOVE_FILTER_DELETE := 0;
  SP_MAPDB_ADD_REMOVE_FILTER_ADD := 1;
  SP_RULE_TYPE_MESH := 0;
  SP_RULE_TYPE_SAWF := 1;
  SP_RULE_TYPE_SCS := 2;
  SP_RULE_TYPE_MSCS := 3;
  SP_RULE_TYPE_SAWF_SCS := 4;
  SP_RULE_INVALID_PRIORITY := 255;
  SP_RULE_INVALID_RULE_ID := 4294967295;
  SP_RULE_INVALID_MSCS_TID_BITMAP := 255;
  SP_RULE_INVALID_VLAN_TCI := 4294967295;
  SP_RULE_FLAG_MATCH_ALWAYS_TRUE := 1;
  SP_RULE_FLAG_MATCH_UP := 2;
  SP_RULE_FLAG_MATCH_UP_SENSE := 4;
  SP_RULE_FLAG_MATCH_SOURCE_MAC := 8;
  SP_RULE_FLAG_MATCH_SOURCE_MAC_SENSE := 16;
  SP_RULE_FLAG_MATCH_DST_MAC := 32;
  SP_RULE_FLAG_MATCH_DST_MAC_SENSE := 64;
  SP_RULE_FLAG_MATCH_SRC_IPV4 := 128;
  SP_RULE_FLAG_MATCH_SRC_IPV4_SENSE := 256;
  SP_RULE_FLAG_MATCH_DST_IPV4 := 512;
  SP_RULE_FLAG_MATCH_DST_IPV4_SENSE := 1024;
  SP_RULE_FLAG_MATCH_SRC_PORT := 2048;
  SP_RULE_FLAG_MATCH_SRC_PORT_SENSE := 4096;
  SP_RULE_FLAG_MATCH_DST_PORT := 8192;
  SP_RULE_FLAG_MATCH_DST_PORT_SENSE := 16384;
  SP_RULE_FLAG_MATCH_PROTOCOL := 32768;
  SP_RULE_FLAG_MATCH_PROTOCOL_SENSE := 65536;
  SP_RULE_FLAG_MATCH_VLAN_ID := 131072;
  SP_RULE_FLAG_MATCH_VLAN_ID_SENSE := 262144;
  SP_RULE_FLAG_MATCH_DSCP := 524288;
  SP_RULE_FLAG_MATCH_DSCP_SENSE := 1048576;
  SP_RULE_FLAG_MATCH_SAWF_IP_VERSION_TYPE := 1;
  SP_RULE_FLAG_MATCH_SAWF_DST_MAC := 2;
  SP_RULE_FLAG_MATCH_SAWF_DST_PORT := 4;
  SP_RULE_FLAG_MATCH_SAWF_DST_PORT_RANGE_START := 8;
  SP_RULE_FLAG_MATCH_SAWF_DST_PORT_RANGE_END := 16;
  SP_RULE_FLAG_MATCH_SAWF_DST_IPV4 := 32;
  SP_RULE_FLAG_MATCH_SAWF_DST_IPV4_MASK := 64;
  SP_RULE_FLAG_MATCH_SAWF_SOURCE_MAC := 128;
  SP_RULE_FLAG_MATCH_SAWF_SRC_IPV6 := 256;
  SP_RULE_FLAG_MATCH_SAWF_SRC_IPV6_MASK := 512;
  SP_RULE_FLAG_MATCH_SAWF_DST_IPV6 := 1024;
  SP_RULE_FLAG_MATCH_SAWF_DST_IPV6_MASK := 2048;
  SP_RULE_FLAG_MATCH_SAWF_SRC_PORT := 4096;
  SP_RULE_FLAG_MATCH_SAWF_SRC_PORT_RANGE_START := 8192;
  SP_RULE_FLAG_MATCH_SAWF_SRC_PORT_RANGE_END := 16384;
  SP_RULE_FLAG_MATCH_SAWF_SRC_IPV4 := 32768;
  SP_RULE_FLAG_MATCH_SAWF_SRC_IPV4_MASK := 65536;
  SP_RULE_FLAG_MATCH_SAWF_PROTOCOL := 131072;
  SP_RULE_FLAG_MATCH_SAWF_DSCP := 262144;
  SP_RULE_FLAG_MATCH_SAWF_VLAN_PCP := 524288;
  SP_RULE_FLAG_MATCH_SAWF_VLAN_ID := 1048576;
  SP_RULE_FLAG_MATCH_SCS_SPI := 2097152
|}.

(** Rules and packets to run the definitions on: everything zero but the
    fields given. *)
Definition inner_zero : sp_rule_inner := {|
  flags := 0; flags_sawf := 0; user_priority := 0; sa := 0; da := 0;
  src_ipv4_addr := 0; dst_ipv4_addr := 0; src_ipv4_addr_mask := 0;
  dst_ipv4_addr_mask := 0; src_ipv6_addr := (0, 0, 0, 0);
  dst_ipv6_addr := (0, 0, 0, 0); src_ipv6_addr_mask := (0, 0, 0, 0);
  dst_ipv6_addr_mask := (0, 0, 0, 0); src_port := 0; dst_port := 0;
  src_port_range_start := 0; src_port_range_end := 0;
  dst_port_range_start := 0; dst_port_range_end := 0; protocol_number := 0;
  vlan_id := 0; vlan_pcp := 0; dscp := 0; ip_version_type := 0; ifindex := 0;
  match_pattern_value := 0; match_pattern_mask := 0; rule_output := 0;
  dscp_remark := 0; vlan_pcp_remark := 0; service_class_id := 0;
  mscs_tid_bitmap := 0; priority_limit := 0; service_interval_dl := 0;
  burst_size_dl := 0; service_interval_ul := 0; burst_size_ul := 0
|}.

(** A rule with generic match flags [fl], source MAC [mac], source port
    [sport] and output [out]. *)
Definition mesh_rule (rid prec fl mac sport out : Z) : sp_rule := {|
  id := rid; rule_precedence := prec; classifier_type := 0; cmd := 1;
  inner := {|
    flags := fl; flags_sawf := 0; user_priority := 0; sa := mac; da := 0;
    src_ipv4_addr := 0; dst_ipv4_addr := 0; src_ipv4_addr_mask := 0;
    dst_ipv4_addr_mask := 0; src_ipv6_addr := (0, 0, 0, 0);
    dst_ipv6_addr := (0, 0, 0, 0); src_ipv6_addr_mask := (0, 0, 0, 0);
    dst_ipv6_addr_mask := (0, 0, 0, 0); src_port := sport; dst_port := 0;
    src_port_range_start := 0; src_port_range_end := 0;
    dst_port_range_start := 0; dst_port_range_end := 0; protocol_number := 0;
    vlan_id := 0; vlan_pcp := 0; dscp := 0; ip_version_type := 0; ifindex := 0;
    match_pattern_value := 0; match_pattern_mask := 0; rule_output := out;
    dscp_remark := 0; vlan_pcp_remark := 0; service_class_id := 0;
    mscs_tid_bitmap := 0; priority_limit := 0; service_interval_dl := 0;
    burst_size_dl := 0; service_interval_ul := 0; burst_size_ul := 0 |}
|}.

(** A rule of type [ty] with SAWF match flags [fl], destination IPv4 address
    [dip] under mask [dmask], and MSCS bitmap [bitmap]. *)
Definition sawf_rule (rid prec ty fl dip dmask bitmap : Z) : sp_rule := {|
  id := rid; rule_precedence := prec; classifier_type := ty; cmd := 1;
  inner := {|
    flags := 0; flags_sawf := fl; user_priority := 0; sa := 0; da := 0;
    src_ipv4_addr := 0; dst_ipv4_addr := dip; src_ipv4_addr_mask := 0;
    dst_ipv4_addr_mask := dmask; src_ipv6_addr := (0, 0, 0, 0);
    dst_ipv6_addr := (0, 0, 0, 0); src_ipv6_addr_mask := (0, 0, 0, 0);
    dst_ipv6_addr_mask := (0, 0, 0, 0); src_port := 0; dst_port := 0;
    src_port_range_start := 0; src_port_range_end := 0;
    dst_port_range_start := 0; dst_port_range_end := 0; protocol_number := 0;
    vlan_id := 0; vlan_pcp := 0; dscp := 0; ip_version_type := 0; ifindex := 0;
    match_pattern_value := 0; match_pattern_mask := 0; rule_output := 0;
    dscp_remark := 0; vlan_pcp_remark := 0; service_class_id := 0;
    mscs_tid_bitmap := bitmap; priority_limit := 0; service_interval_dl := 0;
    burst_size_dl := 0; service_interval_ul := 0; burst_size_ul := 0 |}
|}.

(** An IPv4 packet ([skb->protocol] is [htons(ETH_P_IP)], untagged) with
    priority [prio], DS field [tos] and IP protocol [proto]; a TCP or UDP
    header, if any, carries ports 0. *)
Definition ipv4_packet (prio tos proto : Z) : sk_buff := {|
  skb_priority := prio; skb_protocol := 8; eth_h_proto := 8; vlan_h_vlan_TCI := 0;
  may_pull_iphdr := true; iph_tos := tos; iph_saddr := 0; iph_daddr := 0;
  iph_protocol := proto; ipv6h_dsfield := 0;
  may_pull_tcphdr := true; tcph_source := 0; tcph_dest := 0;
  may_pull_udphdr := true; udph_source := 0; udph_dest := 0
|}.

(** SAWF input parameters with destination IPv4 address [dip]. *)
Definition params_example (dip : Z) : sp_rule_input_params := {|
  Params.src := {| Params.ip := {| Params.ipv4_addr := 0; Params.ipv6_addr := (0, 0, 0, 0) |};
                   Params.mac := 0; Params.port := 0 |};
  Params.dst := {| Params.ip := {| Params.ipv4_addr := dip; Params.ipv6_addr := (0, 0, 0, 0) |};
                   Params.mac := 0; Params.port := 0 |};
  Params.ip_version_type := 4; Params.dev_addr := 0; Params.ifindex := 0;
  Params.protocol := 6; Params.dscp := 0; Params.vlan_tci := 0; Params.spi := 0
|}.

(** The rule [r] with latency parameters: service interval and burst size,
    downlink then uplink. *)
Definition with_latency (r : sp_rule) (si_dl bs_dl si_ul bs_ul : Z) : sp_rule := {|
  id := id r; rule_precedence := rule_precedence r;
  classifier_type := classifier_type r; cmd := cmd r;
  inner := {|
    flags := flags (inner r); flags_sawf := flags_sawf (inner r);
    user_priority := user_priority (inner r); sa := sa (inner r); da := da (inner r);
    src_ipv4_addr := src_ipv4_addr (inner r); dst_ipv4_addr := dst_ipv4_addr (inner r);
    src_ipv4_addr_mask := src_ipv4_addr_mask (inner r);
    dst_ipv4_addr_mask := dst_ipv4_addr_mask (inner r);
    src_ipv6_addr := src_ipv6_addr (inner r); dst_ipv6_addr := dst_ipv6_addr (inner r);
    src_ipv6_addr_mask := src_ipv6_addr_mask (inner r);
    dst_ipv6_addr_mask := dst_ipv6_addr_mask (inner r);
    src_port := src_port (inner r); dst_port := dst_port (inner r);
    src_port_range_start := src_port_range_start (inner r);
    src_port_range_end := src_port_range_end (inner r);
    dst_port_range_start := dst_port_range_start (inner r);
    dst_port_range_end := dst_port_range_end (inner r);
    protocol_number := protocol_number (inner r); vlan_id := vlan_id (inner r);
    vlan_pcp := vlan_pcp (inner r); dscp := dscp (inner r);
    ip_version_type := ip_version_type (inner r); ifindex := ifindex (inner r);
    match_pattern_value := match_pattern_value (inner r);
    match_pattern_mask := match_pattern_mask (inner r);
    rule_output := rule_output (inner r); dscp_remark := dscp_remark (inner r);
    vlan_pcp_remark := vlan_pcp_remark (inner r);
    service_class_id := service_class_id (inner r);
    mscs_tid_bitmap := mscs_tid_bitmap (inner r);
    priority_limit := priority_limit (inner r);
    service_interval_dl := si_dl; burst_size_dl := bs_dl;
    service_interval_ul := si_ul; burst_size_ul := bs_ul |}
|}.

(** A sequence of requests that adds, modifies in place, moves, fills the
    table, deletes and flushes. *)
Definition ops_example : list sp_mapdb_op :=
  [ Op_update (Some (mesh_rule 1 10 1 0 0 5)) true true;
    Op_update (Some (mesh_rule 2 3 1 0 0 6)) true true;
    Op_update (Some (mesh_rule 1 10 1 0 0 4)) true true;
    Op_update (Some (mesh_rule 2 255 1 0 0 6)) true true;
    Op_update (Some (set_classifier_type (mesh_rule 1 10 1 0 0 5) 2)) true true;
    Op_update (Some (mesh_rule 7 0 1 0 0 1)) true true;
    Op_update (Some {| id := 2; rule_precedence := 0; classifier_type := 0;
                       cmd := 0; inner := inner_zero |}) true true;
    Op_flush;
    Op_update (Some (mesh_rule 9 254 1 0 0 2)) true true ].

(** An add message for the SAWF rule [rid] (precedence 0, output 0) with, if
    given, a destination IPv6 address and its mask, the bounds of a source
    port range, and an SPI pattern value and mask. *)
Definition attrs_sawf (rid : Z) (dip6 dmask6 : option ipv6_words)
    (range_start range_end spi_value spi_mask : option Z) : genl_attrs := {|
  Attrs.SP_GNL_ATTR_ID := Some rid;
  Attrs.SP_GNL_ATTR_ADD_DELETE_RULE := Some 1;
  Attrs.SP_GNL_ATTR_RULE_PRECEDENCE := Some 0;
  Attrs.SP_GNL_ATTR_RULE_OUTPUT := Some 0;
  Attrs.SP_GNL_ATTR_USER_PRIORITY := None;
  Attrs.SP_GNL_ATTR_SERVICE_CLASS_ID := None;
  Attrs.SP_GNL_ATTR_SRC_PORT := None;
  Attrs.SP_GNL_ATTR_DST_PORT := None;
  Attrs.SP_GNL_ATTR_SRC_MAC := None;
  Attrs.SP_GNL_ATTR_DST_MAC := None;
  Attrs.SP_GNL_ATTR_IP_VERSION_TYPE := None;
  Attrs.SP_GNL_ATTR_SRC_IPV4_ADDR := None;
  Attrs.SP_GNL_ATTR_SRC_IPV4_ADDR_MASK := None;
  Attrs.SP_GNL_ATTR_DST_IPV4_ADDR := None;
  Attrs.SP_GNL_ATTR_DST_IPV4_ADDR_MASK := None;
  Attrs.SP_GNL_ATTR_SRC_IPV6_ADDR := None;
  Attrs.SP_GNL_ATTR_SRC_IPV6_ADDR_MASK := None;
  Attrs.SP_GNL_ATTR_DST_IPV6_ADDR := dip6;
  Attrs.SP_GNL_ATTR_DST_IPV6_ADDR_MASK := dmask6;
  Attrs.SP_GNL_ATTR_PROTOCOL_NUMBER := None;
  Attrs.SP_GNL_ATTR_VLAN_ID := None;
  Attrs.SP_GNL_ATTR_DSCP := None;
  Attrs.SP_GNL_ATTR_DSCP_REMARK := None;
  Attrs.SP_GNL_ATTR_VLAN_PCP := None;
  Attrs.SP_GNL_ATTR_VLAN_PCP_REMARK := None;
  Attrs.SP_GNL_ATTR_MATCH_PATTERN_VALUE := spi_value;
  Attrs.SP_GNL_ATTR_MATCH_PATTERN_MASK := spi_mask;
  Attrs.SP_GNL_ATTR_IFINDEX := None;
  Attrs.SP_GNL_ATTR_TID_BITMAP := None;
  Attrs.SP_GNL_ATTR_PRIORITY_LIMIT := None;
  Attrs.SP_GNL_ATTR_SRC_PORT_RANGE_START := range_start;
  Attrs.SP_GNL_ATTR_SRC_PORT_RANGE_END := range_end;
  Attrs.SP_GNL_ATTR_DST_PORT_RANGE_START := None;
  Attrs.SP_GNL_ATTR_DST_PORT_RANGE_END := None;
  Attrs.SP_GNL_ATTR_CLASSIFIER_TYPE := None
|}.

(** The test the SAWF, SAWF-SCS and SCS scans apply to a node, on the
    parameters [p]. *)
Definition sawf_hit `{H : sp_header} (rule_type : Z) (p : sp_rule_input_params)
    (n : sp_mapdb_rule_node) : bool :=
  (classifier_type (rule n) =? rule_type) && fst (sp_mapdb_rule_match_sawf (rule n) p).


(** A reply that reports a change of the table. *)
Definition is_success (code : sp_mapdb_update_result_t) : bool :=
  match code with
  | SP_MAPDB_UPDATE_RESULT_SUCCESS_ADD
  | SP_MAPDB_UPDATE_RESULT_SUCCESS_DELETE
  | SP_MAPDB_UPDATE_RESULT_SUCCESS_MODIFY => true
  | _ => false
  end.

(** An instance of the constants of the SAWF classifier and the receiver, to
    go with [sp_header_example]. *)
Definition sp_header_sawf_example : sp_header_sawf := {|
  SP_RULE_INVALID_DSCP_REMARK := 255;
  SP_RULE_INVALID_VLAN_PCP_REMARK := 255;
  SP_RULE_INVALID_SERVICE_CLASS_ID := 255;
  SP_RULE_FLAG_MATCH_SAWF_DSCP_REMARK := 4194304;
  SP_RULE_FLAG_MATCH_SAWF_VLAN_PCP_REMARK := 8388608;
  IPV6_ADDR_LEN := 4
|}.


(** A message without attributes. *)
Definition attrs_empty : genl_attrs := {|
  Attrs.SP_GNL_ATTR_ID := None;
  Attrs.SP_GNL_ATTR_ADD_DELETE_RULE := None;
  Attrs.SP_GNL_ATTR_RULE_PRECEDENCE := None;
  Attrs.SP_GNL_ATTR_RULE_OUTPUT := None;
  Attrs.SP_GNL_ATTR_USER_PRIORITY := None;
  Attrs.SP_GNL_ATTR_SERVICE_CLASS_ID := None;
  Attrs.SP_GNL_ATTR_SRC_PORT := None;
  Attrs.SP_GNL_ATTR_DST_PORT := None;
  Attrs.SP_GNL_ATTR_SRC_MAC := None;
  Attrs.SP_GNL_ATTR_DST_MAC := None;
  Attrs.SP_GNL_ATTR_IP_VERSION_TYPE := None;
  Attrs.SP_GNL_ATTR_SRC_IPV4_ADDR := None;
  Attrs.SP_GNL_ATTR_SRC_IPV4_ADDR_MASK := None;
  Attrs.SP_GNL_ATTR_DST_IPV4_ADDR := None;
  Attrs.SP_GNL_ATTR_DST_IPV4_ADDR_MASK := None;
  Attrs.SP_GNL_ATTR_SRC_IPV6_ADDR := None;
  Attrs.SP_GNL_ATTR_SRC_IPV6_ADDR_MASK := None;
  Attrs.SP_GNL_ATTR_DST_IPV6_ADDR := None;
  Attrs.SP_GNL_ATTR_DST_IPV6_ADDR_MASK := None;
  Attrs.SP_GNL_ATTR_PROTOCOL_NUMBER := None;
  Attrs.SP_GNL_ATTR_VLAN_ID := None;
  Attrs.SP_GNL_ATTR_DSCP := None;
  Attrs.SP_GNL_ATTR_DSCP_REMARK := None;
  Attrs.SP_GNL_ATTR_VLAN_PCP := None;
  Attrs.SP_GNL_ATTR_VLAN_PCP_REMARK := None;
  Attrs.SP_GNL_ATTR_MATCH_PATTERN_VALUE := None;
  Attrs.SP_GNL_ATTR_MATCH_PATTERN_MASK := None;
  Attrs.SP_GNL_ATTR_IFINDEX := None;
  Attrs.SP_GNL_ATTR_TID_BITMAP := None;
  Attrs.SP_GNL_ATTR_PRIORITY_LIMIT := None;
  Attrs.SP_GNL_ATTR_SRC_PORT_RANGE_START := None;
  Attrs.SP_GNL_ATTR_SRC_PORT_RANGE_END := None;
  Attrs.SP_GNL_ATTR_DST_PORT_RANGE_START := None;
  Attrs.SP_GNL_ATTR_DST_PORT_RANGE_END := None;
  Attrs.SP_GNL_ATTR_CLASSIFIER_TYPE := None
|}.

(** An add message ([rule_cmd] 1) for rule [rid] with precedence [prec],
    output [out] and, if given, a destination IPv4 address, its mask, a
    source port range start and a classifier type. *)
Definition attrs_add (rid prec out : Z) (dip dmask range_start ty : option Z) : genl_attrs := {|
  Attrs.SP_GNL_ATTR_ID := Some rid;
  Attrs.SP_GNL_ATTR_ADD_DELETE_RULE := Some 1;
  Attrs.SP_GNL_ATTR_RULE_PRECEDENCE := Some prec;
  Attrs.SP_GNL_ATTR_RULE_OUTPUT := Some out;
  Attrs.SP_GNL_ATTR_USER_PRIORITY := None;
  Attrs.SP_GNL_ATTR_SERVICE_CLASS_ID := None;
  Attrs.SP_GNL_ATTR_SRC_PORT := None;
  Attrs.SP_GNL_ATTR_DST_PORT := None;
  Attrs.SP_GNL_ATTR_SRC_MAC := None;
  Attrs.SP_GNL_ATTR_DST_MAC := None;
  Attrs.SP_GNL_ATTR_IP_VERSION_TYPE := None;
  Attrs.SP_GNL_ATTR_SRC_IPV4_ADDR := None;
  Attrs.SP_GNL_ATTR_SRC_IPV4_ADDR_MASK := None;
  Attrs.SP_GNL_ATTR_DST_IPV4_ADDR := dip;
  Attrs.SP_GNL_ATTR_DST_IPV4_ADDR_MASK := dmask;
  Attrs.SP_GNL_ATTR_SRC_IPV6_ADDR := None;
  Attrs.SP_GNL_ATTR_SRC_IPV6_ADDR_MASK := None;
  Attrs.SP_GNL_ATTR_DST_IPV6_ADDR := None;
  Attrs.SP_GNL_ATTR_DST_IPV6_ADDR_MASK := None;
  Attrs.SP_GNL_ATTR_PROTOCOL_NUMBER := None;
  Attrs.SP_GNL_ATTR_VLAN_ID := None;
  Attrs.SP_GNL_ATTR_DSCP := None;
  Attrs.SP_GNL_ATTR_DSCP_REMARK := None;
  Attrs.SP_GNL_ATTR_VLAN_PCP := None;
  Attrs.SP_GNL_ATTR_VLAN_PCP_REMARK := None;
  Attrs.SP_GNL_ATTR_MATCH_PATTERN_VALUE := None;
  Attrs.SP_GNL_ATTR_MATCH_PATTERN_MASK := None;
  Attrs.SP_GNL_ATTR_IFINDEX := None;
  Attrs.SP_GNL_ATTR_TID_BITMAP := None;
  Attrs.SP_GNL_ATTR_PRIORITY_LIMIT := None;
  Attrs.SP_GNL_ATTR_SRC_PORT_RANGE_START := range_start;
  Attrs.SP_GNL_ATTR_SRC_PORT_RANGE_END := None;
  Attrs.SP_GNL_ATTR_DST_PORT_RANGE_START := None;
  Attrs.SP_GNL_ATTR_DST_PORT_RANGE_END := None;
  Attrs.SP_GNL_ATTR_CLASSIFIER_TYPE := ty
|}.

(** * Properties *)

(** ** Lists of nodes *)

Lemma NoDup_fmap_eq {A B} (f : A → B) (l : list A) x y :
  NoDup (f <$> l) → x ∈ l → y ∈ l → f x = f y → x = y.
Proof.
  intros Hnd (i & Hi)%list_elem_of_lookup_1 (j & Hj)%list_elem_of_lookup_1 Heq.
  assert (i = j) as ->; [|congruence].
  eapply NoDup_lookup; [exact Hnd| |]; rewrite list_lookup_fmap.
  - by rewrite Hi.
  - rewrite Hj. simpl. by rewrite Heq.
Qed.

Section NodeLists.
Implicit Types (l : list sp_mapdb_rule_node) (pm : list (list sp_mapdb_rule_node)).

Lemma join_alter_cons pm (x : sp_mapdb_rule_node) i :
  (i < length pm)%nat → mjoin (alter (cons x) i pm) ≡ₚ x :: mjoin pm.
Proof.
  revert i. induction pm as [|b pm IH]; intros [|i] Hi; simpl in *; try lia.
  - done.
  - change (list_alter (cons x) i pm) with (alter (cons x) i pm).
    rewrite IH by lia. by rewrite Permutation_middle.
Qed.

Lemma join_fmap_filter (P : sp_mapdb_rule_node → Prop) `{!∀ x, Decision (P x)} pm :
  mjoin (filter P <$> pm) = filter P (mjoin pm).
Proof. induction pm as [|b pm IH]; csimpl; [done|]. by rewrite filter_app, IH. Qed.

Lemma join_fmap_fmap (f : sp_mapdb_rule_node → sp_mapdb_rule_node) pm :
  mjoin (fmap (M:=list) f <$> pm) = f <$> mjoin pm.
Proof. induction pm as [|b pm IH]; csimpl; [done|]. by rewrite fmap_app, IH. Qed.

Lemma join_fmap_nil pm : mjoin ((fun _ => []) <$> pm) = @nil sp_mapdb_rule_node.
Proof. induction pm; csimpl; auto. Qed.

Lemma join_replicate_nil n : mjoin (replicate n []) = @nil sp_mapdb_rule_node.
Proof. induction n; simpl; auto. Qed.

(** Among nodes with distinct addresses, replacing by address is replacing
    at the position of the node. *)
Lemma fmap_replace_insert l i cur new :
  NoDup (node_addr <$> l) → l !! i = Some cur →
  (fun n => if decide (node_addr n = node_addr cur) then new else n) <$> l
  = <[i := new]> l.
Proof.
  revert i. induction l as [|y l IH]; intros i Hnd Hi; [done|].
  rewrite fmap_cons in Hnd. apply NoDup_cons in Hnd as [Hy Hnd].
  destruct i as [|i]; csimpl in *.
  - simplify_eq. rewrite decide_True by done. f_equal.
    rewrite <-(list_fmap_id l) at 2. apply list_fmap_ext. intros j n Hn.
    rewrite decide_False; [done|]. intros Heq. apply Hy. rewrite <-Heq.
    apply list_elem_of_fmap_2. by eapply list_elem_of_lookup_2.
  - rewrite decide_False.
    + f_equal. by apply IH.
    + intros Heq. apply Hy. rewrite Heq.
      apply list_elem_of_fmap_2. by eapply list_elem_of_lookup_2.
Qed.

(** Likewise, unlinking by address is deleting at the position. *)
Lemma filter_addr_delete l i cur :
  NoDup (node_addr <$> l) → l !! i = Some cur →
  filter (fun n => node_addr n ≠ node_addr cur) l = delete i l.
Proof.
  revert i. induction l as [|y l IH]; intros i Hnd Hi; [done|].
  rewrite fmap_cons in Hnd. apply NoDup_cons in Hnd as [Hy Hnd].
  destruct i as [|i]; csimpl in *.
  - simplify_eq. rewrite filter_cons_False by (intros Hn; by apply Hn).
    clear IH. induction l as [|z l IHl]; [done|].
    rewrite fmap_cons, not_elem_of_cons in Hy. destruct Hy as [Hz Hy].
    rewrite fmap_cons in Hnd. apply NoDup_cons in Hnd as [_ Hnd].
    rewrite filter_cons_True by congruence. f_equal. by apply IHl.
  - rewrite filter_cons_True.
    + f_equal. by apply IH.
    + intros Heq. apply Hy. rewrite Heq.
      apply list_elem_of_fmap_2. by eapply list_elem_of_lookup_2.
Qed.

Lemma insert_Permutation_delete l i cur new :
  l !! i = Some cur → <[i := new]> l ≡ₚ new :: delete i l.
Proof.
  intros Hi. assert (Hlt : (i < length l)%nat) by (by eapply lookup_lt_Some).
  rewrite (delete_Permutation (<[i := new]> l) i new)
    by (by apply list_lookup_insert_eq).
  f_equiv. rewrite !delete_take_drop.
  rewrite take_insert_ge by lia. rewrite drop_insert_lt by lia. done.
Qed.

End NodeLists.

(** ** The invariant of the rule table *)

Section BucketFacts.
Implicit Types (l : list sp_mapdb_rule_node) (pm : list (list sp_mapdb_rule_node)).

Lemma elem_of_bucket_join pm i n : n ∈ bucket pm i → n ∈ mjoin pm.
Proof.
  unfold bucket. destruct (pm !! i) as [b|] eqn:Hb; simpl; [|by intros ?%not_elem_of_nil].
  intros Hn. apply list_elem_of_join. exists b. split; [done|].
  by eapply list_elem_of_lookup_2.
Qed.

Lemma elem_of_join_bucket pm n : n ∈ mjoin pm → ∃ i, (i < length pm)%nat ∧ n ∈ bucket pm i.
Proof.
  intros (b & Hn & Hb)%list_elem_of_join.
  apply list_elem_of_lookup_1 in Hb as [i Hi]. exists i. split.
  - by eapply lookup_lt_Some.
  - unfold bucket. by rewrite Hi.
Qed.

Lemma bucket_list_add_rcu pm new p i :
  (Z.to_nat p < length pm)%nat →
  bucket (list_add_rcu new p pm) i
  = if decide (i = Z.to_nat p) then new :: bucket pm i else bucket pm i.
Proof.
  intros Hp. unfold bucket, list_add_rcu. case_decide as Hi.
  - subst i. rewrite list_lookup_alter_eq.
    destruct (lookup_lt_is_Some_2 pm _ Hp) as [b Hb]. by rewrite Hb.
  - by rewrite list_lookup_alter_ne.
Qed.

Lemma bucket_list_del_rcu pm a i :
  bucket (list_del_rcu a pm) i = filter (fun n => node_addr n ≠ a) (bucket pm i).
Proof.
  unfold bucket, list_del_rcu. rewrite list_lookup_fmap.
  by destruct (pm !! i).
Qed.

Lemma bucket_list_replace_rcu pm a new i :
  bucket (list_replace_rcu a new pm) i
  = (fun n => if decide (node_addr n = a) then new else n) <$> bucket pm i.
Proof.
  unfold bucket, list_replace_rcu. rewrite list_lookup_fmap.
  by destruct (pm !! i).
Qed.

End BucketFacts.

Lemma hashentry_matches_key ruleid rule_type n :
  hashentry_matches ruleid rule_type n = true ↔ node_key n = (ruleid, rule_type).
Proof.
  unfold hashentry_matches, node_key. rewrite andb_true_iff, !Z.eqb_eq.
  split; [intros [-> ->]; done | by intros [= -> ->]].
Qed.

Lemma search_hashentry_None st ruleid rule_type :
  sp_mapdb_search_hashentry st ruleid rule_type = None
  ↔ (ruleid, rule_type) ∉ node_key <$> rule_id_hashmap st.
Proof.
  unfold sp_mapdb_search_hashentry. rewrite list_find_None, Forall_forall. split.
  - intros Hno (n & Hk & Hn)%list_elem_of_fmap. apply (Hno n Hn).
    by apply hashentry_matches_key.
  - intros Hno n Hn Hm. apply Hno. apply list_elem_of_fmap. exists n.
    split; [|done]. symmetry. by apply hashentry_matches_key.
Qed.

Lemma search_hashentry_Some st ruleid rule_type i cur :
  sp_mapdb_search_hashentry st ruleid rule_type = Some (i, cur) →
  rule_id_hashmap st !! i = Some cur ∧ node_key cur = (ruleid, rule_type).
Proof.
  unfold sp_mapdb_search_hashentry. intros (Hi & Hm & _)%list_find_Some.
  split; [done|]. by apply hashentry_matches_key.
Qed.

Lemma store_inv_init : store_inv sp_mapdb_rules_init.
Proof.
  split; unfold live_rules, sp_mapdb_rules_init;
    cbn [prec_map rule_id_hashmap rule_count single_writer next_node].
  - by rewrite length_replicate.
  - intros i n. unfold bucket.
    destruct (replicate _ _ !! i) as [b|] eqn:Hb; cbn [default].
    + apply lookup_replicate in Hb as [-> _]. by intros ?%not_elem_of_nil.
    + by intros ?%not_elem_of_nil.
  - by rewrite join_replicate_nil.
  - constructor.
  - by intros n ?%not_elem_of_nil.
  - constructor.
  - done.
Qed.

Lemma store_inv_set_single_writer st b :
  store_inv st → store_inv (set_single_writer st b).
Proof. intros []. by split. Qed.

Section Preservation.
Context `{H : sp_header}.

Lemma stored_precedence_range (r : sp_rule) (rule_type : Z) :
  rule_well_typed r →
  0 <= rule_precedence
         (if rule_precedence r =? SP_MAPDB_RULE_MAX_PRECEDENCENUM
          then set_rule_precedence (set_classifier_type r rule_type) 0
          else set_classifier_type r rule_type) < 255.
Proof.
  unfold rule_well_typed, SP_MAPDB_RULE_MAX_PRECEDENCENUM.
  destruct (Z.eqb_spec (rule_precedence r) 255); simpl; lia.
Qed.

Lemma stored_key (r : sp_rule) (rule_type : Z) a :
  node_key {| node_addr := a;
              rule := if rule_precedence r =? SP_MAPDB_RULE_MAX_PRECEDENCENUM
                      then set_rule_precedence (set_classifier_type r rule_type) 0
                      else set_classifier_type r rule_type |}
  = (id r, rule_type).
Proof. unfold node_key. by destruct (_ =? _). Qed.

Lemma store_inv_add st r rule_type alloc_node alloc_hash :
  rule_well_typed r → store_inv st →
  store_inv (snd (sp_mapdb_rule_add st r rule_type alloc_node alloc_hash)).
Proof.
  intros Hr Hinv. unfold sp_mapdb_rule_add.
  destruct (rule_count st =? SP_MAPDB_RULE_MAX); [done|].
  destruct (rule_output (inner r) >=? SP_MAPDB_NO_MATCH); [done|].
  destruct alloc_node; [|done]. cbn [negb].
  pose proof (stored_precedence_range r rule_type Hr) as Hp.
  pose proof (stored_key r rule_type (next_node st)) as Hk.
  set (stored := if rule_precedence r =? SP_MAPDB_RULE_MAX_PRECEDENCENUM
                 then set_rule_precedence (set_classifier_type r rule_type) 0
                 else set_classifier_type r rule_type) in *.
  set (new := {| node_addr := next_node st; rule := stored |}) in *.
  destruct Hinv as [Hlen Hprec Hidx Haddr Hfresh Hkeys Hcnt].
  assert (Hpl : (Z.to_nat (rule_precedence stored) < length (prec_map st))%nat).
  { rewrite Hlen. unfold SP_MAPDB_RULE_MAX_PRECEDENCENUM. lia. }
  assert (Hnew : node_addr new ∉ node_addr <$> rule_id_hashmap st).
  { intros (n & Hn & Hin)%list_elem_of_fmap. apply Hfresh in Hin.
    cbn [node_addr new] in Hn. lia. }
  destruct (sp_mapdb_search_hashentry st (id r) rule_type) as [[i cur]|] eqn:Hs.
  - apply search_hashentry_Some in Hs as [Hi Hkc].
    assert (Hcur : cur ∈ rule_id_hashmap st) by (by eapply list_elem_of_lookup_2).
    assert (Hilt : (i < length (rule_id_hashmap st))%nat) by (by eapply lookup_lt_Some).
    assert (Haddr' : NoDup (node_addr <$> <[i:=new]> (rule_id_hashmap st))).
    { rewrite (insert_Permutation_delete _ _ cur) by done.
      rewrite fmap_cons. apply NoDup_cons. split.
      - intros Hin. apply Hnew. revert Hin. apply sublist_subseteq.
        apply fmap_sublist, sublist_delete.
      - eapply sublist_NoDup; [exact Haddr | apply fmap_sublist, sublist_delete]. }
    assert (Hfresh' : ∀ n, n ∈ <[i:=new]> (rule_id_hashmap st) →
                           (node_addr n < S (next_node st))%nat).
    { intros n Hn. rewrite (insert_Permutation_delete _ _ cur) in Hn by done.
      apply elem_of_cons in Hn as [->|Hn]; [cbn; lia|].
      apply (sublist_subseteq _ _ (sublist_delete _ i)) in Hn.
      apply Hfresh in Hn. lia. }
    assert (Hkeys' : NoDup (node_key <$> <[i:=new]> (rule_id_hashmap st))).
    { rewrite list_fmap_insert, Hk, <-Hkc.
      rewrite list_insert_id; [done|]. by rewrite list_lookup_fmap, Hi. }
    destruct (rule_precedence (rule cur) =? rule_precedence stored) eqn:Hsame;
      cbn [snd]; split;
      cbn [prec_map rule_id_hashmap rule_count single_writer next_node live_rules];
      unfold live_rules;
      cbn [prec_map rule_id_hashmap rule_count single_writer next_node];
      try done.
    + unfold list_replace_rcu. by rewrite !length_fmap.
    + intros j n. rewrite bucket_list_replace_rcu.
      intros (x & -> & Hx)%list_elem_of_fmap. case_decide as Hax.
      * assert (x = cur) as ->.
        { eapply (NoDup_fmap_eq node_addr (rule_id_hashmap st)); [done| |done..].
          rewrite Hidx. by eapply elem_of_bucket_join. }
        apply Hprec in Hx. apply Z.eqb_eq in Hsame. cbn [rule new]. lia.
      * by apply Hprec.
    + unfold list_replace_rcu. rewrite join_fmap_fmap.
      rewrite <-(fmap_replace_insert _ i cur new) by done. by rewrite Hidx.
    + by rewrite length_insert.
    + unfold list_add_rcu, list_del_rcu. by rewrite length_alter, length_fmap.
    + intros j n. rewrite bucket_list_add_rcu
        by (unfold list_del_rcu; by rewrite length_fmap).
      rewrite bucket_list_del_rcu. case_decide as Hj.
      * intros [->|Hn]%elem_of_cons; [cbn [rule new]; lia|].
        apply list_elem_of_filter in Hn as [_ Hn]. by apply Hprec.
      * intros [_ Hn]%list_elem_of_filter. by apply Hprec.
    + unfold list_add_rcu.
      rewrite join_alter_cons by (unfold list_del_rcu; by rewrite length_fmap).
      unfold list_del_rcu. rewrite join_fmap_filter.
      rewrite (insert_Permutation_delete _ _ cur) by done. f_equiv.
      rewrite <-(filter_addr_delete _ i cur) by done. by rewrite Hidx.
    + by rewrite length_insert.
  - destruct alloc_hash; [|done]. cbn [negb snd].
    apply search_hashentry_None in Hs.
    split; unfold live_rules;
      cbn [prec_map rule_id_hashmap rule_count single_writer next_node].
    + unfold list_add_rcu. by rewrite length_alter.
    + intros j n. rewrite bucket_list_add_rcu by done. case_decide as Hj.
      * intros [->|Hn]%elem_of_cons; [cbn [rule new]; lia|]. by apply Hprec.
      * by apply Hprec.
    + unfold list_add_rcu. rewrite join_alter_cons by done. by f_equiv.
    + rewrite fmap_cons. by apply NoDup_cons.
    + intros n [->|Hn]%elem_of_cons; [cbn; lia|]. apply Hfresh in Hn. lia.
    + rewrite fmap_cons, Hk. by apply NoDup_cons.
    + cbn [length]. lia.
Qed.

Lemma store_inv_delete st ruleid rule_type :
  store_inv st → store_inv (snd (sp_mapdb_rule_delete st ruleid rule_type)).
Proof.
  intros Hinv. unfold sp_mapdb_rule_delete.
  destruct (rule_count st =? 0); [done|].
  destruct (sp_mapdb_search_hashentry st ruleid rule_type) as [[i cur]|] eqn:Hs;
    [|done].
  apply search_hashentry_Some in Hs as [Hi Hkc].
  destruct Hinv as [Hlen Hprec Hidx Haddr Hfresh Hkeys Hcnt].
  cbn [snd]. split; unfold live_rules;
    cbn [prec_map rule_id_hashmap rule_count single_writer next_node].
  - unfold list_del_rcu. by rewrite length_fmap.
  - intros j n. rewrite bucket_list_del_rcu.
    intros [_ Hn]%list_elem_of_filter. by apply Hprec.
  - unfold list_del_rcu. rewrite join_fmap_filter.
    rewrite <-(filter_addr_delete _ i cur) by done. by rewrite Hidx.
  - eapply sublist_NoDup; [exact Haddr | apply fmap_sublist, sublist_delete].
  - intros n Hn. apply Hfresh. revert Hn. apply sublist_subseteq, sublist_delete.
  - eapply sublist_NoDup; [exact Hkeys | apply fmap_sublist, sublist_delete].
  - rewrite length_delete by eauto. apply lookup_lt_Some in Hi. lia.
Qed.

Lemma store_inv_flush st :
  store_inv st → store_inv (sp_mapdb_ruletable_flush st).
Proof.
  intros Hinv. unfold sp_mapdb_ruletable_flush.
  destruct (rule_count st =? 0); [done|].
  destruct Hinv as [Hlen Hprec Hidx Haddr Hfresh Hkeys Hcnt].
  split; unfold live_rules;
    cbn [prec_map rule_id_hashmap rule_count single_writer next_node].
  - by rewrite length_fmap.
  - intros j n. unfold bucket. rewrite list_lookup_fmap.
    destruct (prec_map st !! j); by intros ?%not_elem_of_nil.
  - by rewrite join_fmap_nil.
  - constructor.
  - by intros n ?%not_elem_of_nil.
  - constructor.
  - done.
Qed.

Lemma table_inv_init : table_inv sp_mapdb_rules_init.
Proof. split; [apply store_inv_init | done]. Qed.

Lemma table_inv_update st newrule alloc_node alloc_hash :
  match newrule with Some r => rule_well_typed r | None => True end →
  table_inv st →
  table_inv (snd (sp_mapdb_rule_update st newrule alloc_node alloc_hash)).
Proof.
  intros Hr [Hinv Hw]. unfold sp_mapdb_rule_update.
  destruct newrule as [r|]; [|by split]. rewrite Hw.
  pose proof (store_inv_set_single_writer st true Hinv) as Hlocked.
  destruct (cmd r =? SP_MAPDB_ADD_REMOVE_FILTER_DELETE).
  - pose proof (store_inv_delete _ (id r) (classifier_type r) Hlocked) as Hd.
    destruct (sp_mapdb_rule_delete _ _ _) as [code st']. cbn [snd] in *.
    split; [by apply store_inv_set_single_writer | done].
  - destruct (cmd r =? SP_MAPDB_ADD_REMOVE_FILTER_ADD).
    + pose proof (store_inv_add _ r (classifier_type r) alloc_node alloc_hash
                    Hr Hlocked) as Ha.
      destruct (sp_mapdb_rule_add _ _ _ _ _) as [code st']. cbn [snd] in *.
      split; [by apply store_inv_set_single_writer | done].
    + cbn [snd]. split; [by apply store_inv_set_single_writer | done].
Qed.

Lemma table_inv_step st op :
  op_well_typed op → table_inv st → table_inv (sp_mapdb_step st op).
Proof.
  destruct op as [newrule a b|]; cbn [sp_mapdb_step op_well_typed]; intros Hop Hinv.
  - apply table_inv_update; [|done]. by destruct newrule.
  - destruct Hinv as [Hinv Hw]. split; [by apply store_inv_flush|].
    unfold sp_mapdb_ruletable_flush. by destruct (rule_count st =? 0).
Qed.

Lemma fold_step_inv (P : sp_mapdb_state → Prop) ops st :
  (∀ st op, op_well_typed op → P st → P (sp_mapdb_step st op)) →
  Forall op_well_typed ops → P st → P (fold_left sp_mapdb_step ops st).
Proof.
  intros Hstep Hops. revert st.
  induction Hops as [|op ops Hop _ IH]; intros st Hst; [done|].
  cbn [fold_left]. apply IH. by apply Hstep.
Qed.

(** Every table the updater can produce satisfies the invariant. *)
Lemma table_inv_run ops :
  Forall op_well_typed ops → table_inv (sp_mapdb_run ops).
Proof.
  intros Hops. unfold sp_mapdb_run.
  apply (fold_step_inv table_inv); [apply table_inv_step | done | apply table_inv_init].
Qed.

Lemma count_bounded_step st op :
  op_well_typed op → table_inv st ∧ count_bounded st →
  table_inv (sp_mapdb_step st op) ∧ count_bounded (sp_mapdb_step st op).
Proof.
  intros Hop [Hinv Hb]. split; [by apply table_inv_step|].
  pose proof (table_inv_step st op Hop Hinv) as [[_ _ _ _ _ _ Hcnt'] _].
  unfold count_bounded in *. split; [lia|]. clear Hcnt'.
  destruct op as [[r|] a b|];
    cbn [sp_mapdb_step sp_mapdb_rule_update snd]; [| lia |].
  - destruct Hinv as [_ ->].
    destruct (cmd r =? SP_MAPDB_ADD_REMOVE_FILTER_DELETE).
    + unfold sp_mapdb_rule_delete. cbn [set_single_writer rule_count].
      destruct (rule_count st =? 0); [cbn; lia|].
      destruct (sp_mapdb_search_hashentry _ _ _) as [[i cur]|]; cbn; lia.
    + destruct (cmd r =? SP_MAPDB_ADD_REMOVE_FILTER_ADD); [|cbn; lia].
      unfold sp_mapdb_rule_add. cbn [set_single_writer rule_count].
      destruct (Z.eqb_spec (rule_count st) SP_MAPDB_RULE_MAX); [cbn; lia|].
      destruct (_ >=? _); [cbn; lia|].
      destruct a; [|cbn; lia]. cbn [negb].
      destruct (sp_mapdb_search_hashentry _ _ _) as [[i cur]|].
      * destruct (_ =? _); cbn; lia.
      * destruct b; cbn; lia.
  - unfold sp_mapdb_ruletable_flush. destruct (rule_count st =? 0); cbn; lia.
Qed.

Lemma count_bounded_run ops :
  0 <= SP_MAPDB_RULE_MAX → Forall op_well_typed ops →
  count_bounded (sp_mapdb_run ops).
Proof.
  intros Hmax Hops. unfold sp_mapdb_run.
  apply (fold_step_inv (fun st => table_inv st ∧ count_bounded st));
    [apply count_bounded_step | done |].
  split; [apply table_inv_init|]. unfold count_bounded. cbn. lia.
Qed.

End Preservation.

(** ** The rule count (claim C2) *)

Lemma remove_dups_NoDup_id `{EqDecision A} (l : list A) :
  NoDup l → remove_dups l = l.
Proof.
  induction 1 as [|x l Hx _ IH]; simpl; [done|].
  destruct (decide_rel elem_of x l); [done|]. by rewrite IH.
Qed.

Lemma table_inv_live_keys st :
  table_inv st →
  NoDup (node_key <$> live_rules st)
  ∧ rule_count st = Z.of_nat (length (live_rules st)).
Proof.
  intros [[_ _ Hidx _ _ Hkeys Hcnt] _]. split.
  - by rewrite <-Hidx.
  - by rewrite <-Hidx.
Qed.

(** C2.  From the initialised empty table, after each operation of every
    sequence of updates (add, modify, delete) and flushes: the rule count is
    the number of distinct (id, rule type) pairs that are live in the table,
    no two live rules have the same (id, rule type), and the count does not
    exceed [SP_MAPDB_RULE_MAX].  The requests are well typed
    ([rule_precedence] is a [uint8_t]) and the bound is not negative. *)
Theorem rule_count_invariant `{H : sp_header} (ops : list sp_mapdb_op) (n : nat) :
  0 <= SP_MAPDB_RULE_MAX →
  Forall op_well_typed ops →
  rule_count (sp_mapdb_run (take n ops))
  = Z.of_nat (length (remove_dups (node_key <$> live_rules (sp_mapdb_run (take n ops)))))
  ∧ NoDup (node_key <$> live_rules (sp_mapdb_run (take n ops)))
  ∧ rule_count (sp_mapdb_run (take n ops)) <= SP_MAPDB_RULE_MAX.
Proof.
  intros Hmax Hops.
  assert (Hpre : Forall op_well_typed (take n ops)) by (by apply Forall_take).
  destruct (table_inv_live_keys _ (table_inv_run _ Hpre)) as [Hnd Hcnt].
  pose proof (count_bounded_run _ Hmax Hpre) as [_ Hle].
  split_and!; [|done..].
  rewrite remove_dups_NoDup_id by done. by rewrite length_fmap.
Qed.

Lemma rule_count_invariant_witness :
  rule_count (sp_mapdb_run (H := sp_header_example 3) (take 6 ops_example))
  = Z.of_nat (length (remove_dups
      (node_key <$> live_rules
         (sp_mapdb_run (H := sp_header_example 3) (take 6 ops_example)))))
  ∧ NoDup (node_key <$> live_rules
             (sp_mapdb_run (H := sp_header_example 3) (take 6 ops_example)))
  ∧ rule_count (sp_mapdb_run (H := sp_header_example 3) (take 6 ops_example)) <= 3.
Proof.
  apply (rule_count_invariant (H := sp_header_example 3) ops_example 6).
  - cbn. lia.
  - repeat constructor; cbn; lia.
Defined.

(** ** The updater's replies (claims C7, C8, C10) *)

Lemma set_single_writer_unlock st :
  single_writer st = false → set_single_writer (set_single_writer st true) false = st.
Proof. destruct st as [pm hm c w nx]. cbn. by intros ->. Qed.

(** In a table that satisfies the invariant a key is linked at most once, and
    only in the bucket of its precedence. *)
Lemma live_key_unique st i j n1 n2 :
  store_inv st → n1 ∈ bucket (prec_map st) i → n2 ∈ bucket (prec_map st) j →
  node_key n1 = node_key n2 → n1 = n2 ∧ i = j.
Proof.
  intros [_ Hprec Hidx _ _ Hkeys _] H1 H2 Hk.
  assert (n1 = n2) as ->.
  { eapply (NoDup_fmap_eq node_key (rule_id_hashmap st)); [done| | |done];
      rewrite Hidx; by eapply elem_of_bucket_join. }
  split; [done|]. apply Hprec in H1, H2. lia.
Qed.

Section UpdaterReplies.
Context `{H : sp_header}.

Lemma update_delete st r alloc_node alloc_hash :
  single_writer st = false → cmd r = SP_MAPDB_ADD_REMOVE_FILTER_DELETE →
  sp_mapdb_rule_update st (Some r) alloc_node alloc_hash
  = (fst (sp_mapdb_rule_delete (set_single_writer st true) (id r) (classifier_type r)),
     set_single_writer
       (snd (sp_mapdb_rule_delete (set_single_writer st true) (id r) (classifier_type r)))
       false).
Proof.
  intros Hw Hc. unfold sp_mapdb_rule_update. rewrite Hw, Hc, Z.eqb_refl.
  by destruct (sp_mapdb_rule_delete _ _ _).
Qed.

Lemma update_add st r alloc_node alloc_hash :
  single_writer st = false → cmd r = SP_MAPDB_ADD_REMOVE_FILTER_ADD →
  SP_MAPDB_ADD_REMOVE_FILTER_DELETE ≠ SP_MAPDB_ADD_REMOVE_FILTER_ADD →
  sp_mapdb_rule_update st (Some r) alloc_node alloc_hash
  = (fst (sp_mapdb_rule_add (set_single_writer st true) r (classifier_type r)
            alloc_node alloc_hash),
     set_single_writer
       (snd (sp_mapdb_rule_add (set_single_writer st true) r (classifier_type r)
               alloc_node alloc_hash))
       false).
Proof.
  intros Hw Hc Hne. unfold sp_mapdb_rule_update. rewrite Hw, Hc, Z.eqb_refl.
  destruct (Z.eqb_spec SP_MAPDB_ADD_REMOVE_FILTER_ADD SP_MAPDB_ADD_REMOVE_FILTER_DELETE);
    [congruence|].
  by destruct (sp_mapdb_rule_add _ _ _ _ _).
Qed.

(** A delete request for a key that is not in the hash table. *)
Lemma delete_not_found st ruleid rule_type :
  sp_mapdb_search_hashentry st ruleid rule_type = None →
  sp_mapdb_rule_delete st ruleid rule_type
  = (if rule_count st =? 0 then SP_MAPDB_UPDATE_RESULT_ERR_TBLEMPTY
     else SP_MAPDB_UPDATE_RESULT_ERR_RULENOEXIST, st).
Proof.
  intros Hs. unfold sp_mapdb_rule_delete. rewrite Hs. by destruct (_ =? _).
Qed.

(** An accepted add request leaves its node in the bucket of the stored
    precedence. *)
Lemma add_accepted st newrule rule_type :
  store_inv st → rule_well_typed newrule →
  rule_count st ≠ SP_MAPDB_RULE_MAX →
  rule_output (inner newrule) < SP_MAPDB_NO_MATCH →
  ∃ code st',
    sp_mapdb_rule_add st newrule rule_type true true = (code, st')
    ∧ (code = SP_MAPDB_UPDATE_RESULT_SUCCESS_ADD
       ∨ code = SP_MAPDB_UPDATE_RESULT_SUCCESS_MODIFY)
    ∧ {| node_addr := next_node st; rule := stored_rule newrule rule_type |}
      ∈ bucket (prec_map st')
          (Z.to_nat (rule_precedence (stored_rule newrule rule_type))).
Proof.
  intros Hinv Hr Hfull Hout. unfold sp_mapdb_rule_add.
  destruct (Z.eqb_spec (rule_count st) SP_MAPDB_RULE_MAX); [done|].
  destruct (Z.geb_spec (rule_output (inner newrule)) SP_MAPDB_NO_MATCH); [lia|].
  cbn [negb]. fold (stored_rule newrule rule_type).
  pose proof (stored_precedence_range newrule rule_type Hr) as Hp.
  fold (stored_rule newrule rule_type) in Hp.
  set (new := {| node_addr := next_node st; rule := stored_rule newrule rule_type |}).
  destruct Hinv as [Hlen Hprec Hidx Haddr Hfresh Hkeys Hcnt].
  assert (Hpl : (Z.to_nat (rule_precedence (stored_rule newrule rule_type))
                 < length (prec_map st))%nat).
  { rewrite Hlen. unfold SP_MAPDB_RULE_MAX_PRECEDENCENUM. lia. }
  destruct (sp_mapdb_search_hashentry st (id newrule) rule_type) as [[i cur]|] eqn:Hs.
  - apply search_hashentry_Some in Hs as [Hi Hkc].
    destruct (Z.eqb_spec (rule_precedence (rule cur))
                (rule_precedence (stored_rule newrule rule_type))) as [Hsame|Hdiff].
    + eexists _, _. split; [done|]. split; [by right|]. cbn [prec_map].
      rewrite bucket_list_replace_rcu. apply list_elem_of_fmap. exists cur.
      rewrite decide_True by done. split; [done|].
      assert (Hcur : cur ∈ mjoin (prec_map st)).
      { unfold live_rules in Hidx. rewrite <-Hidx. by eapply list_elem_of_lookup_2. }
      apply elem_of_join_bucket in Hcur as (j & _ & Hj).
      pose proof (Hprec _ _ Hj) as Hpj.
      replace (Z.to_nat _) with j by lia. done.
    + eexists _, _. split; [done|]. split; [by right|]. cbn [prec_map].
      rewrite bucket_list_add_rcu by (unfold list_del_rcu; by rewrite length_fmap).
      rewrite decide_True by done. apply elem_of_cons. by left.
  - eexists _, _. split; [done|]. split; [by left|]. cbn [prec_map].
    rewrite bucket_list_add_rcu by done.
    rewrite decide_True by done. apply elem_of_cons. by left.
Qed.

End UpdaterReplies.

(** C7.  In every table the updater can produce, deleting an (id, rule type)
    that is not live returns rule-not-found, or table-empty when no rule is
    live at all, and leaves the table -- its buckets, its hash table and its
    count -- as it was.  This holds of sp_mapdb_rule_delete() and of a delete
    request through sp_mapdb_rule_update(). *)
Theorem delete_absent_rule `{H : sp_header} (ops : list sp_mapdb_op)
    (ruleid rule_type : Z) :
  Forall op_well_typed ops →
  (ruleid, rule_type) ∉ node_key <$> live_rules (sp_mapdb_run ops) →
  sp_mapdb_rule_delete (sp_mapdb_run ops) ruleid rule_type
  = (if decide (live_rules (sp_mapdb_run ops) = [])
     then SP_MAPDB_UPDATE_RESULT_ERR_TBLEMPTY
     else SP_MAPDB_UPDATE_RESULT_ERR_RULENOEXIST,
     sp_mapdb_run ops)
  ∧ ∀ r alloc_node alloc_hash,
      cmd r = SP_MAPDB_ADD_REMOVE_FILTER_DELETE →
      id r = ruleid → classifier_type r = rule_type →
      sp_mapdb_rule_update (sp_mapdb_run ops) (Some r) alloc_node alloc_hash
      = (if decide (live_rules (sp_mapdb_run ops) = [])
         then SP_MAPDB_UPDATE_RESULT_ERR_TBLEMPTY
         else SP_MAPDB_UPDATE_RESULT_ERR_RULENOEXIST,
         sp_mapdb_run ops).
Proof.
  intros Hops Habs. set (st := sp_mapdb_run ops) in *.
  pose proof (table_inv_run ops Hops) as [Hinv Hw]. fold st in Hinv, Hw.
  assert (Hs : sp_mapdb_search_hashentry st ruleid rule_type = None).
  { apply search_hashentry_None. by rewrite (inv_index _ Hinv). }
  assert (Hcode : (if rule_count st =? 0 then SP_MAPDB_UPDATE_RESULT_ERR_TBLEMPTY
                   else SP_MAPDB_UPDATE_RESULT_ERR_RULENOEXIST)
                  = if decide (live_rules st = [])
                    then SP_MAPDB_UPDATE_RESULT_ERR_TBLEMPTY
                    else SP_MAPDB_UPDATE_RESULT_ERR_RULENOEXIST).
  { rewrite (inv_count _ Hinv), (inv_index _ Hinv).
    destruct (live_rules st) as [|n l]; cbn [length].
    - by rewrite decide_True.
    - rewrite decide_False by done. by destruct (Z.eqb_spec (Z.of_nat (S (length l))) 0); [lia|]. }
  split.
  - by rewrite delete_not_found, Hcode.
  - intros r a b Hc <- <-. rewrite update_delete by done.
    rewrite delete_not_found by done. cbn [fst snd set_single_writer rule_count].
    rewrite Hcode. f_equal. by apply set_single_writer_unlock.
Qed.

Lemma delete_absent_rule_witness :
  sp_mapdb_rule_delete
    (sp_mapdb_run (H := sp_header_example 3) (take 2 ops_example)) 5 0
  = (SP_MAPDB_UPDATE_RESULT_ERR_RULENOEXIST,
     sp_mapdb_run (H := sp_header_example 3) (take 2 ops_example))
  ∧ sp_mapdb_rule_delete
      (sp_mapdb_run (H := sp_header_example 3) []) 5 0
    = (SP_MAPDB_UPDATE_RESULT_ERR_TBLEMPTY, sp_mapdb_run (H := sp_header_example 3) []).
Proof.
  split.
  - refine (proj1 (delete_absent_rule (H := sp_header_example 3)
                     (take 2 ops_example) 5 0 _ _)).
    + repeat constructor; cbn; lia.
    + vm_compute. intros Hin. repeat (inversion Hin as [|? ? ? Hin']; subst; clear Hin;
                                      try rename Hin' into Hin).
  - refine (proj1 (delete_absent_rule (H := sp_header_example 3) [] 5 0 _ _)).
    + constructor.
    + vm_compute. intros Hin. inversion Hin.
Defined.

(** C10.  When the rule count equals [SP_MAPDB_RULE_MAX], every add request is
    rejected with table-full and the table is unchanged; the test comes before
    the lookup of the key, so this includes a request for a key that is live
    (which would otherwise be a modification).  This holds of
    sp_mapdb_rule_add() in every state and of an add request through
    sp_mapdb_rule_update(). *)
Theorem add_rejected_when_full `{H : sp_header} (st : sp_mapdb_state)
    (newrule : sp_rule) (rule_type : Z) (alloc_node alloc_hash : bool) :
  rule_count st = SP_MAPDB_RULE_MAX →
  sp_mapdb_rule_add st newrule rule_type alloc_node alloc_hash
  = (SP_MAPDB_UPDATE_RESULT_ERR_TBLFULL, st)
  ∧ (single_writer st = false →
     cmd newrule = SP_MAPDB_ADD_REMOVE_FILTER_ADD →
     SP_MAPDB_ADD_REMOVE_FILTER_DELETE ≠ SP_MAPDB_ADD_REMOVE_FILTER_ADD →
     sp_mapdb_rule_update st (Some newrule) alloc_node alloc_hash
     = (SP_MAPDB_UPDATE_RESULT_ERR_TBLFULL, st)).
Proof.
  intros Hfull.
  assert (Hadd : ∀ st' ty, rule_count st' = SP_MAPDB_RULE_MAX →
            sp_mapdb_rule_add st' newrule ty alloc_node alloc_hash
            = (SP_MAPDB_UPDATE_RESULT_ERR_TBLFULL, st')).
  { intros st' ty Hc. unfold sp_mapdb_rule_add. by rewrite Hc, Z.eqb_refl. }
  split; [by apply Hadd|].
  intros Hw Hc Hne. rewrite update_add by done. rewrite Hadd by done.
  cbn [fst snd]. f_equal. by apply set_single_writer_unlock.
Qed.

(** The table is full after five requests of [ops_example] when the bound is
    3, and rule 1 of type 0 is live in it: the request to modify it is
    rejected. *)
Lemma add_rejected_when_full_witness :
  is_Some (sp_mapdb_search_hashentry
             (sp_mapdb_run (H := sp_header_example 3) (take 5 ops_example)) 1 0)
  ∧ sp_mapdb_rule_update (H := sp_header_example 3)
      (sp_mapdb_run (H := sp_header_example 3) (take 5 ops_example))
      (Some (mesh_rule 1 10 1 0 0 2)) true true
    = (SP_MAPDB_UPDATE_RESULT_ERR_TBLFULL,
       sp_mapdb_run (H := sp_header_example 3) (take 5 ops_example)).
Proof.
  split.
  - vm_compute. eauto.
  - refine (proj2 (add_rejected_when_full (H := sp_header_example 3)
                     (sp_mapdb_run (H := sp_header_example 3) (take 5 ops_example))
                     (mesh_rule 1 10 1 0 0 2) 0 true true _) _ _ _).
    + vm_compute. reflexivity.
    + vm_compute. reflexivity.
    + vm_compute. reflexivity.
    + vm_compute. lia.
Defined.

(** C8.  An add request whose precedence is the sentinel
    [SP_MAPDB_RULE_MAX_PRECEDENCENUM] is treated exactly as the same request
    with precedence 0: sp_mapdb_rule_add() gives the same reply and the same
    table in every state, and so does sp_mapdb_rule_update().  The table not
    being full, the output being valid and the allocations succeeding, the
    request is accepted; its rule is then stored with precedence 0 in bucket
    0, where any rule added with precedence 0 is stored, and its key is linked
    nowhere else. *)
Theorem add_max_precedence `{H : sp_header} (ops : list sp_mapdb_op)
    (newrule : sp_rule) (alloc_node alloc_hash : bool) :
  Forall op_well_typed ops →
  rule_precedence newrule = SP_MAPDB_RULE_MAX_PRECEDENCENUM →
  cmd newrule = SP_MAPDB_ADD_REMOVE_FILTER_ADD →
  SP_MAPDB_ADD_REMOVE_FILTER_DELETE ≠ SP_MAPDB_ADD_REMOVE_FILTER_ADD →
  (∀ st rule_type,
     sp_mapdb_rule_add st newrule rule_type alloc_node alloc_hash
     = sp_mapdb_rule_add st (set_rule_precedence newrule 0) rule_type
         alloc_node alloc_hash)
  ∧ sp_mapdb_rule_update (sp_mapdb_run ops) (Some newrule) alloc_node alloc_hash
    = sp_mapdb_rule_update (sp_mapdb_run ops) (Some (set_rule_precedence newrule 0))
        alloc_node alloc_hash
  ∧ (rule_count (sp_mapdb_run ops) ≠ SP_MAPDB_RULE_MAX →
     rule_output (inner newrule) < SP_MAPDB_NO_MATCH →
     alloc_node = true → alloc_hash = true →
     ∃ code st' node,
       sp_mapdb_rule_update (sp_mapdb_run ops) (Some newrule) alloc_node alloc_hash
       = (code, st')
       ∧ (code = SP_MAPDB_UPDATE_RESULT_SUCCESS_ADD
          ∨ code = SP_MAPDB_UPDATE_RESULT_SUCCESS_MODIFY)
       ∧ rule node = set_rule_precedence newrule 0
       ∧ node ∈ bucket (prec_map st') 0
       ∧ ∀ i n, n ∈ bucket (prec_map st') i →
                node_key n = (id newrule, classifier_type newrule) →
                n = node ∧ i = 0%nat).
Proof.
  intros Hops Hprec Hcmd Hne.
  assert (Hadd : ∀ st rule_type,
     sp_mapdb_rule_add st newrule rule_type alloc_node alloc_hash
     = sp_mapdb_rule_add st (set_rule_precedence newrule 0) rule_type
         alloc_node alloc_hash).
  { intros st ty. unfold sp_mapdb_rule_add. rewrite Hprec.
    cbn [set_rule_precedence rule_precedence inner id].
    unfold SP_MAPDB_RULE_MAX_PRECEDENCENUM. cbn [Z.eqb Pos.eqb]. reflexivity. }
  pose proof (table_inv_run ops Hops) as [Hinv Hw].
  set (st := sp_mapdb_run ops) in *.
  split; [exact Hadd|]. split.
  - rewrite !update_add by done. cbn [classifier_type set_rule_precedence].
    by rewrite Hadd.
  - intros Hfull Hout -> ->. rewrite update_add by done.
    assert (Hr : rule_well_typed newrule).
    { unfold rule_well_typed. rewrite Hprec. unfold SP_MAPDB_RULE_MAX_PRECEDENCENUM. lia. }
    pose proof (store_inv_set_single_writer st true Hinv) as Hlocked.
    destruct (add_accepted (set_single_writer st true) newrule (classifier_type newrule)
                Hlocked Hr Hfull Hout) as (code & st' & Heq & Hcode & Hnode).
    pose proof (store_inv_add _ newrule (classifier_type newrule) true true Hr Hlocked)
      as Hinv'.
    rewrite Heq in Hinv' |- *. cbn [fst snd] in *.
    assert (Hst : stored_rule newrule (classifier_type newrule)
                  = set_rule_precedence newrule 0).
    { unfold stored_rule. rewrite Hprec, Z.eqb_refl. by destruct newrule. }
    rewrite Hst in Hnode. cbn [set_rule_precedence rule_precedence Z.to_nat] in Hnode.
    eexists code, _, _. split; [done|]. split; [done|].
    cbn [set_single_writer prec_map]. split; [|split; [exact Hnode|]].
    + done.
    + intros i n Hn Hk. eapply (live_key_unique st'); [done..|].
      rewrite Hk. unfold node_key. by cbn.
Qed.

Lemma add_max_precedence_witness :
  ∃ code st' node,
    sp_mapdb_rule_update (H := sp_header_example 3)
      (sp_mapdb_run (H := sp_header_example 3) (take 3 ops_example))
      (Some (mesh_rule 2 255 1 0 0 6)) true true = (code, st')
    ∧ (code = SP_MAPDB_UPDATE_RESULT_SUCCESS_ADD
       ∨ code = SP_MAPDB_UPDATE_RESULT_SUCCESS_MODIFY)
    ∧ rule node = set_rule_precedence (mesh_rule 2 255 1 0 0 6) 0
    ∧ node ∈ bucket (prec_map st') 0
    ∧ ∀ i n, n ∈ bucket (prec_map st') i →
             node_key n = (id (mesh_rule 2 255 1 0 0 6),
                           classifier_type (mesh_rule 2 255 1 0 0 6)) →
             n = node ∧ i = 0%nat.
Proof.
  refine (proj2 (proj2 (add_max_precedence (H := sp_header_example 3)
                          (take 3 ops_example) (mesh_rule 2 255 1 0 0 6) true true
                          _ _ _ _)) _ _ _ _).
  - repeat constructor; cbn; lia.
  - reflexivity.
  - reflexivity.
  - vm_compute. lia.
  - vm_compute. lia.
  - vm_compute. reflexivity.
  - reflexivity.
  - reflexivity.
Defined.

(** ** The precedence order of the MESH search (claim C1) *)

Section MeshSearch.
Context `{H : sp_header}.
Variables (skb : sk_buff) (smac dmac : mac_addr).

Lemma mesh_bucket_scan_app l1 l2 :
  mesh_bucket_scan skb smac dmac (l1 ++ l2)
  = match mesh_bucket_scan skb smac dmac l1 with
    | Some output => Some output
    | None => mesh_bucket_scan skb smac dmac l2
    end.
Proof.
  induction l1 as [|n l1 IH]; cbn [app mesh_bucket_scan]; [done|].
  by destruct (_ && _).
Qed.

Lemma mesh_bucket_scan_first before A after :
  Forall (fun n => mesh_hit skb smac dmac n = false) before → mesh_hit skb smac dmac A = true →
  mesh_bucket_scan skb smac dmac (before ++ A :: after)
  = Some (rule_output (inner (rule A))).
Proof.
  intros Hb HA. induction Hb as [|n l Hn _ IH]; cbn [app mesh_bucket_scan].
  - unfold mesh_hit in HA. by rewrite HA.
  - unfold mesh_hit in Hn. by rewrite Hn.
Qed.

Lemma mesh_bucket_scan_none l :
  Forall (fun n => mesh_hit skb smac dmac n = false) l → mesh_bucket_scan skb smac dmac l = None.
Proof.
  induction 1 as [|n l Hn _ IH]; cbn [mesh_bucket_scan]; [done|].
  unfold mesh_hit in Hn. by rewrite Hn.
Qed.

Lemma mesh_bucket_scan_hit l A :
  A ∈ l → mesh_hit skb smac dmac A = true → is_Some (mesh_bucket_scan skb smac dmac l).
Proof.
  induction 1 as [A l|A n l _ IH]; intros HA; cbn [mesh_bucket_scan].
  - unfold mesh_hit in HA. rewrite HA. eauto.
  - destruct (_ && _); eauto.
Qed.

(** The two nested loops are one scan of [scan_order]. *)
Lemma mesh_prec_scan_order pm n :
  mesh_prec_scan skb smac dmac pm n = mesh_bucket_scan skb smac dmac (scan_order pm n).
Proof.
  induction n as [|i IH]; cbn [mesh_prec_scan scan_order]; [done|].
  rewrite mesh_bucket_scan_app, IH. by destruct (mesh_bucket_scan _ _ _ (bucket pm i)).
Qed.

(** The scan stops in the highest bucket that holds a match. *)
Lemma mesh_prec_scan_top pm p n :
  (p < n)%nat →
  (∀ q x, (p < q < n)%nat → x ∈ bucket pm q → mesh_hit skb smac dmac x = false) →
  is_Some (mesh_bucket_scan skb smac dmac (bucket pm p)) →
  mesh_prec_scan skb smac dmac pm n = mesh_bucket_scan skb smac dmac (bucket pm p).
Proof.
  intros Hpn Habove Hp. induction n as [|i IH]; [lia|].
  cbn [mesh_prec_scan]. destruct (decide (i = p)) as [->|Hip].
  - by destruct Hp as [o ->].
  - rewrite mesh_bucket_scan_none.
    + apply IH; [lia|]. intros q x Hq. apply Habove. lia.
    + apply Forall_forall. intros x Hx. apply (Habove i); [lia|done].
Qed.

(** Once a bucket holds a match, the buckets below it are not looked at. *)
Lemma mesh_prec_scan_agree pm pm' p n :
  (p < n)%nat →
  (∀ q, (p ≤ q < n)%nat → bucket pm' q = bucket pm q) →
  is_Some (mesh_bucket_scan skb smac dmac (bucket pm p)) →
  mesh_prec_scan skb smac dmac pm' n = mesh_prec_scan skb smac dmac pm n.
Proof.
  intros Hpn Hagree Hp. induction n as [|i IH]; [lia|].
  cbn [mesh_prec_scan]. rewrite (Hagree i) by lia.
  destruct (mesh_bucket_scan skb smac dmac (bucket pm i)) as [o|] eqn:Hi; [done|].
  destruct (decide (i = p)) as [->|Hip].
  - rewrite Hi in Hp. by destruct Hp.
  - apply IH; [lia|]. intros q Hq. apply Hagree. lia.
Qed.

Lemma set_output_explicit output :
  output ≠ SP_MAPDB_USE_UP → output ≠ SP_MAPDB_USE_DSCP → output ≠ SP_MAPDB_NO_MATCH →
  set_output skb output = output.
Proof.
  intros H1 H2 H3. unfold set_output.
  destruct (Z.eqb_spec output SP_MAPDB_USE_UP); [done|].
  destruct (Z.eqb_spec output SP_MAPDB_USE_DSCP); [done|].
  by destruct (Z.eqb_spec output SP_MAPDB_NO_MATCH).
Qed.

End MeshSearch.

Lemma table_inv_count_nonzero st n i :
  table_inv st → n ∈ bucket (prec_map st) i → rule_count st ≠ 0.
Proof.
  intros [Hinv _] Hn. rewrite (inv_count _ Hinv), (inv_index _ Hinv).
  apply elem_of_bucket_join in Hn. unfold live_rules.
  destruct (mjoin (prec_map st)); [by apply not_elem_of_nil in Hn | cbn [length]; lia].
Qed.

Section MeshSearchResult.
Context `{H : sp_header}.
Variables (skb : sk_buff) (smac dmac : mac_addr).

Lemma mesh_bucket_scan_Some l output :
  mesh_bucket_scan skb smac dmac l = Some output →
  ∃ A, A ∈ l ∧ mesh_hit skb smac dmac A = true ∧ output = rule_output (inner (rule A)).
Proof.
  induction l as [|n l IH]; cbn [mesh_bucket_scan]; [done|].
  destruct (_ && _) eqn:Hn.
  - intros [= <-]. exists n. split; [by left|]. by split.
  - intros (A & HA & Hrest)%IH. exists A. split; [by right | done].
Qed.

Lemma mesh_prec_scan_Some pm n output :
  mesh_prec_scan skb smac dmac pm n = Some output →
  ∃ q A, (q < n)%nat ∧ A ∈ bucket pm q ∧ mesh_hit skb smac dmac A = true
         ∧ output = rule_output (inner (rule A))
         ∧ ∀ q' x, (q < q' < n)%nat → x ∈ bucket pm q' → mesh_hit skb smac dmac x = false.
Proof.
  induction n as [|i IH]; cbn [mesh_prec_scan]; [done|].
  destruct (mesh_bucket_scan skb smac dmac (bucket pm i)) as [o|] eqn:Hi.
  - intros [= <-]. apply mesh_bucket_scan_Some in Hi as (A & HA & Hhit & Ho).
    exists i, A. split_and!; [lia|done..|]. intros q' x ?. lia.
  - intros (q & A & Hq & HA & Hhit & Ho & Habove)%IH.
    exists q, A. split_and!; [lia|done..|]. intros q' x Hq' Hx.
    destruct (decide (q' = i)) as [->|Hne].
    + destruct (mesh_hit skb smac dmac x) eqn:Hhx; [|done].
      destruct (mesh_bucket_scan_hit skb smac dmac _ _ Hx Hhx) as [o Ho']. congruence.
    + apply (Habove q'); [lia|done].
Qed.

Lemma mesh_prec_scan_is_Some pm p n A :
  (p < n)%nat → A ∈ bucket pm p → mesh_hit skb smac dmac A = true →
  is_Some (mesh_prec_scan skb smac dmac pm n).
Proof.
  intros Hpn HA Hhit. induction n as [|i IH]; [lia|]. cbn [mesh_prec_scan].
  destruct (mesh_bucket_scan skb smac dmac (bucket pm i)) as [o|] eqn:Hi; [eauto|].
  destruct (decide (i = p)) as [->|Hne].
  - destruct (mesh_bucket_scan_hit skb smac dmac _ _ HA Hhit) as [o Ho]. congruence.
  - apply IH. lia.
Qed.

End MeshSearchResult.

(** C1.  In every table the updater can produce and for every packet, let a
    MESH rule [A] in the bucket of precedence [p] match the packet.  Then
    - the result is the (resolved) output of a MESH rule that matches and lies
      at precedence [p] or higher: never that of a rule below [p];
    - if no rule above [p] and no rule before [A] in its bucket matches, so
      that [A] is the first match of the descending scan, the scan ends with
      the output of [A] and the function returns it through the [set_output]
      switch: the output itself, unless it is one of the selectors use-UP,
      use-DSCP, no-match, which the switch resolves;
    - the buckets below [p] have no influence: any other table with the same
      buckets from [p] upwards gives the same result.
    With [p = 10] and a second matching rule at precedence 3 this is the
    scenario of the specification. *)
Theorem mesh_search_precedence `{H : sp_header} (ops : list sp_mapdb_op)
    (skb : sk_buff) (smac dmac : mac_addr) (p : nat) (A : sp_mapdb_rule_node) :
  Forall op_well_typed ops →
  (p < Z.to_nat SP_MAPDB_RULE_MAX_PRECEDENCENUM)%nat →
  A ∈ bucket (prec_map (sp_mapdb_run ops)) p →
  mesh_hit skb smac dmac A = true →
  (∃ q A', (p ≤ q < Z.to_nat SP_MAPDB_RULE_MAX_PRECEDENCENUM)%nat
           ∧ A' ∈ bucket (prec_map (sp_mapdb_run ops)) q
           ∧ mesh_hit skb smac dmac A' = true
           ∧ sp_mapdb_ruletable_search (sp_mapdb_run ops) skb smac dmac
             = set_output skb (rule_output (inner (rule A'))))
  ∧ (∀ before after,
       bucket (prec_map (sp_mapdb_run ops)) p = before ++ A :: after →
       Forall (fun n => mesh_hit skb smac dmac n = false) before →
       (∀ q n, (p < q < Z.to_nat SP_MAPDB_RULE_MAX_PRECEDENCENUM)%nat →
               n ∈ bucket (prec_map (sp_mapdb_run ops)) q →
               mesh_hit skb smac dmac n = false) →
       mesh_prec_scan skb smac dmac (prec_map (sp_mapdb_run ops))
         (Z.to_nat SP_MAPDB_RULE_MAX_PRECEDENCENUM)
       = Some (rule_output (inner (rule A)))
       ∧ sp_mapdb_ruletable_search (sp_mapdb_run ops) skb smac dmac
         = set_output skb (rule_output (inner (rule A)))
       ∧ (rule_output (inner (rule A)) ≠ SP_MAPDB_USE_UP →
          rule_output (inner (rule A)) ≠ SP_MAPDB_USE_DSCP →
          rule_output (inner (rule A)) ≠ SP_MAPDB_NO_MATCH →
          sp_mapdb_ruletable_search (sp_mapdb_run ops) skb smac dmac
          = rule_output (inner (rule A))))
  ∧ (∀ ops',
       Forall op_well_typed ops' →
       (∀ q, (p ≤ q < Z.to_nat SP_MAPDB_RULE_MAX_PRECEDENCENUM)%nat →
             bucket (prec_map (sp_mapdb_run ops')) q
             = bucket (prec_map (sp_mapdb_run ops)) q) →
       sp_mapdb_ruletable_search (sp_mapdb_run ops') skb smac dmac
       = sp_mapdb_ruletable_search (sp_mapdb_run ops) skb smac dmac).
Proof.
  intros Hops Hp HA Hhit.
  pose proof (table_inv_run ops Hops) as Hinv.
  set (st := sp_mapdb_run ops) in *.
  pose proof (table_inv_count_nonzero st A p Hinv HA) as Hcnt.
  assert (Hsome : is_Some (mesh_bucket_scan skb smac dmac (bucket (prec_map st) p)))
    by (by eapply mesh_bucket_scan_hit).
  split_and!.
  - destruct (mesh_prec_scan_is_Some skb smac dmac (prec_map st) p _ A Hp HA Hhit)
      as [o Ho].
    pose proof Ho as Ho'.
    apply mesh_prec_scan_Some in Ho' as (q & A' & Hq & HA' & Hhit' & -> & Habove).
    exists q, A'. split_and!; [|lia|done|done|].
    + destruct (decide (p ≤ q)%nat) as [|Hlt]; [done|].
      rewrite (Habove p A) in Hhit; [done|lia|done].
    + unfold sp_mapdb_ruletable_search.
      destruct (Z.eqb_spec (rule_count st) 0); [done|]. by rewrite Ho.
  - intros before after Hb Hbefore Habove.
    assert (Hscan : mesh_prec_scan skb smac dmac (prec_map st)
                      (Z.to_nat SP_MAPDB_RULE_MAX_PRECEDENCENUM)
                    = Some (rule_output (inner (rule A)))).
    { rewrite (mesh_prec_scan_top skb smac dmac _ p) by done.
      rewrite Hb. by rewrite mesh_bucket_scan_first. }
    assert (Hres : sp_mapdb_ruletable_search st skb smac dmac
                   = set_output skb (rule_output (inner (rule A)))).
    { unfold sp_mapdb_ruletable_search.
      destruct (Z.eqb_spec (rule_count st) 0); [done|]. by rewrite Hscan. }
    split; [done|]. split; [done|]. intros. rewrite Hres. by apply set_output_explicit.
  - intros ops' Hops' Hagree.
    pose proof (table_inv_run ops' Hops') as Hinv'.
    set (st' := sp_mapdb_run ops') in *.
    assert (HA' : A ∈ bucket (prec_map st') p) by (rewrite Hagree by lia; done).
    pose proof (table_inv_count_nonzero st' A p Hinv' HA') as Hcnt'.
    unfold sp_mapdb_ruletable_search.
    destruct (Z.eqb_spec (rule_count st) 0); [done|].
    destruct (Z.eqb_spec (rule_count st') 0); [done|].
    by rewrite (mesh_prec_scan_agree skb smac dmac (prec_map st) (prec_map st') p).
Qed.

(** Rule 1 at precedence 10 with output 5 and rule 2 at precedence 3 with
    output 6 both match every packet: the result is 5. *)
Lemma mesh_search_precedence_witness :
  mesh_hit (H := sp_header_example 3) (ipv4_packet 0 0 6) 0 0
    {| node_addr := 1; rule := mesh_rule 2 3 1 0 0 6 |} = true
  ∧ sp_mapdb_ruletable_search (H := sp_header_example 3)
      (sp_mapdb_run (H := sp_header_example 3) (take 2 ops_example))
      (ipv4_packet 0 0 6) 0 0 = 5.
Proof.
  split; [reflexivity|].
  assert (Hops : Forall op_well_typed (take 2 ops_example))
    by (repeat constructor; cbn; lia).
  destruct (mesh_search_precedence (H := sp_header_example 3) (take 2 ops_example)
              (ipv4_packet 0 0 6) 0 0 10
              {| node_addr := 0; rule := mesh_rule 1 10 1 0 0 5 |}
              Hops) as (_ & Hfirst & _).
  - vm_compute. lia.
  - vm_compute. left.
  - reflexivity.
  - destruct (Hfirst [] []) as (_ & _ & Hexplicit).
    + reflexivity.
    + constructor.
    + intros q n Hq Hn.
      pose proof (inv_prec _ (proj1 (table_inv_run _ Hops)) q n Hn) as Hprec.
      apply elem_of_bucket_join in Hn. vm_compute in Hn.
      apply elem_of_cons in Hn as [->|Hn]; [cbn in Hprec; lia|].
      apply elem_of_cons in Hn as [->|Hn]; [cbn in Hprec; lia|].
      by apply not_elem_of_nil in Hn.
    + apply Hexplicit; vm_compute; lia.
Defined.

(** ** The empty table (claim C4) *)

Lemma table_inv_empty_count st :
  table_inv st → live_rules st = [] → rule_count st = 0.
Proof.
  intros [Hinv _] Hlive. rewrite (inv_count _ Hinv), (inv_index _ Hinv), Hlive. done.
Qed.

Lemma shiftr_uint8_5 tos : 0 <= tos < 256 → to_uint8 (Z.shiftr tos 5) = Z.shiftr tos 5.
Proof.
  intros Ht. unfold to_uint8. rewrite Z.shiftr_div_pow2 by lia.
  apply Z.mod_small. change (2 ^ 5) with 32.
  split; [apply Z.div_pos; lia|]. apply Z.div_lt_upper_bound; lia.
Qed.

(** C4.  With no rule in the table the MESH search takes the use-DSCP
    selector, and for an IPv4 packet the result is the top three bits of the
    six-bit DSCP field: the DS field shifted right by 5, which is the DSCP
    (the DS field shifted right by 2) shifted right by 3.  For DSCP 32 (DS
    field 128 to 131) the result is 4, whatever the default priority
    [SP_MAPDB_RULE_DEFAULT_PCP] is, and not 32.  The selector fits the
    [uint8_t] it is stored in and differs from the use-UP selector (the two
    are labels of one switch). *)
Theorem mesh_search_empty_table_dscp `{H : sp_header} (ops : list sp_mapdb_op)
    (skb : sk_buff) (smac dmac : mac_addr) :
  Forall op_well_typed ops →
  0 <= SP_MAPDB_USE_DSCP < 256 →
  SP_MAPDB_USE_UP ≠ SP_MAPDB_USE_DSCP →
  live_rules (sp_mapdb_run ops) = [] →
  ntohs (skb_protocol skb) = ETH_P_IP →
  0 <= iph_tos skb < 256 →
  sp_mapdb_ruletable_search (sp_mapdb_run ops) skb smac dmac
  = Z.shiftr (Z.shiftr (iph_tos skb) 2) 3
  ∧ (Z.shiftr (iph_tos skb) 2 = 32 →
     sp_mapdb_ruletable_search (sp_mapdb_run ops) skb smac dmac = 4
     ∧ sp_mapdb_ruletable_search (sp_mapdb_run ops) skb smac dmac
       ≠ Z.shiftr (iph_tos skb) 2).
Proof.
  intros Hops Hdscp Hne Hempty Hip Htos.
  pose proof (table_inv_empty_count _ (table_inv_run ops Hops) Hempty) as Hcnt.
  assert (Hres : sp_mapdb_ruletable_search (sp_mapdb_run ops) skb smac dmac
                 = Z.shiftr (Z.shiftr (iph_tos skb) 2) 3).
  { assert (Hu : to_uint8 SP_MAPDB_USE_DSCP = SP_MAPDB_USE_DSCP)
      by (apply Z.mod_small; lia).
    unfold sp_mapdb_ruletable_search. rewrite Hcnt. cbn [Z.eqb]. rewrite Hu.
    unfold set_output.
    destruct (Z.eqb_spec SP_MAPDB_USE_DSCP SP_MAPDB_USE_UP); [congruence|].
    rewrite Z.eqb_refl, Hip. cbn [Z.eqb ETH_P_IP Pos.eqb].
    rewrite shiftr_uint8_5 by done.
    rewrite Z.shiftr_shiftr by lia. done. }
  split; [done|]. intros H32. rewrite Hres, H32. split; [reflexivity | discriminate].
Qed.

Lemma mesh_search_empty_table_dscp_witness :
  sp_mapdb_ruletable_search (H := sp_header_example 3)
    (sp_mapdb_run (H := sp_header_example 3) []) (ipv4_packet 0 128 6) 0 0 = 4.
Proof.
  refine (proj1 (proj2 (mesh_search_empty_table_dscp (H := sp_header_example 3) []
                          (ipv4_packet 0 128 6) 0 0 _ _ _ _ _ _) _)).
  - constructor.
  - cbn. lia.
  - cbn. lia.
  - reflexivity.
  - reflexivity.
  - cbn. lia.
  - reflexivity.
Defined.

(** ** The generic matcher (claims C3 and C6) *)

Section MatcherFacts.
Context `{H : sp_header}.

Lemma flag_set_lor fl a b : flag_set fl (Z.lor a b) = flag_set fl a || flag_set fl b.
Proof.
  unfold flag_set. rewrite Z.land_lor_distr_r.
  destruct (Z.eqb_spec (Z.land fl a) 0) as [Ha|Ha];
    destruct (Z.eqb_spec (Z.land fl b) 0) as [Hb|Hb]; cbn [negb orb];
    rewrite ?negb_true_iff, ?negb_false_iff, ?Z.eqb_eq, ?Z.eqb_neq, Z.lor_eq_0_iff; tauto.
Qed.

(** The test that guards the IPv4 part is: one of the six flags is set. *)
Lemma flag_set_ipv4_group fl :
  flag_set fl ipv4_group
  = flag_set fl SP_RULE_FLAG_MATCH_SRC_IPV4 || flag_set fl SP_RULE_FLAG_MATCH_DST_IPV4
    || flag_set fl SP_RULE_FLAG_MATCH_SRC_PORT || flag_set fl SP_RULE_FLAG_MATCH_DST_PORT
    || flag_set fl SP_RULE_FLAG_MATCH_DSCP || flag_set fl SP_RULE_FLAG_MATCH_PROTOCOL.
Proof. unfold ipv4_group. rewrite !flag_set_lor. by rewrite !orb_assoc. Qed.

(** Without the always-true flag the matcher is the conjunction of its field
    tests: the first that fails ends the match with false. *)
Lemma rule_match_fields skb rule smac dmac :
  flag_set (flags (inner rule)) SP_RULE_FLAG_MATCH_ALWAYS_TRUE = false →
  sp_mapdb_rule_match skb rule smac dmac
  = match_up skb rule && match_source_mac rule smac && match_dst_mac rule dmac
    && match_vlan_id skb rule && match_ipv4 skb rule.
Proof. intros Hat. unfold sp_mapdb_rule_match. by rewrite Hat. Qed.

(** With the always-true flag the matcher answers before any field test,
    whatever the other flags and the packet are. *)
Lemma rule_match_always_true skb rule smac dmac :
  flag_set (flags (inner rule)) SP_RULE_FLAG_MATCH_ALWAYS_TRUE = true →
  sp_mapdb_rule_match skb rule smac dmac = true.
Proof. intros Hat. unfold sp_mapdb_rule_match. by rewrite Hat. Qed.

Lemma field_check_active fl flag_bit sense_bit compare_result :
  flag_set fl flag_bit = true →
  field_check fl flag_bit sense_bit compare_result
  = xorb compare_result (flag_set fl sense_bit).
Proof. intros Hf. unfold field_check, sense_check. by rewrite Hf. Qed.

Lemma ntohs_0 : ntohs 0 = 0.
Proof. reflexivity. Qed.

(** The IPv4 part on an IPv4 packet that is neither TCP nor UDP: the port
    tests see port 0. *)
Lemma match_ipv4_no_transport skb rule :
  iph_protocol skb ≠ IPPROTO_TCP → iph_protocol skb ≠ IPPROTO_UDP →
  match_ipv4 skb rule = true →
  match_src_port rule 0 = true ∧ match_dst_port rule 0 = true.
Proof.
  intros Htcp Hudp. unfold match_ipv4, transport_ports.
  destruct (Z.eqb_spec (iph_protocol skb) IPPROTO_TCP); [done|].
  destruct (Z.eqb_spec (iph_protocol skb) IPPROTO_UDP); [done|].
  destruct (flag_set (flags (inner rule)) ipv4_group) eqn:Hg.
  - destruct (skb_protocol skb =? ntohs ETH_P_IP); [|done].
    destruct (may_pull_iphdr skb); [|done].
    rewrite !andb_true_iff. tauto.
  - intros _. rewrite flag_set_ipv4_group in Hg.
    rewrite !orb_false_iff in Hg. destruct Hg as [[[[[_ _] Hs] Hd] _] _].
    unfold match_src_port, match_dst_port, field_check. by rewrite Hs, Hd.
Qed.

End MatcherFacts.

Section MatcherChecks.
Context `{H : sp_header}.

(** A sensed test lets the matcher go on exactly when its flag is clear or
    compare_result XOR sense is true. *)
Lemma field_check_true fl flag_bit sense_bit compare_result :
  field_check fl flag_bit sense_bit compare_result = true
  ↔ (flag_set fl flag_bit = true →
     xorb compare_result (flag_set fl sense_bit) = true).
Proof.
  unfold field_check, sense_check.
  destruct (flag_set fl flag_bit); split; auto; done.
Qed.

(** The VLAN id test also asks for the 802.1Q tag. *)
Lemma match_vlan_id_true skb rule :
  match_vlan_id skb rule = true
  ↔ (flag_set (flags (inner rule)) SP_RULE_FLAG_MATCH_VLAN_ID = true →
     ntohs (eth_h_proto skb) = ETH_P_8021Q
     ∧ xorb (to_int16 (ntohs (vlan_h_vlan_TCI skb)) =? vlan_id (inner rule))
         (flag_set (flags (inner rule)) SP_RULE_FLAG_MATCH_VLAN_ID_SENSE) = true).
Proof.
  unfold match_vlan_id, sense_check. cbv zeta.
  destruct (flag_set (flags (inner rule)) SP_RULE_FLAG_MATCH_VLAN_ID);
    [|split; auto; done].
  destruct (Z.eqb_spec (ntohs (eth_h_proto skb)) ETH_P_8021Q) as [Heq|Hne].
  - split; [by auto|]. intros Hv. by apply Hv.
  - split; [done|]. intros Hv. by destruct Hv.
Qed.

(** The IPv4 part: the headers have to be there, and each of its six tests
    that is asked for has to pass. *)
Lemma match_ipv4_true skb rule :
  match_ipv4 skb rule = true
  ↔ (flag_set (flags (inner rule)) ipv4_group = true →
     skb_protocol skb = ntohs ETH_P_IP
     ∧ may_pull_iphdr skb = true
     ∧ (flag_set (flags (inner rule)) SP_RULE_FLAG_MATCH_DSCP = true →
        xorb (Z.shiftr (iph_tos skb) 2 =? dscp (inner rule))
          (flag_set (flags (inner rule)) SP_RULE_FLAG_MATCH_DSCP_SENSE) = true)
     ∧ (flag_set (flags (inner rule)) SP_RULE_FLAG_MATCH_SRC_IPV4 = true →
        xorb (iph_saddr skb =? src_ipv4_addr (inner rule))
          (flag_set (flags (inner rule)) SP_RULE_FLAG_MATCH_SRC_IPV4_SENSE) = true)
     ∧ (flag_set (flags (inner rule)) SP_RULE_FLAG_MATCH_DST_IPV4 = true →
        xorb (iph_daddr skb =? dst_ipv4_addr (inner rule))
          (flag_set (flags (inner rule)) SP_RULE_FLAG_MATCH_DST_IPV4_SENSE) = true)
     ∧ (flag_set (flags (inner rule)) SP_RULE_FLAG_MATCH_PROTOCOL = true →
        xorb (iph_protocol skb =? protocol_number (inner rule))
          (flag_set (flags (inner rule)) SP_RULE_FLAG_MATCH_PROTOCOL_SENSE) = true)
     ∧ ∃ src_port' dst_port',
         transport_ports skb = Some (src_port', dst_port')
         ∧ (flag_set (flags (inner rule)) SP_RULE_FLAG_MATCH_SRC_PORT = true →
            xorb (ntohs src_port' =? src_port (inner rule))
              (flag_set (flags (inner rule)) SP_RULE_FLAG_MATCH_SRC_PORT_SENSE) = true)
         ∧ (flag_set (flags (inner rule)) SP_RULE_FLAG_MATCH_DST_PORT = true →
            xorb (ntohs dst_port' =? dst_port (inner rule))
              (flag_set (flags (inner rule)) SP_RULE_FLAG_MATCH_DST_PORT_SENSE) = true)).
Proof.
  unfold match_ipv4.
  destruct (flag_set (flags (inner rule)) ipv4_group); [|split; auto; done].
  destruct (Z.eqb_spec (skb_protocol skb) (ntohs ETH_P_IP)) as [Hip|Hip];
    [|split; [done|]; intros Hv; by destruct Hv].
  destruct (may_pull_iphdr skb);
    [|split; [done|]; intros Hv; by destruct Hv as (_ & ? & _)].
  unfold match_dscp, match_src_ipv4, match_dst_ipv4, match_protocol.
  rewrite !andb_true_iff, !field_check_true.
  destruct (transport_ports skb) as [[src_port' dst_port']|].
  - unfold match_src_port, match_dst_port.
    rewrite andb_true_iff, !field_check_true. split.
    + intros ((((Hd & Hs) & Hda) & Hp) & Hsp & Hdp) _.
      split_and!; try done. by exists src_port', dst_port'.
    + intros Hv. destruct Hv as (_ & _ & Hd & Hs & Hda & Hp & sp & dp & [= <- <-] & Hsp & Hdp);
        [done|]. by split_and!.
  - split; [by intros [_ ?]|].
    intros Hv. by destruct Hv as (_ & _ & _ & _ & _ & _ & sp & dp & ? & _).
Qed.

(** The matcher in terms of its tests, each written out. *)
Lemma rule_match_checks skb rule smac dmac :
  flag_set (flags (inner rule)) SP_RULE_FLAG_MATCH_ALWAYS_TRUE = false →
  sp_mapdb_rule_match skb rule smac dmac = true
  ↔ (flag_set (flags (inner rule)) SP_RULE_FLAG_MATCH_UP = true →
     xorb (skb_priority skb =? user_priority (inner rule))
       (flag_set (flags (inner rule)) SP_RULE_FLAG_MATCH_UP_SENSE) = true)
    ∧ (flag_set (flags (inner rule)) SP_RULE_FLAG_MATCH_SOURCE_MAC = true →
       xorb (ether_addr_equal smac (sa (inner rule)))
         (flag_set (flags (inner rule)) SP_RULE_FLAG_MATCH_SOURCE_MAC_SENSE) = true)
    ∧ (flag_set (flags (inner rule)) SP_RULE_FLAG_MATCH_DST_MAC = true →
       xorb (ether_addr_equal dmac (da (inner rule)))
         (flag_set (flags (inner rule)) SP_RULE_FLAG_MATCH_DST_MAC_SENSE) = true)
    ∧ match_vlan_id skb rule = true
    ∧ match_ipv4 skb rule = true.
Proof.
  intros Hat. rewrite rule_match_fields by done.
  unfold match_up, match_source_mac, match_dst_mac.
  rewrite !andb_true_iff, !field_check_true. tauto.
Qed.

End MatcherChecks.

(** C3, as the code has it.  For every MESH rule with the source-MAC match
    flag and its sense flag set, and every packet: the source-MAC test
    succeeds exactly when the packet's source MAC differs from the rule's; when
    the test fails and the always-true flag is clear, the whole match is
    no-match, so a packet with the rule's source MAC is not matched.  (With the
    always-true flag set the matcher returns match before any field is looked
    at.)

    In general, for every rule with the always-true flag clear,
    sp_mapdb_rule_match() reports a match exactly when each of its tests
    whose flag is set succeeds.  The test of the user priority, of the source
    and of the destination MAC, of the DSCP, of the source and destination
    IPv4 address, of the IP protocol and of the source and destination port
    succeeds exactly when compare_result XOR sense is true.  The VLAN id test
    succeeds exactly when the frame has an 802.1Q tag and compare_result XOR
    sense is true: on a frame without the tag it fails whatever the sense.
    When one of the six flags of the IPv4 group is set, the frame moreover
    has to be IPv4 with an IP header that can be pulled, and the TCP or UDP
    header of a TCP or UDP packet has to be there to be pulled. *)
Theorem source_mac_sense `{H : sp_header} (rule : sp_rule) (skb : sk_buff)
    (smac dmac : mac_addr) :
  flag_set (flags (inner rule)) SP_RULE_FLAG_MATCH_SOURCE_MAC = true →
  flag_set (flags (inner rule)) SP_RULE_FLAG_MATCH_SOURCE_MAC_SENSE = true →
  (match_source_mac rule smac = true ↔ smac ≠ sa (inner rule))
  ∧ (flag_set (flags (inner rule)) SP_RULE_FLAG_MATCH_ALWAYS_TRUE = false →
     match_source_mac rule smac = false →
     sp_mapdb_rule_match skb rule smac dmac = false)
  ∧ (flag_set (flags (inner rule)) SP_RULE_FLAG_MATCH_ALWAYS_TRUE = false →
     smac = sa (inner rule) →
     sp_mapdb_rule_match skb rule smac dmac = false)
  ∧ (∀ (r : sp_rule) (pkt : sk_buff) (s d : mac_addr),
       flag_set (flags (inner r)) SP_RULE_FLAG_MATCH_ALWAYS_TRUE = false →
       (sp_mapdb_rule_match pkt r s d = true
        ↔ (flag_set (flags (inner r)) SP_RULE_FLAG_MATCH_UP = true →
           xorb (skb_priority pkt =? user_priority (inner r))
             (flag_set (flags (inner r)) SP_RULE_FLAG_MATCH_UP_SENSE) = true)
          ∧ (flag_set (flags (inner r)) SP_RULE_FLAG_MATCH_SOURCE_MAC = true →
             xorb (ether_addr_equal s (sa (inner r)))
               (flag_set (flags (inner r)) SP_RULE_FLAG_MATCH_SOURCE_MAC_SENSE) = true)
          ∧ (flag_set (flags (inner r)) SP_RULE_FLAG_MATCH_DST_MAC = true →
             xorb (ether_addr_equal d (da (inner r)))
               (flag_set (flags (inner r)) SP_RULE_FLAG_MATCH_DST_MAC_SENSE) = true)
          ∧ (flag_set (flags (inner r)) SP_RULE_FLAG_MATCH_VLAN_ID = true →
             ntohs (eth_h_proto pkt) = ETH_P_8021Q
             ∧ xorb (to_int16 (ntohs (vlan_h_vlan_TCI pkt)) =? vlan_id (inner r))
                 (flag_set (flags (inner r)) SP_RULE_FLAG_MATCH_VLAN_ID_SENSE) = true)
          ∧ (flag_set (flags (inner r)) ipv4_group = true →
             skb_protocol pkt = ntohs ETH_P_IP
             ∧ may_pull_iphdr pkt = true
             ∧ (flag_set (flags (inner r)) SP_RULE_FLAG_MATCH_DSCP = true →
                xorb (Z.shiftr (iph_tos pkt) 2 =? dscp (inner r))
                  (flag_set (flags (inner r)) SP_RULE_FLAG_MATCH_DSCP_SENSE) = true)
             ∧ (flag_set (flags (inner r)) SP_RULE_FLAG_MATCH_SRC_IPV4 = true →
                xorb (iph_saddr pkt =? src_ipv4_addr (inner r))
                  (flag_set (flags (inner r)) SP_RULE_FLAG_MATCH_SRC_IPV4_SENSE) = true)
             ∧ (flag_set (flags (inner r)) SP_RULE_FLAG_MATCH_DST_IPV4 = true →
                xorb (iph_daddr pkt =? dst_ipv4_addr (inner r))
                  (flag_set (flags (inner r)) SP_RULE_FLAG_MATCH_DST_IPV4_SENSE) = true)
             ∧ (flag_set (flags (inner r)) SP_RULE_FLAG_MATCH_PROTOCOL = true →
                xorb (iph_protocol pkt =? protocol_number (inner r))
                  (flag_set (flags (inner r)) SP_RULE_FLAG_MATCH_PROTOCOL_SENSE) = true)
             ∧ ∃ src_port' dst_port',
                 transport_ports pkt = Some (src_port', dst_port')
                 ∧ (flag_set (flags (inner r)) SP_RULE_FLAG_MATCH_SRC_PORT = true →
                    xorb (ntohs src_port' =? src_port (inner r))
                      (flag_set (flags (inner r)) SP_RULE_FLAG_MATCH_SRC_PORT_SENSE)
                    = true)
                 ∧ (flag_set (flags (inner r)) SP_RULE_FLAG_MATCH_DST_PORT = true →
                    xorb (ntohs dst_port' =? dst_port (inner r))
                      (flag_set (flags (inner r)) SP_RULE_FLAG_MATCH_DST_PORT_SENSE)
                    = true))))
  ∧ (∀ (r : sp_rule) (pkt : sk_buff) (s d : mac_addr),
       flag_set (flags (inner r)) SP_RULE_FLAG_MATCH_ALWAYS_TRUE = false →
       flag_set (flags (inner r)) SP_RULE_FLAG_MATCH_VLAN_ID = true →
       ntohs (eth_h_proto pkt) ≠ ETH_P_8021Q →
       sp_mapdb_rule_match pkt r s d = false).
Proof.
  intros Hf Hs.
  assert (Hcheck : match_source_mac rule smac = negb (ether_addr_equal smac (sa (inner rule)))).
  { unfold match_source_mac. rewrite field_check_active by done. rewrite Hs.
    by destruct (ether_addr_equal _ _). }
  assert (Habort : flag_set (flags (inner rule)) SP_RULE_FLAG_MATCH_ALWAYS_TRUE = false →
                   match_source_mac rule smac = false →
                   sp_mapdb_rule_match skb rule smac dmac = false).
  { intros Hat Hfail. rewrite rule_match_fields by done. rewrite Hfail.
    by rewrite andb_false_r. }
  split_and!.
  - rewrite Hcheck. unfold ether_addr_equal.
    destruct (Z.eqb_spec smac (sa (inner rule))); cbn [negb]; split; done.
  - exact Habort.
  - intros Hat Heq. apply Habort; [done|]. rewrite Hcheck. unfold ether_addr_equal.
    by rewrite (proj2 (Z.eqb_eq _ _) Heq).
  - intros r pkt s d Hat.
    rewrite rule_match_checks by done.
    by rewrite match_vlan_id_true, match_ipv4_true.
  - intros r pkt s d Hat Hv Htag.
    destruct (sp_mapdb_rule_match pkt r s d) eqn:Hm; [|done].
    apply rule_match_checks in Hm as (_ & _ & _ & Hvlan & _); [|done].
    apply match_vlan_id_true in Hvlan as [Heq _]; done.
Qed.

Lemma source_mac_sense_witness :
  sp_mapdb_rule_match (H := sp_header_example 3) (ipv4_packet 0 0 6)
    (mesh_rule 1 0 24 77 0 5) 77 0 = false.
Proof.
  refine (proj1 (proj2 (proj2 (source_mac_sense (H := sp_header_example 3)
            (mesh_rule 1 0 24 77 0 5) (ipv4_packet 0 0 6) 77 0 _ _))) _ _);
    reflexivity.
Defined.

(** The claim fails for a rule that also has the always-true flag: the rule
    with flags always-true, source-MAC and source-MAC sense and source MAC 77
    matches a packet whose source MAC is 77. *)
Lemma source_mac_sense_counterexample :
  flag_set (flags (inner (mesh_rule 1 0 25 77 0 5)))
    (SP_RULE_FLAG_MATCH_SOURCE_MAC (sp_header := sp_header_example 3)) = true
  ∧ flag_set (flags (inner (mesh_rule 1 0 25 77 0 5)))
      (SP_RULE_FLAG_MATCH_SOURCE_MAC_SENSE (sp_header := sp_header_example 3)) = true
  ∧ ether_addr_equal 77 (sa (inner (mesh_rule 1 0 25 77 0 5))) = true
  ∧ sp_mapdb_rule_match (H := sp_header_example 3) (ipv4_packet 0 0 6)
      (mesh_rule 1 0 25 77 0 5) 77 0 = true.
Proof. by split_and!. Qed.

(** C6, as the code has it.  For every MESH rule with the always-true flag
    clear:
    - on an IPv4 packet whose IP protocol is neither TCP nor UDP the port tests
      are made against port 0 (the locals [src_port] and [dst_port] keep their
      initial value): a rule with the source-port (destination-port) flag
      matches only if (0 == rule port) XOR sense is true, so it reports
      no-match when the sense flag is clear and the rule's port is not 0;
    - with any of the six IPv4-group flags set, a frame that is not IPv4
      reports no-match. *)
Theorem port_and_ipv4_matching `{H : sp_header} (rule : sp_rule) (skb : sk_buff)
    (smac dmac : mac_addr) :
  flag_set (flags (inner rule)) SP_RULE_FLAG_MATCH_ALWAYS_TRUE = false →
  (iph_protocol skb ≠ IPPROTO_TCP → iph_protocol skb ≠ IPPROTO_UDP →
     (flag_set (flags (inner rule)) SP_RULE_FLAG_MATCH_SRC_PORT = true →
      sp_mapdb_rule_match skb rule smac dmac = true →
      xorb (0 =? src_port (inner rule))
        (flag_set (flags (inner rule)) SP_RULE_FLAG_MATCH_SRC_PORT_SENSE) = true)
     ∧ (flag_set (flags (inner rule)) SP_RULE_FLAG_MATCH_DST_PORT = true →
        sp_mapdb_rule_match skb rule smac dmac = true →
        xorb (0 =? dst_port (inner rule))
          (flag_set (flags (inner rule)) SP_RULE_FLAG_MATCH_DST_PORT_SENSE) = true)
     ∧ (flag_set (flags (inner rule)) SP_RULE_FLAG_MATCH_SRC_PORT = true →
        flag_set (flags (inner rule)) SP_RULE_FLAG_MATCH_SRC_PORT_SENSE = false →
        src_port (inner rule) ≠ 0 →
        sp_mapdb_rule_match skb rule smac dmac = false)
     ∧ (flag_set (flags (inner rule)) SP_RULE_FLAG_MATCH_DST_PORT = true →
        flag_set (flags (inner rule)) SP_RULE_FLAG_MATCH_DST_PORT_SENSE = false →
        dst_port (inner rule) ≠ 0 →
        sp_mapdb_rule_match skb rule smac dmac = false))
  ∧ (flag_set (flags (inner rule)) SP_RULE_FLAG_MATCH_SRC_IPV4 = true
     ∨ flag_set (flags (inner rule)) SP_RULE_FLAG_MATCH_DST_IPV4 = true
     ∨ flag_set (flags (inner rule)) SP_RULE_FLAG_MATCH_SRC_PORT = true
     ∨ flag_set (flags (inner rule)) SP_RULE_FLAG_MATCH_DST_PORT = true
     ∨ flag_set (flags (inner rule)) SP_RULE_FLAG_MATCH_DSCP = true
     ∨ flag_set (flags (inner rule)) SP_RULE_FLAG_MATCH_PROTOCOL = true →
     skb_protocol skb ≠ ntohs ETH_P_IP →
     sp_mapdb_rule_match skb rule smac dmac = false).
Proof.
  intros Hat.
  assert (Hsrc : iph_protocol skb ≠ IPPROTO_TCP → iph_protocol skb ≠ IPPROTO_UDP →
            flag_set (flags (inner rule)) SP_RULE_FLAG_MATCH_SRC_PORT = true →
            sp_mapdb_rule_match skb rule smac dmac = true →
            xorb (0 =? src_port (inner rule))
              (flag_set (flags (inner rule)) SP_RULE_FLAG_MATCH_SRC_PORT_SENSE) = true).
  { intros Htcp Hudp Hf. rewrite rule_match_fields by done.
    rewrite !andb_true_iff. intros [_ Hip].
    apply match_ipv4_no_transport in Hip as [Hs _]; [|done..].
    unfold match_src_port in Hs. rewrite field_check_active in Hs by done.
    by rewrite ntohs_0 in Hs. }
  assert (Hdst : iph_protocol skb ≠ IPPROTO_TCP → iph_protocol skb ≠ IPPROTO_UDP →
            flag_set (flags (inner rule)) SP_RULE_FLAG_MATCH_DST_PORT = true →
            sp_mapdb_rule_match skb rule smac dmac = true →
            xorb (0 =? dst_port (inner rule))
              (flag_set (flags (inner rule)) SP_RULE_FLAG_MATCH_DST_PORT_SENSE) = true).
  { intros Htcp Hudp Hf. rewrite rule_match_fields by done.
    rewrite !andb_true_iff. intros [_ Hip].
    apply match_ipv4_no_transport in Hip as [_ Hd]; [|done..].
    unfold match_dst_port in Hd. rewrite field_check_active in Hd by done.
    by rewrite ntohs_0 in Hd. }
  split.
  - intros Htcp Hudp. split_and!.
    + by apply Hsrc.
    + by apply Hdst.
    + intros Hf Hsense Hport.
      destruct (sp_mapdb_rule_match skb rule smac dmac) eqn:Hm; [|done].
      specialize (Hsrc Htcp Hudp Hf eq_refl). rewrite Hsense in Hsrc.
      destruct (Z.eqb_spec 0 (src_port (inner rule))); [exfalso; lia | done].
    + intros Hf Hsense Hport.
      destruct (sp_mapdb_rule_match skb rule smac dmac) eqn:Hm; [|done].
      specialize (Hdst Htcp Hudp Hf eq_refl). rewrite Hsense in Hdst.
      destruct (Z.eqb_spec 0 (dst_port (inner rule))); [exfalso; lia | done].
  - intros Hany Hnotip. rewrite rule_match_fields by done.
    assert (Hg : flag_set (flags (inner rule)) ipv4_group = true).
    { rewrite flag_set_ipv4_group, !orb_true_iff. tauto. }
    unfold match_ipv4. rewrite Hg.
    destruct (Z.eqb_spec (skb_protocol skb) (ntohs ETH_P_IP)); [done|].
    by rewrite andb_false_r.
Qed.

(** A rule with the source-port flag, sense clear and source port 80 does not
    match an ICMP packet. *)
Lemma port_and_ipv4_matching_witness :
  sp_mapdb_rule_match (H := sp_header_example 3) (ipv4_packet 0 0 1)
    (mesh_rule 1 0 2048 0 80 5) 0 0 = false.
Proof.
  destruct (port_and_ipv4_matching (H := sp_header_example 3)
              (mesh_rule 1 0 2048 0 80 5) (ipv4_packet 0 0 1) 0 0) as [Hports _];
    [reflexivity|].
  destruct Hports as (_ & _ & Hsrc & _); [done | done |].
  apply Hsrc; [reflexivity | reflexivity | cbn; lia].
Defined.

(** The claim fails for a port of 0: the rule with only the source-port flag
    and source port 0 matches an IPv4 packet of IP protocol 1 (ICMP), which is
    neither TCP nor UDP. *)
Lemma port_and_ipv4_matching_counterexample :
  flag_set (flags (inner (mesh_rule 1 0 2048 0 0 5)))
    (SP_RULE_FLAG_MATCH_SRC_PORT (sp_header := sp_header_example 3)) = true
  ∧ skb_protocol (ipv4_packet 0 0 1) = ntohs ETH_P_IP
  ∧ iph_protocol (ipv4_packet 0 0 1) ≠ IPPROTO_TCP
  ∧ iph_protocol (ipv4_packet 0 0 1) ≠ IPPROTO_UDP
  ∧ sp_mapdb_rule_match (H := sp_header_example 3) (ipv4_packet 0 0 1)
      (mesh_rule 1 0 2048 0 0 5) 0 0 = true.
Proof. by split_and!. Qed.

(** ** What the SAWF matcher does to its parameters (claim C5) *)

Lemma ipv6_and_idemp a m : ipv6_and (ipv6_and a m) m = ipv6_and a m.
Proof.
  destruct a as [[[a0 a1] a2] a3], m as [[[m0 m1] m2] m3]. cbn.
  by rewrite <-!Z.land_assoc, !Z.land_diag.
Qed.

Section SawfFrame.
Context `{H : sp_header}.
Variable rule : sp_rule.

Lemma sawf_frame_refl p : sawf_frame rule p p.
Proof. split; auto. Qed.

Lemma sawf_frame_trans p1 p2 p3 :
  sawf_frame rule p1 p2 → sawf_frame rule p2 p3 → sawf_frame rule p1 p3.
Proof.
  intros H12 H23. split.
  - by rewrite (frame_src_mac _ _ _ H23), (frame_src_mac _ _ _ H12).
  - by rewrite (frame_src_port _ _ _ H23), (frame_src_port _ _ _ H12).
  - by rewrite (frame_dst_mac _ _ _ H23), (frame_dst_mac _ _ _ H12).
  - by rewrite (frame_dst_port _ _ _ H23), (frame_dst_port _ _ _ H12).
  - by rewrite (frame_ip_version_type _ _ _ H23), (frame_ip_version_type _ _ _ H12).
  - by rewrite (frame_dev_addr _ _ _ H23), (frame_dev_addr _ _ _ H12).
  - by rewrite (frame_ifindex _ _ _ H23), (frame_ifindex _ _ _ H12).
  - by rewrite (frame_protocol _ _ _ H23), (frame_protocol _ _ _ H12).
  - by rewrite (frame_dscp _ _ _ H23), (frame_dscp _ _ _ H12).
  - by rewrite (frame_vlan_tci _ _ _ H23), (frame_vlan_tci _ _ _ H12).
  - destruct (frame_src_ipv4 _ _ _ H23) as [E2|(? & ? & E2)],
      (frame_src_ipv4 _ _ _ H12) as [E1|(? & ? & E1)];
      rewrite E2, E1, <-?Z.land_assoc, ?Z.land_diag; auto.
  - destruct (frame_dst_ipv4 _ _ _ H23) as [E2|(? & ? & E2)],
      (frame_dst_ipv4 _ _ _ H12) as [E1|(? & ? & E1)];
      rewrite E2, E1, <-?Z.land_assoc, ?Z.land_diag; auto.
  - destruct (frame_src_ipv6 _ _ _ H23) as [E2|(? & ? & E2)],
      (frame_src_ipv6 _ _ _ H12) as [E1|(? & ? & E1)];
      rewrite E2, E1, ?ipv6_and_idemp; auto.
  - destruct (frame_dst_ipv6 _ _ _ H23) as [E2|(? & ? & E2)],
      (frame_dst_ipv6 _ _ _ H12) as [E1|(? & ? & E1)];
      rewrite E2, E1, ?ipv6_and_idemp; auto.
  - destruct (frame_spi _ _ _ H23) as [E2|(? & E2)],
      (frame_spi _ _ _ H12) as [E1|(? & E1)];
      rewrite E2, E1, <-?Z.land_assoc, ?Z.land_diag; auto.
Qed.

Lemma sawf_framed_guard f : sawf_framed rule (sawf_guard f).
Proof. intros p. apply sawf_frame_refl. Qed.

Lemma sawf_framed_seq c1 c2 :
  sawf_framed rule c1 → sawf_framed rule c2 → sawf_framed rule (c1 ;;; c2).
Proof.
  intros H1 H2 p. unfold sawf_seq. specialize (H1 p).
  destruct (c1 p) as [[|] p']; cbn [snd] in *; [|done].
  eapply sawf_frame_trans; [done | apply H2].
Qed.

Lemma sawf_framed_dst_ipv4 : sawf_framed rule (sawf_dst_ipv4 rule).
Proof.
  intros p. unfold sawf_dst_ipv4.
  destruct (flag_set _ SP_RULE_FLAG_MATCH_SAWF_DST_IPV4) eqn:Hf;
    [|apply sawf_frame_refl].
  destruct (flag_set _ SP_RULE_FLAG_MATCH_SAWF_DST_IPV4_MASK) eqn:Hm;
    [|apply sawf_frame_refl].
  split; cbn; auto.
Qed.

Lemma sawf_framed_src_ipv4 : sawf_framed rule (sawf_src_ipv4 rule).
Proof.
  intros p. unfold sawf_src_ipv4.
  destruct (flag_set _ SP_RULE_FLAG_MATCH_SAWF_SRC_IPV4) eqn:Hf;
    [|apply sawf_frame_refl].
  destruct (flag_set _ SP_RULE_FLAG_MATCH_SAWF_SRC_IPV4_MASK) eqn:Hm;
    [|apply sawf_frame_refl].
  split; cbn; auto.
Qed.

Lemma sawf_framed_src_ipv6 : sawf_framed rule (sawf_src_ipv6 rule).
Proof.
  intros p. unfold sawf_src_ipv6.
  destruct (flag_set _ SP_RULE_FLAG_MATCH_SAWF_SRC_IPV6) eqn:Hf;
    [|apply sawf_frame_refl].
  destruct (flag_set _ SP_RULE_FLAG_MATCH_SAWF_SRC_IPV6_MASK) eqn:Hm;
    [|apply sawf_frame_refl].
  split; cbn [snd Params.set_src Params.set_ipv6_addr Params.src Params.dst Params.ip
              Params.ipv4_addr Params.ipv6_addr Params.mac Params.port
              Params.ip_version_type Params.dev_addr Params.ifindex Params.protocol
              Params.dscp Params.vlan_tci Params.spi]; auto.
Qed.

Lemma sawf_framed_dst_ipv6 : sawf_framed rule (sawf_dst_ipv6 rule).
Proof.
  intros p. unfold sawf_dst_ipv6.
  destruct (flag_set _ SP_RULE_FLAG_MATCH_SAWF_DST_IPV6) eqn:Hf;
    [|apply sawf_frame_refl].
  destruct (flag_set _ SP_RULE_FLAG_MATCH_SAWF_DST_IPV6_MASK) eqn:Hm;
    [|apply sawf_frame_refl].
  split; cbn [snd Params.set_dst Params.set_ipv6_addr Params.src Params.dst Params.ip
              Params.ipv4_addr Params.ipv6_addr Params.mac Params.port
              Params.ip_version_type Params.dev_addr Params.ifindex Params.protocol
              Params.dscp Params.vlan_tci Params.spi]; auto.
Qed.

Lemma sawf_framed_spi : sawf_framed rule (sawf_spi rule).
Proof.
  intros p. unfold sawf_spi.
  destruct (flag_set _ SP_RULE_FLAG_MATCH_SCS_SPI) eqn:Hf; [|apply sawf_frame_refl].
  split; cbn; auto.
Qed.

Lemma sawf_framed_match : sawf_framed rule (sp_mapdb_rule_match_sawf rule).
Proof.
  unfold sp_mapdb_rule_match_sawf.
  repeat (apply sawf_framed_seq;
          [first [ apply sawf_framed_guard | apply sawf_framed_dst_ipv4
                 | apply sawf_framed_src_ipv4 | apply sawf_framed_src_ipv6
                 | apply sawf_framed_dst_ipv6 ] |]).
  apply sawf_framed_spi.
Qed.

End SawfFrame.

Lemma params_ext (p p' : sp_rule_input_params) :
  Params.mac (Params.src p') = Params.mac (Params.src p) →
  Params.port (Params.src p') = Params.port (Params.src p) →
  Params.mac (Params.dst p') = Params.mac (Params.dst p) →
  Params.port (Params.dst p') = Params.port (Params.dst p) →
  Params.ip_version_type p' = Params.ip_version_type p →
  Params.dev_addr p' = Params.dev_addr p →
  Params.ifindex p' = Params.ifindex p →
  Params.protocol p' = Params.protocol p →
  Params.dscp p' = Params.dscp p →
  Params.vlan_tci p' = Params.vlan_tci p →
  Params.ipv4_addr (Params.ip (Params.src p')) = Params.ipv4_addr (Params.ip (Params.src p)) →
  Params.ipv4_addr (Params.ip (Params.dst p')) = Params.ipv4_addr (Params.ip (Params.dst p)) →
  Params.ipv6_addr (Params.ip (Params.src p')) = Params.ipv6_addr (Params.ip (Params.src p)) →
  Params.ipv6_addr (Params.ip (Params.dst p')) = Params.ipv6_addr (Params.ip (Params.dst p)) →
  Params.spi p' = Params.spi p →
  p' = p.
Proof.
  destruct p as [[[s4 s6] sm sp] [[d4 d6] dm dp] v da ix pr ds tci spi].
  destruct p' as [[[s4' s6'] sm' sp'] [[d4' d6'] dm' dp'] v' da' ix' pr' ds' tci' spi'].
  cbn. intros. by subst.
Qed.

(** A rule without a masked comparison leaves the parameters alone. *)
Lemma sawf_no_writes `{H : sp_header} rule p :
  sawf_writes rule = false → snd (sp_mapdb_rule_match_sawf rule p) = p.
Proof.
  pose proof (sawf_framed_match rule p) as Hf.
  unfold sawf_writes. rewrite !orb_false_iff, !andb_false_iff.
  intros ((((Hd4 & Hs4) & Hs6) & Hd6) & Hspi).
  apply params_ext; try apply Hf.
  - destruct (frame_src_ipv4 _ _ _ Hf) as [?|(? & ? & ?)]; [done|].
    destruct Hs4; congruence.
  - destruct (frame_dst_ipv4 _ _ _ Hf) as [?|(? & ? & ?)]; [done|].
    destruct Hd4; congruence.
  - destruct (frame_src_ipv6 _ _ _ Hf) as [?|(? & ? & ?)]; [done|].
    destruct Hs6; congruence.
  - destruct (frame_dst_ipv6 _ _ _ Hf) as [?|(? & ? & ?)]; [done|].
    destruct Hd6; congruence.
  - destruct (frame_spi _ _ _ Hf) as [?|(? & ?)]; [done|]. congruence.
Qed.

(** ** Where the SAWF matcher stores a masked value *)

Section SawfStores.




End SawfStores.



Section SawfStored.
Context `{H : sp_header}.
Variable rule : sp_rule.












End SawfStored.



(** ** MSCS classification (claim C9) *)

(** A table with a live rule is not empty. *)
Lemma nonempty_count st A :
  store_inv st → A ∈ live_rules st → (rule_count st =? 0) = false.
Proof.
  intros Hinv HA. apply Z.eqb_neq. rewrite (inv_count _ Hinv).
  rewrite <-(inv_index _ Hinv) in HA.
  destruct (rule_id_hashmap st); [by apply not_elem_of_nil in HA|cbn [length]; lia].
Qed.





Section Mscs.
Context `{H : sp_header} `{SH : int_shift}.
Variable skb : sk_buff.
















End Mscs.

Lemma scan_order_join pm : scan_order pm (length pm) ≡ₚ mjoin pm.
Proof.
  induction pm as [|b pm IH] using rev_ind; [done|].
  rewrite length_app, Nat.add_1_r. cbn [scan_order].
  unfold bucket at 1. rewrite lookup_app_r, Nat.sub_diag by lia.
  replace (default [] ([b] !! 0%nat)) with b by done.
  rewrite join_app. cbn [mjoin list_join]. rewrite app_nil_r.
  rewrite Permutation_app_comm. f_equiv.
  rewrite <-IH. clear IH.
  assert (Hpre : ∀ n, (n ≤ length pm)%nat → scan_order (pm ++ [b]) n = scan_order pm n).
  { induction n as [|i IHn]; intros Hn; cbn [scan_order]; [done|].
    rewrite IHn by lia. f_equal. unfold bucket. by rewrite lookup_app_l by lia. }
  by rewrite Hpre.
Qed.

Lemma scan_order_live st :
  table_inv st →
  scan_order (prec_map st) (Z.to_nat SP_MAPDB_RULE_MAX_PRECEDENCENUM) ≡ₚ live_rules st.
Proof.
  intros [Hinv _]. rewrite <-(inv_buckets _ Hinv). apply scan_order_join.
Qed.




(** * Further properties of the rule database *)

(** ** Replies of the updater and the table they leave *)

Section UpdaterErrors.
Context `{H : sp_header}.

Lemma rule_add_error st r rule_type alloc_node alloc_hash :
  is_success (fst (sp_mapdb_rule_add st r rule_type alloc_node alloc_hash)) = false →
  snd (sp_mapdb_rule_add st r rule_type alloc_node alloc_hash) = st.
Proof.
  unfold sp_mapdb_rule_add.
  destruct (_ =? _); [done|]. destruct (_ >=? _); [done|].
  destruct alloc_node; [|done]. cbn [negb].
  destruct (sp_mapdb_search_hashentry _ _ _) as [[i cur]|].
  - by destruct (_ =? _).
  - by destruct alloc_hash.
Qed.

Lemma rule_delete_error st ruleid rule_type :
  is_success (fst (sp_mapdb_rule_delete st ruleid rule_type)) = false →
  snd (sp_mapdb_rule_delete st ruleid rule_type) = st.
Proof.
  unfold sp_mapdb_rule_delete. destruct (_ =? _); [done|].
  by destruct (sp_mapdb_search_hashentry _ _ _) as [[i cur]|].
Qed.

Lemma rule_update_error st newrule alloc_node alloc_hash :
  is_success (fst (sp_mapdb_rule_update st newrule alloc_node alloc_hash)) = false →
  snd (sp_mapdb_rule_update st newrule alloc_node alloc_hash) = st.
Proof.
  unfold sp_mapdb_rule_update. destruct newrule as [r|]; [|done].
  destruct (single_writer st) eqn:Hw; [done|].
  destruct (cmd r =? SP_MAPDB_ADD_REMOVE_FILTER_DELETE).
  - pose proof (rule_delete_error (set_single_writer st true) (id r) (classifier_type r))
      as He.
    destruct (sp_mapdb_rule_delete _ _ _) as [code st']. cbn [fst snd] in *.
    intros Hc. rewrite (He Hc). by apply set_single_writer_unlock.
  - destruct (cmd r =? SP_MAPDB_ADD_REMOVE_FILTER_ADD).
    + pose proof (rule_add_error (set_single_writer st true) r (classifier_type r)
                    alloc_node alloc_hash) as He.
      destruct (sp_mapdb_rule_add _ _ _ _ _) as [code st']. cbn [fst snd] in *.
      intros Hc. rewrite (He Hc). by apply set_single_writer_unlock.
    + intros _. cbn [snd]. by apply set_single_writer_unlock.
Qed.

End UpdaterErrors.

(** X1.  A request that sp_mapdb_rule_update() answers with anything but one
    of its three success codes -- a null rule, a writer already at work, an
    unknown command, a full or an empty table, an output out of range, a
    failed allocation, a rule that is not there -- leaves the table exactly as
    it was: buckets, hash table, count and writer flag. *)
Theorem update_error_keeps_table `{H : sp_header} (st : sp_mapdb_state)
    (newrule : option sp_rule) (alloc_node alloc_hash : bool) :
  is_success (fst (sp_mapdb_rule_update st newrule alloc_node alloc_hash)) = false →
  snd (sp_mapdb_rule_update st newrule alloc_node alloc_hash) = st.
Proof. apply rule_update_error. Qed.

Lemma update_error_keeps_table_witness :
  snd (sp_mapdb_rule_update (H := sp_header_example 3)
         (sp_mapdb_run (H := sp_header_example 3) (take 6 ops_example))
         (Some (mesh_rule 8 4 1 0 0 12)) true true)
  = sp_mapdb_run (H := sp_header_example 3) (take 6 ops_example).
Proof.
  apply (update_error_keeps_table (H := sp_header_example 3)). reflexivity.
Defined.

(** ** Adding, looking up and deleting *)

Lemma search_set_single_writer st b ruleid rule_type :
  sp_mapdb_search_hashentry (set_single_writer st b) ruleid rule_type
  = sp_mapdb_search_hashentry st ruleid rule_type.
Proof. done. Qed.

Lemma NoDup_delete_lookup {A} (l : list A) i x :
  NoDup l → l !! i = Some x → x ∉ delete i l.
Proof.
  intros Hnd Hi. rewrite (delete_Permutation l i x Hi) in Hnd.
  by apply NoDup_cons in Hnd as [? _].
Qed.

Lemma filter_ext_elem {A} (P Q : A → Prop) `{!∀ x, Decision (P x)} `{!∀ x, Decision (Q x)}
    (l : list A) :
  (∀ x, x ∈ l → P x ↔ Q x) → filter P l = filter Q l.
Proof.
  induction l as [|y l IH]; intros Hl; [done|].
  assert (Hy : P y ↔ Q y) by (apply Hl; left).
  assert (Hr : filter P l = filter Q l) by (apply IH; intros x Hx; apply Hl; by right).
  destruct (decide (P y)) as [Hp|Hp].
  - rewrite !filter_cons_True by tauto. by rewrite Hr.
  - rewrite !filter_cons_False by tauto. done.
Qed.

Lemma filter_all {A} (P : A → Prop) `{!∀ x, Decision (P x)} (l : list A) :
  (∀ x, x ∈ l → P x) → filter P l = l.
Proof.
  induction l as [|y l IH]; intros Hl; [done|].
  rewrite filter_cons_True by (apply Hl; left).
  f_equal. apply IH. intros x Hx. apply Hl. by right.
Qed.

Lemma elem_of_join_alter_cons (pm : list (list sp_mapdb_rule_node)) x i n :
  n ∈ mjoin (alter (cons x) i pm) → n = x ∨ n ∈ mjoin pm.
Proof.
  revert i. induction pm as [|b pm IH]; intros i; [by intros ?%not_elem_of_nil|].
  destruct i as [|i]; csimpl.
  - rewrite !elem_of_cons, !elem_of_app. tauto.
  - change (list_alter (cons x) i pm) with (alter (cons x) i pm).
    rewrite !elem_of_app. intros [?|Hn]; [tauto|]. apply IH in Hn. tauto.
Qed.

Lemma join_nil_replicate (pm : list (list sp_mapdb_rule_node)) :
  mjoin pm = [] → pm = replicate (length pm) [].
Proof.
  induction pm as [|b pm IH]; csimpl; [done|].
  intros [-> Hpm]%app_eq_nil. by rewrite <-IH.
Qed.

Lemma fmap_nil_replicate (pm : list (list sp_mapdb_rule_node)) :
  (fun _ => []) <$> pm = replicate (length pm) (@nil sp_mapdb_rule_node).
Proof. induction pm as [|b pm IH]; csimpl; [done|]. by rewrite IH. Qed.

Section FindFrame.
Context {A : Type} (P : A → Prop) `{!∀ x, Decision (P x)}.

Lemma list_find_insert_other (l : list A) i y :
  ¬ P y → (∀ x, l !! i = Some x → ¬ P x) →
  snd <$> list_find P (<[i := y]> l) = snd <$> list_find P l.
Proof.
  intros Hy. revert i. induction l as [|z l IH]; intros i Hx; [done|].
  destruct i as [|i]; csimpl.
  - rewrite decide_False by done. rewrite decide_False by (by apply Hx).
    done.
  - destruct (decide (P z)); [done|].
    rewrite <-!option_fmap_compose.
    specialize (IH i (fun x Hi => Hx x Hi)).
    destruct (list_find P (<[i:=y]> l)) as [[j a]|], (list_find P l) as [[j' a']|];
      cbn in *; congruence.
Qed.

Lemma list_find_delete_other (l : list A) i :
  (∀ x, l !! i = Some x → ¬ P x) →
  snd <$> list_find P (delete i l) = snd <$> list_find P l.
Proof.
  revert i. induction l as [|z l IH]; intros i Hx; [done|].
  destruct i as [|i]; csimpl.
  - rewrite decide_False by (by apply Hx).
    rewrite <-option_fmap_compose. by destruct (list_find P l) as [[j a]|].
  - destruct (decide (P z)); [done|].
    rewrite <-!option_fmap_compose.
    specialize (IH i (fun x Hi => Hx x Hi)).
    destruct (list_find P (delete i l)) as [[j a]|], (list_find P l) as [[j' a']|];
      cbn in *; congruence.
Qed.

Lemma list_find_cons_other (l : list A) y :
  ¬ P y → snd <$> list_find P (y :: l) = snd <$> list_find P l.
Proof.
  intros Hy. csimpl. rewrite decide_False by done.
  rewrite <-option_fmap_compose. by destruct (list_find P l) as [[j a]|].
Qed.

End FindFrame.

Section UpdaterMore.
Context `{H : sp_header}.

Lemma stored_rule_key r rule_type a :
  node_key {| node_addr := a; rule := stored_rule r rule_type |} = (id r, rule_type).
Proof. apply stored_key. Qed.

(** A successful add leaves the new node in the hash table. *)
Lemma add_success_indexed st r rule_type alloc_node alloc_hash :
  is_success (fst (sp_mapdb_rule_add st r rule_type alloc_node alloc_hash)) = true →
  {| node_addr := next_node st; rule := stored_rule r rule_type |}
  ∈ rule_id_hashmap (snd (sp_mapdb_rule_add st r rule_type alloc_node alloc_hash)).
Proof.
  unfold sp_mapdb_rule_add. fold (stored_rule r rule_type).
  destruct (_ =? _); [done|]. destruct (_ >=? _); [done|].
  destruct alloc_node; [|done]. cbn [negb].
  destruct (sp_mapdb_search_hashentry _ _ _) as [[i cur]|] eqn:Hs.
  - apply search_hashentry_Some in Hs as [Hi _].
    assert (Hin : {| node_addr := next_node st; rule := stored_rule r rule_type |}
                  ∈ <[i := {| node_addr := next_node st; rule := stored_rule r rule_type |}]>
                      (rule_id_hashmap st)).
    { eapply list_elem_of_lookup_2. apply list_lookup_insert_eq. by eapply lookup_lt_Some. }
    by destruct (_ =? _).
  - destruct alloc_hash; [|done]. intros _. cbn. by left.
Qed.

(** The reply of an add request says whether the key was there. *)
Lemma add_reply st r rule_type alloc_node alloc_hash :
  (fst (sp_mapdb_rule_add st r rule_type alloc_node alloc_hash)
   = SP_MAPDB_UPDATE_RESULT_SUCCESS_ADD →
   sp_mapdb_search_hashentry st (id r) rule_type = None
   ∧ rule_count (snd (sp_mapdb_rule_add st r rule_type alloc_node alloc_hash))
     = rule_count st + 1
   ∧ rule_id_hashmap (snd (sp_mapdb_rule_add st r rule_type alloc_node alloc_hash))
     = {| node_addr := next_node st; rule := stored_rule r rule_type |}
       :: rule_id_hashmap st
   ∧ prec_map (snd (sp_mapdb_rule_add st r rule_type alloc_node alloc_hash))
     = list_add_rcu {| node_addr := next_node st; rule := stored_rule r rule_type |}
         (rule_precedence (stored_rule r rule_type)) (prec_map st))
  ∧ (fst (sp_mapdb_rule_add st r rule_type alloc_node alloc_hash)
     = SP_MAPDB_UPDATE_RESULT_SUCCESS_MODIFY →
     is_Some (sp_mapdb_search_hashentry st (id r) rule_type)
     ∧ rule_count (snd (sp_mapdb_rule_add st r rule_type alloc_node alloc_hash))
       = rule_count st
     ∧ node_key <$> rule_id_hashmap
                      (snd (sp_mapdb_rule_add st r rule_type alloc_node alloc_hash))
       = node_key <$> rule_id_hashmap st).
Proof.
  unfold sp_mapdb_rule_add. fold (stored_rule r rule_type).
  destruct (_ =? _); [done|]. destruct (_ >=? _); [done|].
  destruct alloc_node; [|done]. cbn [negb].
  destruct (sp_mapdb_search_hashentry _ _ _) as [[i cur]|] eqn:Hs.
  - apply search_hashentry_Some in Hs as [Hi Hk].
    assert (Hkeys : node_key <$> <[i := {| node_addr := next_node st;
                                            rule := stored_rule r rule_type |}]>
                                   (rule_id_hashmap st)
                    = node_key <$> rule_id_hashmap st).
    { rewrite list_fmap_insert, stored_rule_key, <-Hk.
      apply list_insert_id. by rewrite list_lookup_fmap, Hi. }
    destruct (_ =? _); cbn [fst snd rule_count rule_id_hashmap]; (split; [done|]);
      intros _; split_and!; done.
  - destruct alloc_hash; [|done]. cbn [negb fst snd rule_count rule_id_hashmap prec_map].
    split; [|done]. intros _. split_and!; done.
Qed.

(** When an add request succeeds. *)
Lemma add_succeeds st r rule_type alloc_hash :
  rule_count st ≠ SP_MAPDB_RULE_MAX →
  rule_output (inner r) < SP_MAPDB_NO_MATCH →
  fst (sp_mapdb_rule_add st r rule_type true alloc_hash)
  = match sp_mapdb_search_hashentry st (id r) rule_type with
    | Some _ => SP_MAPDB_UPDATE_RESULT_SUCCESS_MODIFY
    | None => if alloc_hash then SP_MAPDB_UPDATE_RESULT_SUCCESS_ADD
              else SP_MAPDB_UPDATE_RESULT_ERR_ALLOCHASH
    end.
Proof.
  intros Hfull Hout. unfold sp_mapdb_rule_add.
  destruct (Z.eqb_spec (rule_count st) SP_MAPDB_RULE_MAX); [done|].
  destruct (Z.geb_spec (rule_output (inner r)) SP_MAPDB_NO_MATCH); [lia|].
  cbn [negb].
  destruct (sp_mapdb_search_hashentry _ _ _) as [[i cur]|].
  - by destruct (_ =? _).
  - by destruct alloc_hash.
Qed.

(** Every node that is live after an add request was live before, or is the
    node of the request, whose output passed the range test. *)
Lemma add_live_rules st r rule_type alloc_node alloc_hash n :
  n ∈ live_rules (snd (sp_mapdb_rule_add st r rule_type alloc_node alloc_hash)) →
  n ∈ live_rules st
  ∨ (rule n = stored_rule r rule_type ∧ rule_output (inner r) < SP_MAPDB_NO_MATCH).
Proof.
  unfold sp_mapdb_rule_add, live_rules. fold (stored_rule r rule_type).
  destruct (_ =? _); [by left|].
  destruct (Z.geb_spec (rule_output (inner r)) SP_MAPDB_NO_MATCH) as [|Hout]; [by left|].
  destruct alloc_node; [|by left]. cbn [negb].
  destruct (sp_mapdb_search_hashentry _ _ _) as [[i cur]|].
  - destruct (_ =? _); cbn [snd prec_map].
    + unfold list_replace_rcu. rewrite join_fmap_fmap.
      intros (x & -> & Hx)%list_elem_of_fmap. case_decide; [by right|by left].
    + unfold list_add_rcu. intros [->|Hn]%elem_of_join_alter_cons; [by right|].
      left. unfold list_del_rcu in Hn. rewrite join_fmap_filter in Hn.
      by apply list_elem_of_filter in Hn as [_ ?].
  - destruct alloc_hash; [|by left]. cbn [negb snd prec_map].
    unfold list_add_rcu. intros [->|Hn]%elem_of_join_alter_cons; [by right|by left].
Qed.

Lemma delete_live_rules st ruleid rule_type n :
  n ∈ live_rules (snd (sp_mapdb_rule_delete st ruleid rule_type)) → n ∈ live_rules st.
Proof.
  unfold sp_mapdb_rule_delete, live_rules. destruct (_ =? _); [done|].
  destruct (sp_mapdb_search_hashentry _ _ _) as [[i cur]|]; [|done].
  cbn [snd prec_map]. unfold list_del_rcu. rewrite join_fmap_filter.
  by intros [_ ?]%list_elem_of_filter.
Qed.

Lemma update_live_rules st newrule alloc_node alloc_hash n :
  n ∈ live_rules (snd (sp_mapdb_rule_update st newrule alloc_node alloc_hash)) →
  n ∈ live_rules st
  ∨ ∃ r, newrule = Some r ∧ rule n = stored_rule r (classifier_type r)
         ∧ rule_output (inner r) < SP_MAPDB_NO_MATCH.
Proof.
  unfold sp_mapdb_rule_update. destruct newrule as [r|]; [|by left].
  destruct (single_writer st); [by left|].
  destruct (cmd r =? SP_MAPDB_ADD_REMOVE_FILTER_DELETE).
  - pose proof (delete_live_rules (set_single_writer st true) (id r) (classifier_type r) n)
      as Hd.
    destruct (sp_mapdb_rule_delete _ _ _) as [code st']. cbn [snd] in *.
    intros Hn. left. by apply Hd.
  - destruct (cmd r =? SP_MAPDB_ADD_REMOVE_FILTER_ADD); [|by left].
    pose proof (add_live_rules (set_single_writer st true) r (classifier_type r)
                  alloc_node alloc_hash n) as Ha.
    destruct (sp_mapdb_rule_add _ _ _ _ _) as [code st']. cbn [snd] in *.
    intros Hn. destruct (Ha Hn) as [?|[? ?]]; [by left|]. right. by exists r.
Qed.

End UpdaterMore.

(** X2.  Insert, then look up.  After an add request that the updater
    accepted (as a new rule or as a modification), in any table the updater
    can produce, sp_mapdb_search_hashentry() finds the key of the request;
    the node it finds holds the rule of the request (precedence 255 stored as
    0), is linked in the bucket of that precedence, and is the only linked
    node with this key. *)
Theorem update_add_lookup `{H : sp_header} (ops : list sp_mapdb_op) (r : sp_rule)
    (alloc_node alloc_hash : bool) :
  Forall op_well_typed ops → rule_well_typed r →
  cmd r = SP_MAPDB_ADD_REMOVE_FILTER_ADD →
  SP_MAPDB_ADD_REMOVE_FILTER_DELETE ≠ SP_MAPDB_ADD_REMOVE_FILTER_ADD →
  is_success (fst (sp_mapdb_rule_update (sp_mapdb_run ops) (Some r)
                     alloc_node alloc_hash)) = true →
  ∃ i node,
    sp_mapdb_search_hashentry
      (snd (sp_mapdb_rule_update (sp_mapdb_run ops) (Some r) alloc_node alloc_hash))
      (id r) (classifier_type r) = Some (i, node)
    ∧ rule node = stored_rule r (classifier_type r)
    ∧ node ∈ bucket
        (prec_map (snd (sp_mapdb_rule_update (sp_mapdb_run ops) (Some r)
                          alloc_node alloc_hash)))
        (Z.to_nat (rule_precedence (rule node)))
    ∧ ∀ j n,
        n ∈ bucket
          (prec_map (snd (sp_mapdb_rule_update (sp_mapdb_run ops) (Some r)
                            alloc_node alloc_hash))) j →
        node_key n = (id r, classifier_type r) →
        n = node ∧ j = Z.to_nat (rule_precedence (rule node)).
Proof.
  intros Hops Hr Hc Hne. set (st := sp_mapdb_run ops).
  pose proof (table_inv_run ops Hops) as Hinv. fold st in Hinv.
  pose proof (table_inv_update st (Some r) alloc_node alloc_hash Hr Hinv) as [Hinv' _].
  destruct Hinv as [Hinv Hw].
  rewrite update_add in Hinv' |- * by done. cbn [fst snd] in *.
  intros Hok.
  pose proof (add_success_indexed _ _ _ _ _ Hok) as Hin.
  set (st1 := snd (sp_mapdb_rule_add (set_single_writer st true) r (classifier_type r)
                     alloc_node alloc_hash)) in *.
  set (new := {| node_addr := next_node (set_single_writer st true);
                 rule := stored_rule r (classifier_type r) |}) in *.
  set (st' := set_single_writer st1 false) in *.
  assert (Hin' : new ∈ rule_id_hashmap st') by done.
  assert (Hkey : node_key new = (id r, classifier_type r)) by apply stored_rule_key.
  destruct (sp_mapdb_search_hashentry st' (id r) (classifier_type r))
    as [[i node]|] eqn:Hs.
  - apply search_hashentry_Some in Hs as [Hi Hk].
    assert (node = new) as ->.
    { eapply (NoDup_fmap_eq node_key (rule_id_hashmap st'));
        [apply (inv_keys _ Hinv') | by eapply list_elem_of_lookup_2 | done | congruence]. }
    assert (Hlive : new ∈ mjoin (prec_map st')).
    { pose proof (inv_index _ Hinv') as Hidx. unfold live_rules in Hidx. by rewrite <-Hidx. }
    apply elem_of_join_bucket in Hlive as (j & _ & Hj).
    pose proof (inv_prec _ Hinv' _ _ Hj) as Hpj.
    assert (Hjj : Z.to_nat (rule_precedence (rule new)) = j) by lia.
    exists i, new. split; [done|]. split; [done|]. split; [by rewrite Hjj|].
    intros j' n Hn Hkn. rewrite Hjj.
    eapply (live_key_unique st'); [done..|congruence].
  - apply search_hashentry_None in Hs. exfalso. apply Hs.
    apply list_elem_of_fmap. by exists new.
Qed.

Lemma update_add_lookup_witness :
  ∃ i node,
    sp_mapdb_search_hashentry
      (snd (sp_mapdb_rule_update (H := sp_header_example 3)
              (sp_mapdb_run (H := sp_header_example 3) (take 2 ops_example))
              (Some (mesh_rule 2 255 1 0 0 6)) true true))
      2 0 = Some (i, node)
    ∧ rule node = stored_rule (mesh_rule 2 255 1 0 0 6) 0
    ∧ node ∈ bucket
        (prec_map (snd (sp_mapdb_rule_update (H := sp_header_example 3)
                          (sp_mapdb_run (H := sp_header_example 3) (take 2 ops_example))
                          (Some (mesh_rule 2 255 1 0 0 6)) true true)))
        (Z.to_nat (rule_precedence (rule node)))
    ∧ ∀ j n,
        n ∈ bucket
          (prec_map (snd (sp_mapdb_rule_update (H := sp_header_example 3)
                            (sp_mapdb_run (H := sp_header_example 3) (take 2 ops_example))
                            (Some (mesh_rule 2 255 1 0 0 6)) true true))) j →
        node_key n = (2, 0) →
        n = node ∧ j = Z.to_nat (rule_precedence (rule node)).
Proof.
  refine (update_add_lookup (H := sp_header_example 3) (take 2 ops_example)
            (mesh_rule 2 255 1 0 0 6) true true _ _ _ _ _).
  - repeat constructor; cbn; lia.
  - unfold rule_well_typed. cbn. lia.
  - reflexivity.
  - cbn. lia.
  - reflexivity.
Defined.

(** X3.  What the reply to an add request says.  In any table the updater
    can produce: the reply is success-add only if the key (id, rule type) was
    not live, and then the count grows by one and the live keys are the old
    ones and the new one; it is success-modify only if the key was live, and
    then the count and the set of live keys stay as they were.  If the table
    is not full, the output is in range and the node can be allocated, a live
    key gives success-modify (no hash entry is allocated) and a new key gives
    success-add or, without memory for the hash entry, the allocation
    error. *)
Theorem update_add_reply `{H : sp_header} (ops : list sp_mapdb_op) (r : sp_rule)
    (alloc_node alloc_hash : bool) :
  Forall op_well_typed ops → rule_well_typed r →
  cmd r = SP_MAPDB_ADD_REMOVE_FILTER_ADD →
  SP_MAPDB_ADD_REMOVE_FILTER_DELETE ≠ SP_MAPDB_ADD_REMOVE_FILTER_ADD →
  (fst (sp_mapdb_rule_update (sp_mapdb_run ops) (Some r) alloc_node alloc_hash)
   = SP_MAPDB_UPDATE_RESULT_SUCCESS_ADD →
   ((id r, classifier_type r) ∉ node_key <$> live_rules (sp_mapdb_run ops))
   ∧ rule_count (snd (sp_mapdb_rule_update (sp_mapdb_run ops) (Some r)
                        alloc_node alloc_hash))
     = rule_count (sp_mapdb_run ops) + 1
   ∧ node_key <$> live_rules (snd (sp_mapdb_rule_update (sp_mapdb_run ops) (Some r)
                                     alloc_node alloc_hash))
     ≡ₚ (id r, classifier_type r) :: (node_key <$> live_rules (sp_mapdb_run ops)))
  ∧ (fst (sp_mapdb_rule_update (sp_mapdb_run ops) (Some r) alloc_node alloc_hash)
     = SP_MAPDB_UPDATE_RESULT_SUCCESS_MODIFY →
     (id r, classifier_type r) ∈ node_key <$> live_rules (sp_mapdb_run ops)
     ∧ rule_count (snd (sp_mapdb_rule_update (sp_mapdb_run ops) (Some r)
                          alloc_node alloc_hash))
       = rule_count (sp_mapdb_run ops)
     ∧ node_key <$> live_rules (snd (sp_mapdb_rule_update (sp_mapdb_run ops) (Some r)
                                       alloc_node alloc_hash))
       ≡ₚ node_key <$> live_rules (sp_mapdb_run ops))
  ∧ (rule_count (sp_mapdb_run ops) ≠ SP_MAPDB_RULE_MAX →
     rule_output (inner r) < SP_MAPDB_NO_MATCH →
     alloc_node = true →
     fst (sp_mapdb_rule_update (sp_mapdb_run ops) (Some r) alloc_node alloc_hash)
     = if decide ((id r, classifier_type r) ∈ node_key <$> live_rules (sp_mapdb_run ops))
       then SP_MAPDB_UPDATE_RESULT_SUCCESS_MODIFY
       else if alloc_hash then SP_MAPDB_UPDATE_RESULT_SUCCESS_ADD
            else SP_MAPDB_UPDATE_RESULT_ERR_ALLOCHASH).
Proof.
  intros Hops Hr Hc Hne. set (st := sp_mapdb_run ops).
  pose proof (table_inv_run ops Hops) as Hinv. fold st in Hinv.
  pose proof (table_inv_update st (Some r) alloc_node alloc_hash Hr Hinv) as [Hinv' _].
  destruct Hinv as [Hinv Hw].
  pose proof (inv_index _ Hinv) as Hidx.
  pose proof (inv_index _ Hinv') as Hidx'.
  rewrite update_add in Hidx' |- * by done. cbn [fst snd] in *.
  unfold live_rules in Hidx' |- *. cbn [set_single_writer prec_map rule_id_hashmap rule_count] in *.
  fold (live_rules st) in *.
  destruct (add_reply (set_single_writer st true) r (classifier_type r)
              alloc_node alloc_hash) as [Hadd Hmod].
  rewrite search_set_single_writer in Hadd, Hmod.
  cbn [set_single_writer rule_count rule_id_hashmap prec_map] in Hadd, Hmod.
  split; [|split].
  - intros Hcode. destruct (Hadd Hcode) as (Hs & Hcnt & Hhash & _).
    apply search_hashentry_None in Hs. rewrite Hidx in Hs.
    split; [done|]. split; [done|].
    rewrite <-Hidx', Hhash, fmap_cons, stored_rule_key. by rewrite Hidx.
  - intros Hcode. destruct (Hmod Hcode) as ([[i cur] Hs] & Hcnt & Hkeys).
    apply search_hashentry_Some in Hs as [Hi Hk].
    split; [|split; [done|]].
    + rewrite <-Hidx, <-Hk. apply list_elem_of_fmap_2. by eapply list_elem_of_lookup_2.
    + by rewrite <-Hidx', Hkeys, Hidx.
  - intros Hfull Hout ->.
    rewrite add_succeeds by done. rewrite search_set_single_writer.
    destruct (sp_mapdb_search_hashentry st (id r) (classifier_type r))
      as [[i cur]|] eqn:Hs.
    + apply search_hashentry_Some in Hs as [Hi Hk].
      rewrite decide_True; [done|].
      rewrite <-Hidx, <-Hk. apply list_elem_of_fmap_2. by eapply list_elem_of_lookup_2.
    + apply search_hashentry_None in Hs. rewrite Hidx in Hs.
      by rewrite decide_False.
Qed.

Lemma update_add_reply_witness :
  fst (sp_mapdb_rule_update (H := sp_header_example 3)
         (sp_mapdb_run (H := sp_header_example 3) (take 2 ops_example))
         (Some (mesh_rule 1 10 1 0 0 4)) true false)
  = SP_MAPDB_UPDATE_RESULT_SUCCESS_MODIFY
  ∧ fst (sp_mapdb_rule_update (H := sp_header_example 3)
           (sp_mapdb_run (H := sp_header_example 3) (take 2 ops_example))
           (Some (mesh_rule 5 10 1 0 0 4)) true true)
    = SP_MAPDB_UPDATE_RESULT_SUCCESS_ADD.
Proof.
  split.
  - refine (proj2 (proj2 (update_add_reply (H := sp_header_example 3)
                            (take 2 ops_example) (mesh_rule 1 10 1 0 0 4) true false
                            _ _ _ _)) _ _ _).
    + repeat constructor; cbn; lia.
    + unfold rule_well_typed. cbn. lia.
    + reflexivity.
    + cbn. lia.
    + vm_compute. lia.
    + cbn. lia.
    + reflexivity.
  - refine (proj2 (proj2 (update_add_reply (H := sp_header_example 3)
                            (take 2 ops_example) (mesh_rule 5 10 1 0 0 4) true true
                            _ _ _ _)) _ _ _).
    + repeat constructor; cbn; lia.
    + unfold rule_well_typed. cbn. lia.
    + reflexivity.
    + cbn. lia.
    + vm_compute. lia.
    + cbn. lia.
    + reflexivity.
Defined.

(** X4.  Deleting a live rule.  In any table the updater can produce, a
    delete request for a key (id, rule type) that is live is answered with
    success-delete; the count drops by one, the key is no longer found, and
    every bucket is what it was without the node of that key: the other nodes
    stay linked, in their buckets and in their order. *)
Theorem update_delete_live `{H : sp_header} (ops : list sp_mapdb_op) (r : sp_rule)
    (alloc_node alloc_hash : bool) :
  Forall op_well_typed ops →
  cmd r = SP_MAPDB_ADD_REMOVE_FILTER_DELETE →
  (id r, classifier_type r) ∈ node_key <$> live_rules (sp_mapdb_run ops) →
  fst (sp_mapdb_rule_update (sp_mapdb_run ops) (Some r) alloc_node alloc_hash)
  = SP_MAPDB_UPDATE_RESULT_SUCCESS_DELETE
  ∧ rule_count (snd (sp_mapdb_rule_update (sp_mapdb_run ops) (Some r)
                       alloc_node alloc_hash))
    = rule_count (sp_mapdb_run ops) - 1
  ∧ sp_mapdb_search_hashentry
      (snd (sp_mapdb_rule_update (sp_mapdb_run ops) (Some r) alloc_node alloc_hash))
      (id r) (classifier_type r) = None
  ∧ prec_map (snd (sp_mapdb_rule_update (sp_mapdb_run ops) (Some r)
                     alloc_node alloc_hash))
    = filter (fun n => node_key n ≠ (id r, classifier_type r))
        <$> prec_map (sp_mapdb_run ops).
Proof.
  intros Hops Hc Hlive. set (st := sp_mapdb_run ops) in *.
  pose proof (table_inv_run ops Hops) as [Hinv Hw]. fold st in Hinv, Hw.
  destruct Hinv as [Hlen Hprec Hidx Haddr Hfresh Hkeys Hcnt].
  rewrite update_delete by done. unfold sp_mapdb_rule_delete.
  rewrite search_set_single_writer. cbn [set_single_writer rule_count].
  rewrite <-Hidx in Hlive.
  destruct (Z.eqb_spec (rule_count st) 0) as [Hz|_].
  { exfalso. rewrite Hcnt in Hz. destruct (rule_id_hashmap st); [|cbn in Hz; lia].
    by apply not_elem_of_nil in Hlive. }
  destruct (sp_mapdb_search_hashentry st (id r) (classifier_type r))
    as [[i cur]|] eqn:Hs; [|by apply search_hashentry_None in Hs].
  apply search_hashentry_Some in Hs as [Hi Hk].
  cbn [fst snd set_single_writer rule_count prec_map rule_id_hashmap].
  split; [done|]. split; [done|]. split.
  - apply search_hashentry_None. cbn [rule_id_hashmap set_single_writer].
    rewrite list_fmap_delete, <-Hk. apply NoDup_delete_lookup; [done|].
    by rewrite list_lookup_fmap, Hi.
  - unfold list_del_rcu. apply list_eq. intros j. rewrite !list_lookup_fmap.
    destruct (prec_map st !! j) as [b|] eqn:Hb; [|done]. cbn. f_equal.
    apply filter_ext_elem. intros n Hn.
    assert (Hnl : n ∈ rule_id_hashmap st).
    { rewrite Hidx. apply list_elem_of_join. exists b. split; [done|].
      by eapply list_elem_of_lookup_2. }
    assert (Hcl : cur ∈ rule_id_hashmap st) by (by eapply list_elem_of_lookup_2).
    split; intros Hne Heq; apply Hne.
    + assert (n = cur) as ->; [|done].
      eapply (NoDup_fmap_eq node_key (rule_id_hashmap st)); [done..|congruence].
    + assert (n = cur) as ->; [|done].
      by eapply (NoDup_fmap_eq node_addr (rule_id_hashmap st)).
Qed.

Lemma update_delete_live_witness :
  fst (sp_mapdb_rule_update (H := sp_header_example 3)
         (sp_mapdb_run (H := sp_header_example 3) (take 2 ops_example))
         (Some {| id := 1; rule_precedence := 77; classifier_type := 0; cmd := 0;
                  inner := inner_zero |}) false false)
  = SP_MAPDB_UPDATE_RESULT_SUCCESS_DELETE
  ∧ rule_count
      (snd (sp_mapdb_rule_update (H := sp_header_example 3)
              (sp_mapdb_run (H := sp_header_example 3) (take 2 ops_example))
              (Some {| id := 1; rule_precedence := 77; classifier_type := 0; cmd := 0;
                       inner := inner_zero |}) false false))
    = 1.
Proof.
  pose proof (update_delete_live (H := sp_header_example 3) (take 2 ops_example)
                {| id := 1; rule_precedence := 77; classifier_type := 0; cmd := 0;
                   inner := inner_zero |} false false) as Hd.
  destruct Hd as (Hcode & Hcnt & _).
  - repeat constructor; cbn; lia.
  - reflexivity.
  - vm_compute. right. left.
  - split; [exact Hcode | exact Hcnt].
Defined.

(** X5.  A request touches one key only.  Whatever the table and whatever
    comes of the request, after sp_mapdb_rule_update() the lookup of any
    other (id, rule type) finds the node it found before (or none, as
    before). *)
Theorem update_other_keys `{H : sp_header} (st : sp_mapdb_state) (r : sp_rule)
    (alloc_node alloc_hash : bool) (ruleid rule_type : Z) :
  (ruleid, rule_type) ≠ (id r, classifier_type r) →
  snd <$> sp_mapdb_search_hashentry
            (snd (sp_mapdb_rule_update st (Some r) alloc_node alloc_hash))
            ruleid rule_type
  = snd <$> sp_mapdb_search_hashentry st ruleid rule_type.
Proof.
  intros Hne. unfold sp_mapdb_rule_update.
  destruct (single_writer st); [done|].
  assert (Hother : ∀ n, node_key n = (id r, classifier_type r) →
                        ¬ hashentry_matches ruleid rule_type n = true).
  { intros n Hk Hm%hashentry_matches_key. congruence. }
  destruct (cmd r =? SP_MAPDB_ADD_REMOVE_FILTER_DELETE).
  - unfold sp_mapdb_rule_delete. cbn [set_single_writer rule_count].
    destruct (_ =? _); [done|]. rewrite search_set_single_writer.
    destruct (sp_mapdb_search_hashentry st (id r) (classifier_type r))
      as [[i cur]|] eqn:Hs; [|done].
    apply search_hashentry_Some in Hs as [Hi Hk].
    unfold sp_mapdb_search_hashentry. cbn [snd set_single_writer rule_id_hashmap].
    apply list_find_delete_other. intros x Hx. apply Hother. congruence.
  - destruct (cmd r =? SP_MAPDB_ADD_REMOVE_FILTER_ADD); [|done].
    unfold sp_mapdb_rule_add. cbn [set_single_writer rule_count next_node].
    fold (stored_rule r (classifier_type r)).
    destruct (_ =? _); [done|]. destruct (_ >=? _); [done|].
    destruct alloc_node; [|done]. cbn [negb]. rewrite search_set_single_writer.
    pose proof (stored_rule_key r (classifier_type r) (next_node st)) as Hnew.
    destruct (sp_mapdb_search_hashentry st (id r) (classifier_type r))
      as [[i cur]|] eqn:Hs.
    + apply search_hashentry_Some in Hs as [Hi Hk].
      assert (Hfind :
        snd <$> list_find (fun n => hashentry_matches ruleid rule_type n = true)
                  (<[i := {| node_addr := next_node st;
                             rule := stored_rule r (classifier_type r) |}]>
                     (rule_id_hashmap st))
        = snd <$> list_find (fun n => hashentry_matches ruleid rule_type n = true)
                    (rule_id_hashmap st)).
      { apply list_find_insert_other; [by apply Hother|].
        intros x Hx. apply Hother. congruence. }
      by destruct (_ =? _).
    + destruct alloc_hash; [|done].
      unfold sp_mapdb_search_hashentry.
      cbn [negb snd set_single_writer rule_id_hashmap].
      apply list_find_cons_other. by apply Hother.
Qed.

Lemma update_other_keys_witness :
  snd <$> sp_mapdb_search_hashentry
            (snd (sp_mapdb_rule_update (H := sp_header_example 3)
                    (sp_mapdb_run (H := sp_header_example 3) (take 2 ops_example))
                    (Some (mesh_rule 1 20 1 0 0 4)) true true))
            2 0
  = Some {| node_addr := 1; rule := mesh_rule 2 3 1 0 0 6 |}.
Proof.
  rewrite (update_other_keys (H := sp_header_example 3)
             (sp_mapdb_run (H := sp_header_example 3) (take 2 ops_example))
             (mesh_rule 1 20 1 0 0 4) true true 2 0).
  - reflexivity.
  - cbn. congruence.
Defined.

(** X6.  Add, then delete.  In any table the updater can produce, a rule
    that was added as a new rule and is then deleted leaves the buckets, the
    hash table and the count as they were before the two requests; only the
    allocator has moved on. *)
Theorem add_delete_round_trip `{H : sp_header} (ops : list sp_mapdb_op) (r d : sp_rule)
    (alloc_node alloc_hash alloc_node' alloc_hash' : bool) :
  Forall op_well_typed ops → rule_well_typed r →
  cmd r = SP_MAPDB_ADD_REMOVE_FILTER_ADD →
  cmd d = SP_MAPDB_ADD_REMOVE_FILTER_DELETE →
  SP_MAPDB_ADD_REMOVE_FILTER_DELETE ≠ SP_MAPDB_ADD_REMOVE_FILTER_ADD →
  id d = id r → classifier_type d = classifier_type r →
  fst (sp_mapdb_rule_update (sp_mapdb_run ops) (Some r) alloc_node alloc_hash)
  = SP_MAPDB_UPDATE_RESULT_SUCCESS_ADD →
  sp_mapdb_rule_update
    (snd (sp_mapdb_rule_update (sp_mapdb_run ops) (Some r) alloc_node alloc_hash))
    (Some d) alloc_node' alloc_hash'
  = (SP_MAPDB_UPDATE_RESULT_SUCCESS_DELETE,
     {| prec_map := prec_map (sp_mapdb_run ops);
        rule_id_hashmap := rule_id_hashmap (sp_mapdb_run ops);
        rule_count := rule_count (sp_mapdb_run ops);
        single_writer := single_writer (sp_mapdb_run ops);
        next_node := S (next_node (sp_mapdb_run ops)) |}).
Proof.
  intros Hops Hr Hc Hcd Hne Hid Hty. set (st := sp_mapdb_run ops) in *.
  pose proof (table_inv_run ops Hops) as [Hinv Hw]. fold st in Hinv, Hw.
  destruct Hinv as [Hlen Hprec Hidx Haddr Hfresh Hkeys Hcnt].
  rewrite update_add by done. cbn [fst snd]. intros Hcode.
  destruct (add_reply (set_single_writer st true) r (classifier_type r)
              alloc_node alloc_hash) as [Hadd _].
  destruct (Hadd Hcode) as (_ & Hcnt' & Hhash' & Hpm'). clear Hadd.
  cbn [set_single_writer rule_count rule_id_hashmap prec_map next_node] in *.
  set (st1 := snd (sp_mapdb_rule_add (set_single_writer st true) r (classifier_type r)
                     alloc_node alloc_hash)) in *.
  set (new := {| node_addr := next_node st; rule := stored_rule r (classifier_type r) |}) in *.
  assert (Hnn : next_node st1 = S (next_node st)).
  { subst st1. revert Hcode. unfold sp_mapdb_rule_add.
    cbn [set_single_writer rule_count next_node].
    destruct (_ =? _); [done|]. destruct (_ >=? _); [done|].
    destruct alloc_node; [|done]. cbn [negb].
    destruct (sp_mapdb_search_hashentry _ _ _) as [[i cur]|].
    - by destruct (_ =? _).
    - by destruct alloc_hash. }
  rewrite update_delete by done. unfold sp_mapdb_rule_delete.
  rewrite !search_set_single_writer. cbn [set_single_writer rule_count].
  rewrite Hcnt'. destruct (Z.eqb_spec (rule_count st + 1) 0) as [Hz|_]; [lia|].
  assert (Hs : sp_mapdb_search_hashentry st1 (id d) (classifier_type d) = Some (0%nat, new)).
  { unfold sp_mapdb_search_hashentry. rewrite Hhash'. csimpl.
    rewrite decide_True; [done|]. apply hashentry_matches_key.
    rewrite Hid, Hty. apply stored_rule_key. }
  rewrite Hs. cbn [fst snd]. f_equal. unfold set_single_writer.
  cbn [prec_map rule_id_hashmap rule_count single_writer next_node].
  rewrite Hhash', Hpm', Hnn, Hw. cbn [delete list_delete].
  f_equal; [|lia].
  pose proof (stored_precedence_range r (classifier_type r) Hr) as Hp.
  fold (stored_rule r (classifier_type r)) in Hp.
  unfold list_del_rcu, list_add_rcu. apply list_eq. intros j.
  rewrite list_lookup_fmap.
  assert (Hkeep : ∀ b, prec_map st !! j = Some b →
                       filter (fun n => node_addr n ≠ node_addr new) b = b).
  { intros b Hb. apply filter_all. intros n Hn.
    assert (Hnl : n ∈ rule_id_hashmap st).
    { rewrite Hidx. apply list_elem_of_join. exists b. split; [done|].
      by eapply list_elem_of_lookup_2. }
    apply Hfresh in Hnl. cbn [node_addr new]. lia. }
  destruct (decide (j = Z.to_nat (rule_precedence (stored_rule r (classifier_type r)))))
    as [->|Hj].
  - rewrite list_lookup_alter_eq.
    destruct (prec_map st !! _) as [b|] eqn:Hb; [|done].
    cbn [fmap option_fmap option_map].
    rewrite filter_cons_False by (intros Hx; by apply Hx).
    f_equal. by apply Hkeep.
  - rewrite list_lookup_alter_ne by done.
    destruct (prec_map st !! j) as [b|] eqn:Hb; [|done]. cbn. f_equal. by apply Hkeep.
Qed.

Lemma add_delete_round_trip_witness :
  sp_mapdb_rule_update (H := sp_header_example 3)
    (snd (sp_mapdb_rule_update (H := sp_header_example 3)
            (sp_mapdb_run (H := sp_header_example 3) (take 2 ops_example))
            (Some (mesh_rule 5 3 1 0 0 4)) true true))
    (Some {| id := 5; rule_precedence := 0; classifier_type := 0; cmd := 0;
             inner := inner_zero |}) true true
  = (SP_MAPDB_UPDATE_RESULT_SUCCESS_DELETE,
     {| prec_map := prec_map (sp_mapdb_run (H := sp_header_example 3) (take 2 ops_example));
        rule_id_hashmap :=
          rule_id_hashmap (sp_mapdb_run (H := sp_header_example 3) (take 2 ops_example));
        rule_count := 2;
        single_writer := false;
        next_node := 3 |}).
Proof.
  refine (add_delete_round_trip (H := sp_header_example 3) (take 2 ops_example)
            (mesh_rule 5 3 1 0 0 4)
            {| id := 5; rule_precedence := 0; classifier_type := 0; cmd := 0;
               inner := inner_zero |} true true true true _ _ _ _ _ _ _ _).
  - repeat constructor; cbn; lia.
  - unfold rule_well_typed. cbn. lia.
  - reflexivity.
  - reflexivity.
  - cbn. lia.
  - reflexivity.
  - reflexivity.
  - reflexivity.
Defined.

(** ** Flushing *)

Section FlushFacts.
Context `{H : sp_header} `{HS : sp_header_sawf}.

Lemma flush_state st :
  store_inv st →
  sp_mapdb_ruletable_flush st
  = {| prec_map := replicate (Z.to_nat SP_MAPDB_RULE_MAX_PRECEDENCENUM) [];
       rule_id_hashmap := [];
       rule_count := 0;
       single_writer := single_writer st;
       next_node := next_node st |}.
Proof.
  intros [Hlen _ Hidx _ _ _ Hcnt]. unfold sp_mapdb_ruletable_flush.
  destruct (Z.eqb_spec (rule_count st) 0) as [Hz|_].
  - assert (Hh : rule_id_hashmap st = []).
    { destruct (rule_id_hashmap st); [done|]. cbn [length] in Hcnt. lia. }
    rewrite Hh in Hidx. symmetry in Hidx. apply Permutation_nil_r in Hidx.
    apply join_nil_replicate in Hidx. rewrite Hlen in Hidx.
    destruct st as [pm hm c w nx]. cbn in *. by subst.
  - by rewrite fmap_nil_replicate, Hlen.
Qed.

End FlushFacts.

(** X7.  Flushing.  In any table the updater can produce,
    sp_mapdb_ruletable_flush() -- and sp_mapdb_fini(), which calls it --
    leaves the table as sp_mapdb_rules_init() made it: 255 empty buckets, an
    empty hash table, count 0 (the writer flag is not touched).  Flushing
    again changes nothing, and on the flushed table every classifier gives
    its empty-table answer: no rule is found by a query, the latency
    parameters are zero, the SAWF and SCS classifiers return their invalid
    values and leave the parameters alone. *)
Theorem flush_resets `{H : sp_header} `{HS : sp_header_sawf} (ops : list sp_mapdb_op)
    (skb : sk_buff) (smac dmac : mac_addr) (params : sp_rule_input_params)
    (ruleid : Z) :
  Forall op_well_typed ops →
  sp_mapdb_fini (sp_mapdb_run ops) = sp_mapdb_ruletable_flush (sp_mapdb_run ops)
  ∧ prec_map (sp_mapdb_ruletable_flush (sp_mapdb_run ops)) = prec_map sp_mapdb_rules_init
  ∧ rule_id_hashmap (sp_mapdb_ruletable_flush (sp_mapdb_run ops)) = []
  ∧ rule_count (sp_mapdb_ruletable_flush (sp_mapdb_run ops)) = 0
  ∧ single_writer (sp_mapdb_ruletable_flush (sp_mapdb_run ops))
    = single_writer (sp_mapdb_run ops)
  ∧ sp_mapdb_ruletable_flush (sp_mapdb_ruletable_flush (sp_mapdb_run ops))
    = sp_mapdb_ruletable_flush (sp_mapdb_run ops)
  ∧ sp_mapdb_rule_query (sp_mapdb_ruletable_flush (sp_mapdb_run ops)) ruleid = None
  ∧ sp_mapdb_get_wlan_latency_params (sp_mapdb_ruletable_flush (sp_mapdb_run ops))
      skb smac dmac = (0, 0, 0, 0)
  ∧ sp_mapdb_rule_apply_sawf (sp_mapdb_ruletable_flush (sp_mapdb_run ops)) params
    = (sawf_output_invalid, params)
  ∧ sp_mapdb_apply_scs (sp_mapdb_ruletable_flush (sp_mapdb_run ops)) params
    = (to_uint8 SP_RULE_INVALID_PRIORITY, to_uint32 SP_RULE_INVALID_RULE_ID, params).
Proof.
  intros Hops. pose proof (table_inv_run ops Hops) as [Hinv _].
  split; [done|]. rewrite (flush_state _ Hinv). by split_and!.
Qed.

Lemma flush_resets_witness :
  prec_map (sp_mapdb_ruletable_flush
              (sp_mapdb_run (H := sp_header_example 3) (take 5 ops_example)))
  = prec_map sp_mapdb_rules_init
  ∧ rule_count (sp_mapdb_ruletable_flush
                  (sp_mapdb_run (H := sp_header_example 3) (take 5 ops_example))) = 0
  ∧ rule_count (sp_mapdb_run (H := sp_header_example 3) (take 5 ops_example)) = 3.
Proof.
  pose proof (flush_resets (H := sp_header_example 3) (HS := sp_header_sawf_example)
                (take 5 ops_example) (ipv4_packet 0 0 6) 0 0 (params_example 0) 1) as Hf.
  destruct Hf as (_ & Hpm & _ & Hcnt & _).
  - repeat constructor; cbn; lia.
  - split; [exact Hpm|]. split; [exact Hcnt | reflexivity].
Defined.

(** ** What is stored *)

Section StoredOutputs.
Context `{H : sp_header}.

Lemma stored_rule_output r rule_type :
  rule_output (inner (stored_rule r rule_type)) = rule_output (inner r).
Proof. unfold stored_rule. by destruct (_ =? _). Qed.

Lemma flush_live_rules st n :
  n ∈ live_rules (sp_mapdb_ruletable_flush st) → n ∈ live_rules st.
Proof.
  unfold sp_mapdb_ruletable_flush, live_rules. destruct (_ =? _); [done|].
  cbn [prec_map]. rewrite join_fmap_nil. by intros ?%not_elem_of_nil.
Qed.

Lemma output_bound_step st op :
  op_well_typed op →
  (∀ n, n ∈ live_rules st → rule_output (inner (rule n)) < SP_MAPDB_NO_MATCH) →
  ∀ n, n ∈ live_rules (sp_mapdb_step st op) →
       rule_output (inner (rule n)) < SP_MAPDB_NO_MATCH.
Proof.
  intros _ Hst n. destruct op as [newrule a b|]; cbn [sp_mapdb_step].
  - intros [Hn|(r & _ & Hr & Hout)]%update_live_rules; [by apply Hst|].
    by rewrite Hr, stored_rule_output.
  - intros Hn%flush_live_rules. by apply Hst.
Qed.

Lemma output_bound_run ops n :
  Forall op_well_typed ops → n ∈ live_rules (sp_mapdb_run ops) →
  rule_output (inner (rule n)) < SP_MAPDB_NO_MATCH.
Proof.
  intros Hops. revert n. unfold sp_mapdb_run.
  apply (fold_step_inv
           (fun st => ∀ n, n ∈ live_rules st →
                           rule_output (inner (rule n)) < SP_MAPDB_NO_MATCH)
           ops sp_mapdb_rules_init);
    [apply output_bound_step | done |].
  intros n. unfold live_rules, sp_mapdb_rules_init. cbn [prec_map].
  rewrite join_replicate_nil. by intros ?%not_elem_of_nil.
Qed.

End StoredOutputs.

(** X8.  What the table can hold.  Every rule that is linked in a table the
    updater can produce has an output below [SP_MAPDB_NO_MATCH] and a
    precedence from 0 to 254, and is linked in the bucket of its precedence:
    a request with a larger output is never stored, and precedence 255 is
    never a stored precedence. *)
Theorem live_rule_bounds `{H : sp_header} (ops : list sp_mapdb_op)
    (n : sp_mapdb_rule_node) :
  Forall op_well_typed ops →
  n ∈ live_rules (sp_mapdb_run ops) →
  rule_output (inner (rule n)) < SP_MAPDB_NO_MATCH
  ∧ 0 <= rule_precedence (rule n) < SP_MAPDB_RULE_MAX_PRECEDENCENUM
  ∧ n ∈ bucket (prec_map (sp_mapdb_run ops)) (Z.to_nat (rule_precedence (rule n))).
Proof.
  intros Hops Hn. split; [by apply (output_bound_run ops)|].
  pose proof (table_inv_run ops Hops) as [Hinv _].
  apply elem_of_join_bucket in Hn as (i & Hi & Hb).
  pose proof (inv_prec _ Hinv _ _ Hb) as Hp.
  rewrite (inv_buckets _ Hinv) in Hi.
  split; [lia|]. by replace (Z.to_nat _) with i by lia.
Qed.

Lemma live_rule_bounds_witness :
  rule_output (inner (mesh_rule 2 255 1 0 0 6)) < 10
  ∧ 0 <= rule_precedence (rule {| node_addr := 3;
                                   rule := set_rule_precedence (mesh_rule 2 255 1 0 0 6) 0 |})
       < 255
  ∧ {| node_addr := 3; rule := set_rule_precedence (mesh_rule 2 255 1 0 0 6) 0 |}
    ∈ bucket (prec_map (sp_mapdb_run (H := sp_header_example 3) (take 4 ops_example)))
        0.
Proof.
  refine (live_rule_bounds (H := sp_header_example 3) (take 4 ops_example)
            {| node_addr := 3; rule := set_rule_precedence (mesh_rule 2 255 1 0 0 6) 0 |}
            _ _).
  - repeat constructor; cbn; lia.
  - vm_compute. left.
Defined.

(** ** The MESH search on a table without a match *)

(** X9.  A table that holds rules but none that matches.  In any table the
    updater can produce that is not empty, when no live MESH rule matches the
    packet, sp_mapdb_ruletable_search() returns [SP_MAPDB_RULE_DEFAULT_PCP]
    (as a [uint8_t]), and sp_mapdb_apply() stores that in [skb->priority]:
    the DSCP of the packet is used for an empty table only.  The constants
    are taken as distinct, with [SP_MAPDB_NO_MATCH] a [uint8_t] value. *)
Theorem mesh_search_no_match `{H : sp_header}
    (ops : list sp_mapdb_op) (skb : sk_buff) (smac dmac : mac_addr) :
  Forall op_well_typed ops →
  0 <= SP_MAPDB_NO_MATCH < 256 →
  SP_MAPDB_NO_MATCH ≠ SP_MAPDB_USE_UP →
  SP_MAPDB_NO_MATCH ≠ SP_MAPDB_USE_DSCP →
  live_rules (sp_mapdb_run ops) ≠ [] →
  (∀ n, n ∈ live_rules (sp_mapdb_run ops) → mesh_hit skb smac dmac n = false) →
  sp_mapdb_ruletable_search (sp_mapdb_run ops) skb smac dmac
  = to_uint8 SP_MAPDB_RULE_DEFAULT_PCP
  ∧ skb_priority (sp_mapdb_apply (sp_mapdb_run ops) skb smac dmac)
    = to_uint8 SP_MAPDB_RULE_DEFAULT_PCP.
Proof.
  intros Hops Hrange Hup Hdscp Hlive Hno. set (st := sp_mapdb_run ops) in *.
  pose proof (table_inv_run ops Hops) as Hinv. fold st in Hinv.
  assert (Hsearch : sp_mapdb_ruletable_search st skb smac dmac
                    = to_uint8 SP_MAPDB_RULE_DEFAULT_PCP); [|by split].
  unfold sp_mapdb_ruletable_search.
  destruct (Z.eqb_spec (rule_count st) 0) as [Hz|_].
  { exfalso. destruct Hinv as [Hinv _]. rewrite (inv_count _ Hinv) in Hz.
    pose proof (inv_index _ Hinv) as Hidx.
    destruct (rule_id_hashmap st); [|cbn [length] in Hz; lia].
    symmetry in Hidx. by apply Permutation_nil_r in Hidx. }
  rewrite mesh_prec_scan_order, mesh_bucket_scan_none.
  - unfold set_output, to_uint8. rewrite (Z.mod_small SP_MAPDB_NO_MATCH) by lia.
    destruct (Z.eqb_spec SP_MAPDB_NO_MATCH SP_MAPDB_USE_UP); [done|].
    destruct (Z.eqb_spec SP_MAPDB_NO_MATCH SP_MAPDB_USE_DSCP); [done|].
    by rewrite Z.eqb_refl.
  - apply Forall_forall. intros n Hn. apply Hno.
    by rewrite <-(scan_order_live st Hinv).
Qed.

Lemma mesh_search_no_match_witness :
  sp_mapdb_ruletable_search (H := sp_header_example 3)
    (sp_mapdb_run (H := sp_header_example 3)
       [Op_update (Some (mesh_rule 1 10 8 5 0 7)) true true])
    (ipv4_packet 3 128 6) 0 0 = 0
  ∧ skb_priority
      (sp_mapdb_apply (H := sp_header_example 3)
         (sp_mapdb_run (H := sp_header_example 3)
            [Op_update (Some (mesh_rule 1 10 8 5 0 7)) true true])
         (ipv4_packet 3 128 6) 0 0) = 0.
Proof.
  refine (mesh_search_no_match (H := sp_header_example 3)
            [Op_update (Some (mesh_rule 1 10 8 5 0 7)) true true]
            (ipv4_packet 3 128 6) 0 0 _ _ _ _ _ _).
  - repeat constructor; cbn; lia.
  - cbn. lia.
  - cbn. lia.
  - cbn. lia.
  - vm_compute. discriminate.
  - intros n Hn.
    assert (Hl : live_rules (sp_mapdb_run (H := sp_header_example 3)
                               [Op_update (Some (mesh_rule 1 10 8 5 0 7)) true true])
                 = [{| node_addr := 0; rule := mesh_rule 1 10 8 5 0 7 |}])
      by (vm_compute; reflexivity).
    rewrite Hl in Hn. apply list_elem_of_singleton in Hn. subst n. reflexivity.
Defined.

(** ** The latency parameters *)

Section Latency.
Context `{H : sp_header}.
Variables (skb : sk_buff) (smac dmac : mac_addr).

Lemma latency_bucket_scan_spec l :
  match latency_bucket_scan skb smac dmac l with
  | Some out =>
      ∃ before A after,
        l = before ++ A :: after
        ∧ Forall (fun n => sp_mapdb_rule_match skb (rule n) smac dmac = false) before
        ∧ sp_mapdb_rule_match skb (rule A) smac dmac = true
        ∧ out = latency_params (rule A)
  | None => Forall (fun n => sp_mapdb_rule_match skb (rule n) smac dmac = false) l
  end.
Proof.
  induction l as [|n l IH]; cbn [latency_bucket_scan]; [done|].
  destruct (sp_mapdb_rule_match skb (rule n) smac dmac) eqn:Hm.
  - by exists [], n, l.
  - destruct (latency_bucket_scan skb smac dmac l) as [out|].
    + destruct IH as (before & A & after & -> & Hb & HA & ->).
      exists (n :: before), A, after. split; [done|]. split; [by constructor|done].
    + by constructor.
Qed.

Lemma latency_prec_scan_spec pm n :
  match latency_prec_scan skb smac dmac pm n with
  | Some out =>
      ∃ q before A after,
        (q < n)%nat ∧ bucket pm q = before ++ A :: after
        ∧ Forall (fun x => sp_mapdb_rule_match skb (rule x) smac dmac = false) before
        ∧ sp_mapdb_rule_match skb (rule A) smac dmac = true
        ∧ out = latency_params (rule A)
        ∧ ∀ q' x, (q < q' < n)%nat → x ∈ bucket pm q' →
                  sp_mapdb_rule_match skb (rule x) smac dmac = false
  | None =>
      ∀ q x, (q < n)%nat → x ∈ bucket pm q →
             sp_mapdb_rule_match skb (rule x) smac dmac = false
  end.
Proof.
  induction n as [|i IH]; cbn [latency_prec_scan]; [intros; lia|].
  pose proof (latency_bucket_scan_spec (bucket pm i)) as Hb.
  destruct (latency_bucket_scan skb smac dmac (bucket pm i)) as [out|].
  - destruct Hb as (before & A & after & Hl & Hbf & HA & ->).
    exists i, before, A, after. split_and!; try done; [lia|]. intros; lia.
  - destruct (latency_prec_scan skb smac dmac pm i) as [out|].
    + destruct IH as (q & before & A & after & Hq & Hl & Hbf & HA & -> & Hhigh).
      exists q, before, A, after. split_and!; try done; [lia|].
      intros q' x Hq' Hx. destruct (decide (q' = i)) as [->|].
      * rewrite Forall_forall in Hb. by apply Hb.
      * apply (Hhigh q' x); [lia|done].
    + intros q x Hq Hx. destruct (decide (q = i)) as [->|].
      * rewrite Forall_forall in Hb. by apply Hb.
      * apply (IH q x); [lia|done].
Qed.

End Latency.

(** X10.  The latency parameters come from the first rule that matches, in
    descending order of precedence and, within a bucket, from the head; rules
    of every classifier type are tried, with the generic matcher, and the
    rule count is not consulted.  In any table the updater can produce: if a
    live rule [A] matches the packet, the four values are those of a live
    rule that matches and whose precedence is at least that of [A] -- those
    of [A] itself when nothing matches in the higher buckets nor before [A]
    in its own; if no live rule matches, all four are 0. *)
Theorem latency_params_first_match `{H : sp_header}
    (ops : list sp_mapdb_op) (skb : sk_buff) (smac dmac : mac_addr) :
  Forall op_well_typed ops →
  ((∀ n, n ∈ live_rules (sp_mapdb_run ops) →
         sp_mapdb_rule_match skb (rule n) smac dmac = false) →
   sp_mapdb_get_wlan_latency_params (sp_mapdb_run ops) skb smac dmac = (0, 0, 0, 0))
  ∧ (∀ A, A ∈ live_rules (sp_mapdb_run ops) →
          sp_mapdb_rule_match skb (rule A) smac dmac = true →
          ∃ A', A' ∈ live_rules (sp_mapdb_run ops)
                ∧ sp_mapdb_rule_match skb (rule A') smac dmac = true
                ∧ rule_precedence (rule A) <= rule_precedence (rule A')
                ∧ sp_mapdb_get_wlan_latency_params (sp_mapdb_run ops) skb smac dmac
                  = latency_params (rule A'))
  ∧ (∀ p before A after,
       bucket (prec_map (sp_mapdb_run ops)) p = before ++ A :: after →
       Forall (fun n => sp_mapdb_rule_match skb (rule n) smac dmac = false) before →
       sp_mapdb_rule_match skb (rule A) smac dmac = true →
       (∀ q n, (p < q)%nat → n ∈ bucket (prec_map (sp_mapdb_run ops)) q →
               sp_mapdb_rule_match skb (rule n) smac dmac = false) →
       sp_mapdb_get_wlan_latency_params (sp_mapdb_run ops) skb smac dmac
       = latency_params (rule A)).
Proof.
  intros Hops. set (st := sp_mapdb_run ops) in *.
  pose proof (table_inv_run ops Hops) as [Hinv _]. fold st in Hinv.
  pose proof (inv_buckets _ Hinv) as Hlen.
  unfold sp_mapdb_get_wlan_latency_params.
  pose proof (latency_prec_scan_spec skb smac dmac (prec_map st)
                (Z.to_nat SP_MAPDB_RULE_MAX_PRECEDENCENUM)) as Hscan.
  assert (Hbucket : ∀ A, A ∈ live_rules st →
            ∃ p, (p < Z.to_nat SP_MAPDB_RULE_MAX_PRECEDENCENUM)%nat
                 ∧ A ∈ bucket (prec_map st) p
                 ∧ rule_precedence (rule A) = Z.of_nat p).
  { intros A (p & Hp & HA)%elem_of_join_bucket. exists p. rewrite <-Hlen.
    split; [done|]. split; [done|]. by apply (inv_prec _ Hinv). }
  split; [|split].
  - intros Hno.
    destruct (latency_prec_scan _ _ _ _ _) as [out|]; [|done].
    destruct Hscan as (q & before & A & after & _ & Hl & _ & HA & _).
    rewrite Hno in HA; [done|]. eapply elem_of_bucket_join. rewrite Hl.
    apply elem_of_app. right. left.
  - intros A HAl HA. destruct (Hbucket A HAl) as (p & Hp & HAb & HAp).
    destruct (latency_prec_scan _ _ _ _ _) as [out|].
    + destruct Hscan as (q & before & A' & after & Hq & Hl & _ & HA' & -> & Hhigh).
      assert (HA'b : A' ∈ bucket (prec_map st) q).
      { rewrite Hl. apply elem_of_app. right. left. }
      exists A'. split; [by eapply elem_of_bucket_join|]. split; [done|].
      split; [|done]. rewrite (inv_prec _ Hinv _ _ HA'b), HAp.
      destruct (decide (q < p)%nat) as [Hlt|]; [|lia].
      rewrite (Hhigh p A) in HA; [done|lia|done].
    + rewrite (Hscan p A) in HA; done.
  - intros p before A after Hl Hbf HA Hhigh.
    assert (HAb : A ∈ bucket (prec_map st) p).
    { rewrite Hl. apply elem_of_app. right. left. }
    destruct (Hbucket A (elem_of_bucket_join _ _ _ HAb)) as (p' & Hp' & HAb' & _).
    destruct (live_key_unique st p p' A A Hinv HAb HAb' eq_refl) as [_ <-].
    destruct (latency_prec_scan _ _ _ _ _) as [out|].
    + destruct Hscan as (q & before' & A' & after' & Hq & Hl' & Hbf' & HA' & -> & Hhigh').
      assert (HA'b : A' ∈ bucket (prec_map st) q).
      { rewrite Hl'. apply elem_of_app. right. left. }
      destruct (lt_eq_lt_dec q p) as [[Hlt| ->]|Hgt].
      * rewrite (Hhigh' p A) in HA; [done|lia|done].
      * rewrite Hl in Hl'.
        assert (Hfirst : ∀ (l1 l2 l1' l2' : list sp_mapdb_rule_node) x y,
                  l1 ++ x :: l2 = l1' ++ y :: l2' →
                  Forall (fun n => sp_mapdb_rule_match skb (rule n) smac dmac = false) l1 →
                  Forall (fun n => sp_mapdb_rule_match skb (rule n) smac dmac = false) l1' →
                  sp_mapdb_rule_match skb (rule x) smac dmac = true →
                  sp_mapdb_rule_match skb (rule y) smac dmac = true → x = y).
        { clear. intros l1. induction l1 as [|z l1 IH]; intros l2 l1' l2' x y Heq H1 H1' Hx Hy.
          - destruct l1' as [|z' l1']; cbn in Heq; [congruence|].
            apply Forall_cons in H1' as [Hz' _]. congruence.
          - apply Forall_cons in H1 as [Hz H1].
            destruct l1' as [|z' l1']; cbn in Heq; [congruence|].
            apply Forall_cons in H1' as [_ H1'].
            eapply IH; [|done..]. by injection Heq. }
        by rewrite (Hfirst _ _ _ _ _ _ Hl' Hbf Hbf' HA HA').
      * rewrite (Hhigh q A') in HA'; done.
    + rewrite (Hscan p A) in HA; done.
Qed.

Lemma latency_params_first_match_witness :
  ∃ A', A' ∈ live_rules
               (sp_mapdb_run (H := sp_header_example 3)
                  [Op_update (Some (with_latency (mesh_rule 1 10 1 0 0 5) 3 100 4 200))
                     true true;
                   Op_update (Some (with_latency (sawf_rule 2 20 1 0 0 0 0) 7 300 8 400))
                     true true])
        ∧ sp_mapdb_rule_match (H := sp_header_example 3) (ipv4_packet 0 0 6) (rule A') 0 0
          = true
        ∧ 10 <= rule_precedence (rule A')
        ∧ sp_mapdb_get_wlan_latency_params (H := sp_header_example 3)
            (sp_mapdb_run (H := sp_header_example 3)
               [Op_update (Some (with_latency (mesh_rule 1 10 1 0 0 5) 3 100 4 200))
                  true true;
                Op_update (Some (with_latency (sawf_rule 2 20 1 0 0 0 0) 7 300 8 400))
                  true true])
            (ipv4_packet 0 0 6) 0 0
          = latency_params (rule A').
Proof.
  refine (proj1 (proj2 (latency_params_first_match (H := sp_header_example 3)
                          [Op_update (Some (with_latency (mesh_rule 1 10 1 0 0 5) 3 100 4 200))
                             true true;
                           Op_update (Some (with_latency (sawf_rule 2 20 1 0 0 0 0) 7 300 8 400))
                             true true]
                          (ipv4_packet 0 0 6) 0 0 _))
            {| node_addr := 0; rule := with_latency (mesh_rule 1 10 1 0 0 5) 3 100 4 200 |}
            _ _).
  - repeat constructor; cbn; lia.
  - vm_compute. left.
  - reflexivity.
Defined.

(** ** The SAWF and SCS classifiers *)

Section SawfScan.
Context `{H : sp_header}.

Variable rule_type : Z.

Lemma sawf_bucket_scan_Some l p node p' :
  sawf_bucket_scan rule_type l p = (Some node, p') →
  node ∈ l ∧ classifier_type (rule node) = rule_type
  ∧ ∃ p0, sp_mapdb_rule_match_sawf (rule node) p0 = (true, p').
Proof.
  revert p. induction l as [|n l IH]; intros p; cbn [sawf_bucket_scan]; [done|].
  destruct (Z.eqb_spec (classifier_type (rule n)) rule_type) as [Hty|_].
  - destruct (sp_mapdb_rule_match_sawf (rule n) p) as [[|] p1] eqn:Hm.
    + intros [= <- <-]. split; [by left|]. split; [done|]. by exists p.
    + intros (? & ? & ?)%IH. split; [by right|done].
  - intros (? & ? & ?)%IH. split; [by right|done].
Qed.

Lemma sawf_prec_scan_Some pm n p node p' :
  sawf_prec_scan rule_type pm n p = (Some node, p') →
  node ∈ mjoin pm ∧ classifier_type (rule node) = rule_type
  ∧ ∃ p0, sp_mapdb_rule_match_sawf (rule node) p0 = (true, p').
Proof.
  revert p. induction n as [|i IH]; intros p; cbn [sawf_prec_scan]; [done|].
  destruct (sawf_bucket_scan rule_type (bucket pm i) p) as [[found|] p1] eqn:Hb.
  - intros [= <- <-]. apply sawf_bucket_scan_Some in Hb as (Hin & ? & ?).
    split; [by eapply elem_of_bucket_join|done].
  - apply IH.
Qed.

Lemma sawf_bucket_scan_no_type l p :
  (∀ n, n ∈ l → classifier_type (rule n) ≠ rule_type) →
  sawf_bucket_scan rule_type l p = (None, p).
Proof.
  induction l as [|n l IH]; intros Hl; cbn [sawf_bucket_scan]; [done|].
  destruct (Z.eqb_spec (classifier_type (rule n)) rule_type) as [Hty|_].
  - exfalso. by apply (Hl n); [left|].
  - apply IH. intros x Hx. apply Hl. by right.
Qed.

Lemma sawf_prec_scan_no_type pm n p :
  (∀ x, x ∈ mjoin pm → classifier_type (rule x) ≠ rule_type) →
  sawf_prec_scan rule_type pm n p = (None, p).
Proof.
  intros Hpm. induction n as [|i IH]; cbn [sawf_prec_scan]; [done|].
  rewrite sawf_bucket_scan_no_type; [done|].
  intros x Hx. apply Hpm. by eapply elem_of_bucket_join.
Qed.

(** Without masked comparisons a scan is a search for the first hit. *)
Lemma sawf_bucket_scan_pure l p :
  (∀ n, n ∈ l → sawf_writes (rule n) = false) →
  snd (sawf_bucket_scan rule_type l p) = p
  ∧ match fst (sawf_bucket_scan rule_type l p) with
    | Some A => A ∈ l ∧ sawf_hit rule_type p A = true
    | None => ∀ n, n ∈ l → sawf_hit rule_type p n = false
    end.
Proof.
  induction l as [|n l IH]; intros Hl; cbn [sawf_bucket_scan].
  { split; [done|]. by intros n ?%not_elem_of_nil. }
  assert (Hn : sawf_writes (rule n) = false) by (apply Hl; left).
  destruct IH as [IHp IHf]; [intros x Hx; apply Hl; by right|].
  pose proof (sawf_no_writes (rule n) p Hn) as Hsame.
  unfold sawf_hit at 1 2.
  destruct (classifier_type (rule n) =? rule_type) eqn:Hty.
  - destruct (sp_mapdb_rule_match_sawf (rule n) p) as [[|] p1] eqn:Hm;
      cbn [fst snd] in *; subst p1.
    + split; [done|]. split; [by left|]. unfold sawf_hit. by rewrite Hty, Hm.
    + split; [done|].
      destruct (fst (sawf_bucket_scan rule_type l p)) as [A|].
      * destruct IHf. split; [by right|done].
      * intros x [->|Hx]%elem_of_cons; [|by apply IHf].
        unfold sawf_hit. by rewrite Hty, Hm.
  - split; [done|].
    destruct (fst (sawf_bucket_scan rule_type l p)) as [A|].
    + destruct IHf. split; [by right|done].
    + intros x [->|Hx]%elem_of_cons; [|by apply IHf].
      unfold sawf_hit. by rewrite Hty.
Qed.

Lemma sawf_prec_scan_pure pm n p :
  (∀ x, x ∈ mjoin pm → sawf_writes (rule x) = false) →
  snd (sawf_prec_scan rule_type pm n p) = p
  ∧ match fst (sawf_prec_scan rule_type pm n p) with
    | Some A =>
        ∃ q, (q < n)%nat ∧ A ∈ bucket pm q ∧ sawf_hit rule_type p A = true
             ∧ ∀ q' x, (q < q' < n)%nat → x ∈ bucket pm q' →
                       sawf_hit rule_type p x = false
    | None => ∀ q x, (q < n)%nat → x ∈ bucket pm q → sawf_hit rule_type p x = false
    end.
Proof.
  intros Hpm. induction n as [|i [IHp IHf]]; cbn [sawf_prec_scan].
  { split; [done|]. cbn [fst]. intros; lia. }
  destruct (sawf_bucket_scan_pure (bucket pm i) p) as [Hbp Hbf].
  { intros x Hx. apply Hpm. by eapply elem_of_bucket_join. }
  destruct (sawf_bucket_scan rule_type (bucket pm i) p) as [[A|] p1];
    cbn [fst snd] in *; subst p1.
  - split; [done|]. destruct Hbf as [HA Hhit]. exists i.
    split_and!; try done; [lia|]. intros; lia.
  - split; [done|].
    destruct (fst (sawf_prec_scan rule_type pm i p)) as [A|].
    + destruct IHf as (q & Hq & HA & Hhit & Hhigh). exists q.
      split_and!; try done; [lia|].
      intros q' x Hq' Hx. destruct (decide (q' = i)) as [->|].
      * by apply Hbf.
      * apply (Hhigh q' x); [lia|done].
    + intros q x Hq Hx. destruct (decide (q = i)) as [->|].
      * by apply Hbf.
      * apply (IHf q x); [lia|done].
Qed.

(** The same for the whole table: the scan returns a hit of the highest
    precedence that has one. *)
Lemma sawf_table_scan_pure st p :
  store_inv st →
  (∀ x, x ∈ live_rules st → sawf_writes (rule x) = false) →
  snd (sawf_prec_scan rule_type (prec_map st)
         (Z.to_nat SP_MAPDB_RULE_MAX_PRECEDENCENUM) p) = p
  ∧ match fst (sawf_prec_scan rule_type (prec_map st)
                 (Z.to_nat SP_MAPDB_RULE_MAX_PRECEDENCENUM) p) with
    | Some A' =>
        A' ∈ live_rules st ∧ sawf_hit rule_type p A' = true
        ∧ ∀ A, A ∈ live_rules st → sawf_hit rule_type p A = true →
               rule_precedence (rule A) <= rule_precedence (rule A')
    | None => ∀ A, A ∈ live_rules st → sawf_hit rule_type p A = false
    end.
Proof.
  intros Hinv Hpure.
  destruct (sawf_prec_scan_pure (prec_map st)
              (Z.to_nat SP_MAPDB_RULE_MAX_PRECEDENCENUM) p Hpure) as [Hp Hf].
  split; [done|]. pose proof (inv_buckets _ Hinv) as Hlen.
  destruct (fst (sawf_prec_scan _ _ _ _)) as [A'|].
  - destruct Hf as (q & Hq & HA' & Hhit & Hhigh).
    split; [by eapply elem_of_bucket_join|]. split; [done|].
    intros A (j & Hj & HA)%elem_of_join_bucket HhitA.
    rewrite (inv_prec _ Hinv _ _ HA), (inv_prec _ Hinv _ _ HA').
    destruct (decide (q < j)%nat) as [Hlt|]; [|lia].
    rewrite (Hhigh j A) in HhitA; [done|lia|done].
  - intros A (j & Hj & HA)%elem_of_join_bucket. apply (Hf j A); [lia|done].
Qed.

End SawfScan.

(** X11.  The SCS classifier.  In any table the updater can produce,
    sp_mapdb_apply_scs() returns either the invalid priority and rule id, or
    the output (as a [uint8_t]) and the id of a live rule of type SCS that the
    SAWF matcher accepted; without a live SCS rule it returns the invalid pair
    and leaves the parameters alone.  When no live rule asks for a masked
    comparison, the parameters are never changed and the rule that answers is
    an SCS rule matching the parameters with the highest precedence among
    those: rules of other types, whatever their precedence, do not count. *)
Theorem apply_scs_result `{H : sp_header}
    (ops : list sp_mapdb_op) (params : sp_rule_input_params) :
  Forall op_well_typed ops →
  (∀ priority rule_id params',
     sp_mapdb_apply_scs (sp_mapdb_run ops) params = (priority, rule_id, params') →
     (priority, rule_id)
     = (to_uint8 SP_RULE_INVALID_PRIORITY, to_uint32 SP_RULE_INVALID_RULE_ID)
     ∨ ∃ node params0,
         node ∈ live_rules (sp_mapdb_run ops)
         ∧ classifier_type (rule node) = SP_RULE_TYPE_SCS
         ∧ sp_mapdb_rule_match_sawf (rule node) params0 = (true, params')
         ∧ priority = to_uint8 (rule_output (inner (rule node)))
         ∧ rule_id = to_uint32 (id (rule node)))
  ∧ ((∀ node, node ∈ live_rules (sp_mapdb_run ops) →
              classifier_type (rule node) ≠ SP_RULE_TYPE_SCS) →
     sp_mapdb_apply_scs (sp_mapdb_run ops) params
     = (to_uint8 SP_RULE_INVALID_PRIORITY, to_uint32 SP_RULE_INVALID_RULE_ID, params))
  ∧ ((∀ node, node ∈ live_rules (sp_mapdb_run ops) →
              sawf_writes (rule node) = false) →
     snd (sp_mapdb_apply_scs (sp_mapdb_run ops) params) = params
     ∧ ((∀ node, node ∈ live_rules (sp_mapdb_run ops) →
                 sawf_hit SP_RULE_TYPE_SCS params node = false) →
        fst (sp_mapdb_apply_scs (sp_mapdb_run ops) params)
        = (to_uint8 SP_RULE_INVALID_PRIORITY, to_uint32 SP_RULE_INVALID_RULE_ID))
     ∧ (∀ A, A ∈ live_rules (sp_mapdb_run ops) →
             sawf_hit SP_RULE_TYPE_SCS params A = true →
             ∃ A', A' ∈ live_rules (sp_mapdb_run ops)
                   ∧ sawf_hit SP_RULE_TYPE_SCS params A' = true
                   ∧ rule_precedence (rule A) <= rule_precedence (rule A')
                   ∧ fst (sp_mapdb_apply_scs (sp_mapdb_run ops) params)
                     = (to_uint8 (rule_output (inner (rule A'))),
                        to_uint32 (id (rule A'))))).
Proof.
  intros Hops. set (st := sp_mapdb_run ops) in *.
  pose proof (table_inv_run ops Hops) as [Hinv _]. fold st in Hinv.
  unfold sp_mapdb_apply_scs. split; [|split].
  - intros priority rule_id params'.
    destruct (rule_count st =? 0); [intros [= <- <- <-]; by left|].
    destruct (sawf_prec_scan _ _ _ _) as [[node|] p1] eqn:Hscan.
    + intros [= <- <- <-]. right.
      apply sawf_prec_scan_Some in Hscan as (Hin & Hty & p0 & Hm).
      by exists node, p0.
    + intros [= <- <- <-]. by left.
  - intros Hno. destruct (rule_count st =? 0); [done|].
    by rewrite sawf_prec_scan_no_type.
  - intros Hpure.
    destruct (sawf_table_scan_pure SP_RULE_TYPE_SCS st params Hinv Hpure) as [Hp Hf].
    split; [|split].
    + destruct (rule_count st =? 0); [done|].
      by destruct (sawf_prec_scan _ _ _ _) as [[node|] p1].
    + intros Hno. destruct (rule_count st =? 0); [done|].
      destruct (sawf_prec_scan _ _ _ _) as [[node|] p1]; cbn [fst snd] in *; [|done].
      destruct Hf as (Hin & Hhit & _). by rewrite Hno in Hhit.
    + intros A HA Hhit. rewrite (nonempty_count st A Hinv HA).
      destruct (sawf_prec_scan _ _ _ _) as [[node|] p1]; cbn [fst snd] in *.
      * destruct Hf as (Hin & Hhit' & Hmax). exists node. split_and!; try done.
        by apply Hmax.
      * by rewrite Hf in Hhit.
Qed.

Lemma apply_scs_result_witness :
  (∃ A', A' ∈ live_rules
                (sp_mapdb_run (H := sp_header_example 3)
                   [Op_update (Some (sawf_rule 7 200 1 0 0 0 0)) true true;
                    Op_update (Some (sawf_rule 8 5 2 0 0 0 0)) true true])
         ∧ sawf_hit (H := sp_header_example 3) 2 (params_example 5) A' = true
         ∧ 5 <= rule_precedence (rule A')
         ∧ fst (sp_mapdb_apply_scs (H := sp_header_example 3)
                  (sp_mapdb_run (H := sp_header_example 3)
                     [Op_update (Some (sawf_rule 7 200 1 0 0 0 0)) true true;
                      Op_update (Some (sawf_rule 8 5 2 0 0 0 0)) true true])
                  (params_example 5))
           = (to_uint8 (rule_output (inner (rule A'))), to_uint32 (id (rule A'))))
  ∧ sp_mapdb_apply_scs (H := sp_header_example 3)
      (sp_mapdb_run (H := sp_header_example 3)
         [Op_update (Some (sawf_rule 7 200 1 0 0 0 0)) true true;
          Op_update (Some (sawf_rule 8 5 2 0 0 0 0)) true true])
      (params_example 5)
    = (0, 8, params_example 5).
Proof.
  split; [|reflexivity].
  assert (Hl : live_rules (sp_mapdb_run (H := sp_header_example 3)
                             [Op_update (Some (sawf_rule 7 200 1 0 0 0 0)) true true;
                              Op_update (Some (sawf_rule 8 5 2 0 0 0 0)) true true])
               = [{| node_addr := 1; rule := sawf_rule 8 5 2 0 0 0 0 |};
                  {| node_addr := 0; rule := sawf_rule 7 200 1 0 0 0 0 |}])
    by (vm_compute; reflexivity).
  refine (proj2 (proj2 (proj2 (proj2 (apply_scs_result (H := sp_header_example 3)
                          [Op_update (Some (sawf_rule 7 200 1 0 0 0 0)) true true;
                           Op_update (Some (sawf_rule 8 5 2 0 0 0 0)) true true]
                          (params_example 5) _)) _))
            {| node_addr := 1; rule := sawf_rule 8 5 2 0 0 0 0 |} _ _).
  - repeat constructor; cbn; lia.
  - intros node Hn. rewrite Hl in Hn.
    apply elem_of_cons in Hn as [->|Hn]; [reflexivity|].
    apply list_elem_of_singleton in Hn. subst node. reflexivity.
  - rewrite Hl. left.
  - reflexivity.
Defined.

(** X12.  The SAWF classifier.  In any table the updater can produce,
    sp_mapdb_rule_apply_sawf() returns either its invalid output (invalid
    service class, rule id and remarks, priority [SP_MAPDB_USE_DSCP]) or the
    output of a live rule of type SAWF or SAWF-SCS that the matcher accepted.
    When no live rule asks for a masked comparison, the parameters are never
    changed and: a SAWF rule that matches is answered by a matching SAWF rule
    of at least its precedence, whatever SAWF-SCS rules there are and whatever
    their precedence; only when no SAWF rule matches does a matching
    SAWF-SCS rule answer, again the one of highest precedence; when neither
    kind matches the output is the invalid one. *)
Theorem apply_sawf_result `{H : sp_header} `{HS : sp_header_sawf}
    (ops : list sp_mapdb_op) (params : sp_rule_input_params) :
  Forall op_well_typed ops →
  (∀ out params',
     sp_mapdb_rule_apply_sawf (sp_mapdb_run ops) params = (out, params') →
     out = sawf_output_invalid
     ∨ ∃ node params0,
         node ∈ live_rules (sp_mapdb_run ops)
         ∧ (classifier_type (rule node) = SP_RULE_TYPE_SAWF
            ∨ classifier_type (rule node) = SP_RULE_TYPE_SAWF_SCS)
         ∧ sp_mapdb_rule_match_sawf (rule node) params0 = (true, params')
         ∧ out = sawf_output (rule node))
  ∧ ((∀ node, node ∈ live_rules (sp_mapdb_run ops) →
              sawf_writes (rule node) = false) →
     snd (sp_mapdb_rule_apply_sawf (sp_mapdb_run ops) params) = params
     ∧ (∀ A, A ∈ live_rules (sp_mapdb_run ops) →
             sawf_hit SP_RULE_TYPE_SAWF params A = true →
             ∃ A', A' ∈ live_rules (sp_mapdb_run ops)
                   ∧ sawf_hit SP_RULE_TYPE_SAWF params A' = true
                   ∧ rule_precedence (rule A) <= rule_precedence (rule A')
                   ∧ fst (sp_mapdb_rule_apply_sawf (sp_mapdb_run ops) params)
                     = sawf_output (rule A'))
     ∧ ((∀ node, node ∈ live_rules (sp_mapdb_run ops) →
                 sawf_hit SP_RULE_TYPE_SAWF params node = false) →
        ∀ B, B ∈ live_rules (sp_mapdb_run ops) →
             sawf_hit SP_RULE_TYPE_SAWF_SCS params B = true →
             ∃ B', B' ∈ live_rules (sp_mapdb_run ops)
                   ∧ sawf_hit SP_RULE_TYPE_SAWF_SCS params B' = true
                   ∧ rule_precedence (rule B) <= rule_precedence (rule B')
                   ∧ fst (sp_mapdb_rule_apply_sawf (sp_mapdb_run ops) params)
                     = sawf_output (rule B'))
     ∧ ((∀ node, node ∈ live_rules (sp_mapdb_run ops) →
                 sawf_hit SP_RULE_TYPE_SAWF params node = false
                 ∧ sawf_hit SP_RULE_TYPE_SAWF_SCS params node = false) →
        fst (sp_mapdb_rule_apply_sawf (sp_mapdb_run ops) params)
        = sawf_output_invalid)).
Proof.
  intros Hops. set (st := sp_mapdb_run ops) in *.
  pose proof (table_inv_run ops Hops) as [Hinv _]. fold st in Hinv.
  unfold sp_mapdb_rule_apply_sawf. split.
  - intros out params'.
    destruct (rule_count st =? 0); [intros [= <- <-]; by left|].
    destruct (sawf_prec_scan SP_RULE_TYPE_SAWF _ _ _) as [[node|] p1] eqn:Hscan.
    { intros [= <- <-]. right.
      apply sawf_prec_scan_Some in Hscan as (Hin & Hty & p0 & Hm).
      exists node, p0. split_and!; try done. by left. }
    destruct (sawf_prec_scan SP_RULE_TYPE_SAWF_SCS _ _ _) as [[node|] p2] eqn:Hscan2.
    { intros [= <- <-]. right.
      apply sawf_prec_scan_Some in Hscan2 as (Hin & Hty & p0 & Hm).
      exists node, p0. split_and!; try done. by right. }
    intros [= <- <-]. by left.
  - intros Hpure.
    destruct (sawf_table_scan_pure SP_RULE_TYPE_SAWF st params Hinv Hpure) as [Hp Hf].
    destruct (sawf_table_scan_pure SP_RULE_TYPE_SAWF_SCS st params Hinv Hpure)
      as [Hp2 Hf2].
    destruct (sawf_prec_scan SP_RULE_TYPE_SAWF _ _ _) as [[node|] p1];
      cbn [fst snd] in *; subst p1.
    + destruct Hf as (Hin & Hhit & Hmax).
      rewrite (nonempty_count st node Hinv Hin). cbn [fst snd].
      split; [done|]. split; [|split].
      * intros A HA HhitA. exists node. split_and!; try done. by apply Hmax.
      * intros Hno. by rewrite Hno in Hhit.
      * intros Hno. destruct (Hno node Hin) as [Hn _]. congruence.
    + destruct (sawf_prec_scan SP_RULE_TYPE_SAWF_SCS _ _ _) as [[node|] p2];
        cbn [fst snd] in *; subst p2.
      * destruct Hf2 as (Hin & Hhit & Hmax).
        rewrite (nonempty_count st node Hinv Hin). cbn [fst snd].
        split; [done|]. split; [|split].
        -- intros A HA HhitA. by rewrite Hf in HhitA.
        -- intros _ B HB HhitB. exists node. split_and!; try done. by apply Hmax.
        -- intros Hno. destruct (Hno node Hin) as [_ Hn]. congruence.
      * split; [by destruct (_ =? _)|]. split; [|split].
        -- intros A HA HhitA. by rewrite Hf in HhitA.
        -- intros _ B HB HhitB. by rewrite Hf2 in HhitB.
        -- intros _. by destruct (_ =? _).
Qed.

Lemma apply_sawf_result_witness :
  (∃ A', A' ∈ live_rules
                (sp_mapdb_run (H := sp_header_example 3)
                   [Op_update (Some (sawf_rule 7 3 1 0 0 0 0)) true true;
                    Op_update (Some (sawf_rule 8 200 4 0 0 0 0)) true true])
         ∧ sawf_hit (H := sp_header_example 3) 1 (params_example 5) A' = true
         ∧ 3 <= rule_precedence (rule A')
         ∧ fst (sp_mapdb_rule_apply_sawf (H := sp_header_example 3)
                  (HS := sp_header_sawf_example)
                  (sp_mapdb_run (H := sp_header_example 3)
                     [Op_update (Some (sawf_rule 7 3 1 0 0 0 0)) true true;
                      Op_update (Some (sawf_rule 8 200 4 0 0 0 0)) true true])
                  (params_example 5))
           = sawf_output (rule A'))
  ∧ Output.rule_id
      (fst (sp_mapdb_rule_apply_sawf (H := sp_header_example 3)
              (HS := sp_header_sawf_example)
              (sp_mapdb_run (H := sp_header_example 3)
                 [Op_update (Some (sawf_rule 7 3 1 0 0 0 0)) true true;
                  Op_update (Some (sawf_rule 8 200 4 0 0 0 0)) true true])
              (params_example 5))) = 7.
Proof.
  split; [|reflexivity].
  assert (Hl : live_rules (sp_mapdb_run (H := sp_header_example 3)
                             [Op_update (Some (sawf_rule 7 3 1 0 0 0 0)) true true;
                              Op_update (Some (sawf_rule 8 200 4 0 0 0 0)) true true])
               = [{| node_addr := 0; rule := sawf_rule 7 3 1 0 0 0 0 |};
                  {| node_addr := 1; rule := sawf_rule 8 200 4 0 0 0 0 |}])
    by (vm_compute; reflexivity).
  refine (proj1 (proj2 (proj2 (apply_sawf_result (H := sp_header_example 3)
                          (HS := sp_header_sawf_example)
                          [Op_update (Some (sawf_rule 7 3 1 0 0 0 0)) true true;
                           Op_update (Some (sawf_rule 8 200 4 0 0 0 0)) true true]
                          (params_example 5) _) _))
            {| node_addr := 0; rule := sawf_rule 7 3 1 0 0 0 0 |} _ _).
  - repeat constructor; cbn; lia.
  - intros node Hn. rewrite Hl in Hn.
    apply elem_of_cons in Hn as [->|Hn]; [reflexivity|].
    apply list_elem_of_singleton in Hn. subst node. reflexivity.
  - rewrite Hl. left.
  - reflexivity.
Defined.

(** ** Queries *)

Section QueryFacts.
Context `{H : sp_header} `{HS : sp_header_sawf}.

Lemma rule_query_spec st ruleid r :
  store_inv st →
  sp_mapdb_rule_query st ruleid = Some r
  ↔ ∃ node, node ∈ live_rules st ∧ rule node = r
            ∧ id r = ruleid ∧ classifier_type r = SP_RULE_TYPE_SAWF.
Proof.
  intros Hinv. unfold sp_mapdb_rule_query. split.
  - destruct (rule_count st =? 0); [done|].
    destruct (sp_mapdb_search_hashentry st ruleid SP_RULE_TYPE_SAWF)
      as [[i cur]|] eqn:Hs; [|done].
    intros [= <-]. apply search_hashentry_Some in Hs as [Hi Hk].
    exists cur. split.
    + rewrite <-(inv_index _ Hinv). by eapply list_elem_of_lookup_2.
    + unfold node_key in Hk. by injection Hk.
  - intros (node & Hin & <- & Hid & Hty).
    rewrite (nonempty_count st node Hinv Hin).
    rewrite <-(inv_index _ Hinv) in Hin.
    destruct (sp_mapdb_search_hashentry st ruleid SP_RULE_TYPE_SAWF)
      as [[i cur]|] eqn:Hs.
    + apply search_hashentry_Some in Hs as [Hi Hk]. f_equal. f_equal.
      eapply (NoDup_fmap_eq node_key (rule_id_hashmap st));
        [apply (inv_keys _ Hinv) | by eapply list_elem_of_lookup_2 | done |].
      rewrite Hk. unfold node_key. by rewrite Hid, Hty.
    + apply search_hashentry_None in Hs. exfalso. apply Hs.
      apply list_elem_of_fmap. exists node. split; [|done].
      unfold node_key. by rewrite Hid, Hty.
Qed.

Lemma rule_query_after_add st r alloc_node alloc_hash :
  table_inv st → rule_well_typed r →
  classifier_type r = SP_RULE_TYPE_SAWF →
  cmd r = SP_MAPDB_ADD_REMOVE_FILTER_ADD →
  SP_MAPDB_ADD_REMOVE_FILTER_DELETE ≠ SP_MAPDB_ADD_REMOVE_FILTER_ADD →
  is_success (fst (sp_mapdb_rule_update st (Some r) alloc_node alloc_hash)) = true →
  sp_mapdb_rule_query (snd (sp_mapdb_rule_update st (Some r) alloc_node alloc_hash)) (id r)
  = Some (stored_rule r SP_RULE_TYPE_SAWF).
Proof.
  intros Hinv Hr Hty Hc Hne Hok.
  pose proof (table_inv_update _ (Some r) alloc_node alloc_hash Hr Hinv) as [Hinv' _].
  apply rule_query_spec; [done|]. destruct Hinv as [Hinv Hw].
  rewrite update_add in Hok, Hinv' |- * by done. cbn [fst snd] in *.
  pose proof (add_success_indexed _ _ _ _ _ Hok) as Hin.
  rewrite Hty in Hinv', Hin |- *.
  exists {| node_addr := next_node (set_single_writer st true);
            rule := stored_rule r SP_RULE_TYPE_SAWF |}.
  split; [|split; [reflexivity|]].
  - rewrite <-(inv_index _ Hinv'). exact Hin.
  - unfold stored_rule. by destruct (_ =? _).
Qed.

End QueryFacts.

(** X13.  What a query can see.  In any table the updater can produce, the
    lookup of sp_mapdb_rule_query() returns a rule exactly when a live rule
    has the requested id and the rule type SAWF, and then it returns that
    rule: rules of the other types (MESH, SCS, MSCS, SAWF-SCS) are never
    reported, whatever their id.  After an accepted add request for a SAWF
    rule, the query for its id returns the rule as it was stored. *)
Theorem rule_query_sawf_only `{H : sp_header} `{HS : sp_header_sawf}
    (ops : list sp_mapdb_op) (ruleid : Z) :
  Forall op_well_typed ops →
  (∀ r, sp_mapdb_rule_query (sp_mapdb_run ops) ruleid = Some r
        ↔ ∃ node, node ∈ live_rules (sp_mapdb_run ops) ∧ rule node = r
                  ∧ id r = ruleid ∧ classifier_type r = SP_RULE_TYPE_SAWF)
  ∧ (∀ r alloc_node alloc_hash,
       rule_well_typed r → id r = ruleid →
       classifier_type r = SP_RULE_TYPE_SAWF →
       cmd r = SP_MAPDB_ADD_REMOVE_FILTER_ADD →
       SP_MAPDB_ADD_REMOVE_FILTER_DELETE ≠ SP_MAPDB_ADD_REMOVE_FILTER_ADD →
       is_success (fst (sp_mapdb_rule_update (sp_mapdb_run ops) (Some r)
                          alloc_node alloc_hash)) = true →
       sp_mapdb_rule_query
         (snd (sp_mapdb_rule_update (sp_mapdb_run ops) (Some r) alloc_node alloc_hash))
         ruleid
       = Some (stored_rule r SP_RULE_TYPE_SAWF)).
Proof.
  intros Hops. pose proof (table_inv_run ops Hops) as Hinv. split.
  - intros r. apply rule_query_spec, Hinv.
  - intros r alloc_node alloc_hash Hr <- Hty Hc Hne Hok.
    by apply rule_query_after_add.
Qed.

Lemma rule_query_sawf_only_witness :
  sp_mapdb_rule_query (H := sp_header_example 3)
    (snd (sp_mapdb_rule_update (H := sp_header_example 3)
            (sp_mapdb_run (H := sp_header_example 3) (take 2 ops_example))
            (Some (sawf_rule 1 255 1 0 0 0 0)) true true))
    1
  = Some (stored_rule (sawf_rule 1 255 1 0 0 0 0) 1)
  ∧ sp_mapdb_rule_query (H := sp_header_example 3)
      (sp_mapdb_run (H := sp_header_example 3) (take 2 ops_example)) 1 = None.
Proof.
  split; [|reflexivity].
  refine (proj2 (rule_query_sawf_only (H := sp_header_example 3)
                   (HS := sp_header_sawf_example) (take 2 ops_example) 1 _)
            (sawf_rule 1 255 1 0 0 0 0) true true _ _ _ _ _ _).
  - repeat constructor; cbn; lia.
  - unfold rule_well_typed. cbn. lia.
  - reflexivity.
  - reflexivity.
  - reflexivity.
  - cbn. lia.
  - reflexivity.
Defined.

(** ** More on the matchers *)

Section MatcherMore.
Context `{H : sp_header}.

Lemma flag_set_0 bit : flag_set 0 bit = false.
Proof. done. Qed.

Lemma rule_match_no_flags skb rule smac dmac :
  flags (inner rule) = 0 → sp_mapdb_rule_match skb rule smac dmac = true.
Proof.
  intros Hf.
  unfold sp_mapdb_rule_match, match_up, match_source_mac, match_dst_mac, match_vlan_id,
    match_ipv4, field_check.
  by rewrite Hf, !flag_set_0.
Qed.

Lemma rule_match_sawf_no_flags rule p :
  flags_sawf (inner rule) = 0 → sp_mapdb_rule_match_sawf rule p = (true, p).
Proof.
  intros Hf.
  unfold sp_mapdb_rule_match_sawf, sawf_seq, sawf_guard, sawf_ip_version_type,
    sawf_dst_mac, sawf_dst_port, sawf_dst_port_range, sawf_dst_ipv4, sawf_source_mac,
    sawf_src_ipv6, sawf_dst_ipv6, sawf_src_port, sawf_src_port_range, sawf_src_ipv4,
    sawf_protocol, sawf_dscp, sawf_vlan_pcp, sawf_vlan_id, sawf_spi.
  by rewrite Hf, !flag_set_0.
Qed.

Lemma sawf_seq_true (c1 c2 : sawf_check) p :
  fst ((c1 ;;; c2) p) = true →
  fst (c1 p) = true ∧ fst (c2 (snd (c1 p))) = true.
Proof. unfold sawf_seq. by destruct (c1 p) as [[|] p1]. Qed.

End MatcherMore.

(** X14.  A rule without match flags matches everything.  With
    [inner.flags] 0 the generic matcher accepts every packet and every pair of
    MAC addresses; with [inner.flags_sawf] 0 the SAWF matcher accepts every
    set of parameters and leaves them unchanged.  So a MESH rule that sets no
    flag acts as a catch-all of its precedence, and so does a SAWF, SCS or
    MSCS rule that was received without a match attribute. *)
Theorem flagless_rule_matches `{H : sp_header} (rule : sp_rule) :
  (flags (inner rule) = 0 →
   ∀ skb smac dmac, sp_mapdb_rule_match skb rule smac dmac = true)
  ∧ (flags_sawf (inner rule) = 0 →
     ∀ params, sp_mapdb_rule_match_sawf rule params = (true, params)).
Proof.
  split.
  - intros Hf skb smac dmac. by apply rule_match_no_flags.
  - intros Hf params. by apply rule_match_sawf_no_flags.
Qed.

(** X15.  What the generic matcher needs of the packet.  For a rule without
    the always-true flag: a rule with the VLAN id flag does not match a frame
    whose Ethernet type is not 802.1Q, and a rule with any of the six IPv4
    flags (addresses, ports, protocol, DSCP) does not match a packet that is
    not IPv4, or whose IP header cannot be pulled, or that is TCP (UDP) with a
    TCP (UDP) header that cannot be pulled -- in each case whatever the
    sense flags say, and in the last case even if no port flag is set. *)
Theorem rule_match_needs_headers `{H : sp_header} (skb : sk_buff) (rule : sp_rule)
    (smac dmac : mac_addr) :
  flag_set (flags (inner rule)) SP_RULE_FLAG_MATCH_ALWAYS_TRUE = false →
  (flag_set (flags (inner rule)) SP_RULE_FLAG_MATCH_VLAN_ID = true →
   ntohs (eth_h_proto skb) ≠ ETH_P_8021Q →
   sp_mapdb_rule_match skb rule smac dmac = false)
  ∧ (flag_set (flags (inner rule)) ipv4_group = true →
     skb_protocol skb ≠ ntohs ETH_P_IP ∨ may_pull_iphdr skb = false
     ∨ (iph_protocol skb = IPPROTO_TCP ∧ may_pull_tcphdr skb = false)
     ∨ (iph_protocol skb = IPPROTO_UDP ∧ may_pull_udphdr skb = false) →
     sp_mapdb_rule_match skb rule smac dmac = false)
  ∧ (flag_set (flags (inner rule)) ipv4_group
     = flag_set (flags (inner rule)) SP_RULE_FLAG_MATCH_SRC_IPV4
       || flag_set (flags (inner rule)) SP_RULE_FLAG_MATCH_DST_IPV4
       || flag_set (flags (inner rule)) SP_RULE_FLAG_MATCH_SRC_PORT
       || flag_set (flags (inner rule)) SP_RULE_FLAG_MATCH_DST_PORT
       || flag_set (flags (inner rule)) SP_RULE_FLAG_MATCH_DSCP
       || flag_set (flags (inner rule)) SP_RULE_FLAG_MATCH_PROTOCOL).
Proof.
  intros Hat. rewrite rule_match_fields by done. split; [|split].
  - intros Hv Hty. unfold match_vlan_id. rewrite Hv.
    destruct (Z.eqb_spec (ntohs (eth_h_proto skb)) ETH_P_8021Q); [done|].
    cbv iota. rewrite andb_false_iff. left. rewrite andb_false_iff. by right.
  - intros Hg Hpkt. unfold match_ipv4. rewrite Hg.
    destruct (Z.eqb_spec (skb_protocol skb) (ntohs ETH_P_IP)) as [Hip|];
      [|cbv iota; rewrite andb_false_iff; by right].
    destruct (may_pull_iphdr skb) eqn:Hpull; [|cbv iota; rewrite andb_false_iff; by right].
    destruct Hpkt as [?|[?|[[Htcp Hpt]|[Hudp Hpu]]]]; [done..| |].
    + unfold transport_ports. rewrite Htcp, Z.eqb_refl, Hpt.
      cbv iota. rewrite !andb_false_iff. right. by right.
    + unfold transport_ports. rewrite Hudp, Z.eqb_refl, Hpu.
      change (IPPROTO_UDP =? IPPROTO_TCP) with false.
      cbv iota. rewrite !andb_false_iff. right. by right.
  - apply flag_set_ipv4_group.
Qed.

Lemma rule_match_needs_headers_witness :
  sp_mapdb_rule_match (H := sp_header_example 3)
    {| skb_priority := 0; skb_protocol := 8; eth_h_proto := 8; vlan_h_vlan_TCI := 0;
       may_pull_iphdr := true; iph_tos := 184; iph_saddr := 0; iph_daddr := 0;
       iph_protocol := 6; ipv6h_dsfield := 0;
       may_pull_tcphdr := false; tcph_source := 0; tcph_dest := 0;
       may_pull_udphdr := true; udph_source := 0; udph_dest := 0 |}
    (mesh_rule 1 0 524288 0 0 5) 0 0 = false.
Proof.
  refine (proj1 (proj2 (rule_match_needs_headers (H := sp_header_example 3)
                          _ _ 0 0 _)) _ _).
  - reflexivity.
  - reflexivity.
  - right. right. left. split; reflexivity.
Defined.

(** ** The read-only tests of the SAWF matcher *)

Section SawfReadOnly.
Context `{H : sp_header}.
Variable rule : sp_rule.

Lemma sawf_frame_step (c : sawf_check) p q :
  sawf_framed rule c → sawf_frame rule p q → sawf_frame rule p (snd (c q)).
Proof. intros Hc Hpq. eapply sawf_frame_trans; [exact Hpq | apply Hc]. Qed.

(** The eleven tests that only read evaluate alike on framed parameters. *)
Lemma sawf_read_only_frame p q :
  sawf_frame rule p q →
  fst (sawf_ip_version_type rule q) = fst (sawf_ip_version_type rule p)
  ∧ fst (sawf_dst_mac rule q) = fst (sawf_dst_mac rule p)
  ∧ fst (sawf_dst_port rule q) = fst (sawf_dst_port rule p)
  ∧ fst (sawf_dst_port_range rule q) = fst (sawf_dst_port_range rule p)
  ∧ fst (sawf_source_mac rule q) = fst (sawf_source_mac rule p)
  ∧ fst (sawf_src_port rule q) = fst (sawf_src_port rule p)
  ∧ fst (sawf_src_port_range rule q) = fst (sawf_src_port_range rule p)
  ∧ fst (sawf_protocol rule q) = fst (sawf_protocol rule p)
  ∧ fst (sawf_dscp rule q) = fst (sawf_dscp rule p)
  ∧ fst (sawf_vlan_pcp rule q) = fst (sawf_vlan_pcp rule p)
  ∧ fst (sawf_vlan_id rule q) = fst (sawf_vlan_id rule p).
Proof.
  intros Hf.
  unfold sawf_ip_version_type, sawf_dst_mac, sawf_dst_port, sawf_dst_port_range,
    sawf_source_mac, sawf_src_port, sawf_src_port_range, sawf_protocol, sawf_dscp,
    sawf_vlan_pcp, sawf_vlan_id, sawf_guard. cbn [fst].
  rewrite (frame_src_mac _ _ _ Hf), (frame_src_port _ _ _ Hf), (frame_dst_mac _ _ _ Hf),
    (frame_dst_port _ _ _ Hf), (frame_ip_version_type _ _ _ Hf),
    (frame_dev_addr _ _ _ Hf), (frame_ifindex _ _ _ Hf), (frame_protocol _ _ _ Hf),
    (frame_dscp _ _ _ Hf), (frame_vlan_tci _ _ _ Hf).
  by split_and!.
Qed.

Lemma sawf_seq_guard_true (g c : sawf_check) p :
  (∀ q, snd (g q) = q) →
  fst ((g ;;; c) p) = true → fst (g p) = true ∧ fst (c p) = true.
Proof.
  intros Hg Hv. apply sawf_seq_true in Hv as [? Hv]. by rewrite Hg in Hv.
Qed.

Lemma sawf_match_read_only p :
  fst (sp_mapdb_rule_match_sawf rule p) = true →
  fst (sawf_ip_version_type rule p) = true
  ∧ fst (sawf_dst_mac rule p) = true
  ∧ fst (sawf_dst_port rule p) = true
  ∧ fst (sawf_dst_port_range rule p) = true
  ∧ fst (sawf_source_mac rule p) = true
  ∧ fst (sawf_src_port rule p) = true
  ∧ fst (sawf_src_port_range rule p) = true
  ∧ fst (sawf_protocol rule p) = true
  ∧ fst (sawf_dscp rule p) = true
  ∧ fst (sawf_vlan_pcp rule p) = true
  ∧ fst (sawf_vlan_id rule p) = true.
Proof.
  unfold sp_mapdb_rule_match_sawf. intros Hv.
  pose proof (sawf_frame_refl rule p) as F0.
  apply sawf_seq_guard_true in Hv as [H1 Hv]; [|done].
  apply sawf_seq_guard_true in Hv as [H2 Hv]; [|done].
  apply sawf_seq_guard_true in Hv as [H3 Hv]; [|done].
  apply sawf_seq_guard_true in Hv as [H4 Hv]; [|done].
  apply sawf_seq_true in Hv as [_ Hv].
  pose proof (sawf_frame_step _ _ _ (sawf_framed_dst_ipv4 rule) F0) as F1.
  set (p1 := snd (sawf_dst_ipv4 rule p)) in *.
  apply sawf_seq_guard_true in Hv as [H6 Hv]; [|done].
  apply sawf_seq_true in Hv as [_ Hv].
  pose proof (sawf_frame_step _ _ _ (sawf_framed_src_ipv6 rule) F1) as F2.
  set (p2 := snd (sawf_src_ipv6 rule p1)) in *.
  apply sawf_seq_true in Hv as [_ Hv].
  pose proof (sawf_frame_step _ _ _ (sawf_framed_dst_ipv6 rule) F2) as F3.
  set (p3 := snd (sawf_dst_ipv6 rule p2)) in *.
  apply sawf_seq_guard_true in Hv as [H9 Hv]; [|done].
  apply sawf_seq_guard_true in Hv as [H10 Hv]; [|done].
  apply sawf_seq_true in Hv as [_ Hv].
  pose proof (sawf_frame_step _ _ _ (sawf_framed_src_ipv4 rule) F3) as F4.
  set (p4 := snd (sawf_src_ipv4 rule p3)) in *.
  apply sawf_seq_guard_true in Hv as [H12 Hv]; [|done].
  apply sawf_seq_guard_true in Hv as [H13 Hv]; [|done].
  apply sawf_seq_guard_true in Hv as [H14 Hv]; [|done].
  apply sawf_seq_guard_true in Hv as [H15 _]; [|done].
  destruct (sawf_read_only_frame p p1 F1) as (_ & _ & _ & _ & E6 & _).
  destruct (sawf_read_only_frame p p3 F3) as (_ & _ & _ & _ & _ & E9 & E10 & _).
  destruct (sawf_read_only_frame p p4 F4)
    as (_ & _ & _ & _ & _ & _ & _ & E12 & E13 & E14 & E15).
  split_and!.
  - exact H1.
  - exact H2.
  - exact H3.
  - exact H4.
  - by rewrite <-E6.
  - by rewrite <-E9.
  - by rewrite <-E10.
  - by rewrite <-E12.
  - by rewrite <-E13.
  - by rewrite <-E14.
  - by rewrite <-E15.
Qed.

End SawfReadOnly.

(** X16.  What the SAWF matcher reads.  Although the matcher writes masked
    addresses back into the parameters while it runs, the tests of the
    members it never writes are tests of the caller's values: whenever
    sp_mapdb_rule_match_sawf() accepts, the IP version, the two MAC
    addresses (with the netdevice fallback of SAWF-SCS rules), the ports and
    port ranges, the protocol, the DSCP, the VLAN PCP and the VLAN id each
    pass on the parameters as they were passed in.  In particular a rule with
    the VLAN PCP or VLAN id flag never accepts parameters whose tag is
    [SP_RULE_INVALID_VLAN_TCI]. *)
Theorem sawf_match_reads_caller_values `{H : sp_header} (rule : sp_rule)
    (params : sp_rule_input_params) :
  fst (sp_mapdb_rule_match_sawf rule params) = true →
  (fst (sawf_ip_version_type rule params) = true
   ∧ fst (sawf_dst_mac rule params) = true
   ∧ fst (sawf_dst_port rule params) = true
   ∧ fst (sawf_dst_port_range rule params) = true
   ∧ fst (sawf_source_mac rule params) = true
   ∧ fst (sawf_src_port rule params) = true
   ∧ fst (sawf_src_port_range rule params) = true
   ∧ fst (sawf_protocol rule params) = true
   ∧ fst (sawf_dscp rule params) = true
   ∧ fst (sawf_vlan_pcp rule params) = true
   ∧ fst (sawf_vlan_id rule params) = true)
  ∧ (flag_set (flags_sawf (inner rule)) SP_RULE_FLAG_MATCH_SAWF_VLAN_PCP = true
     ∨ flag_set (flags_sawf (inner rule)) SP_RULE_FLAG_MATCH_SAWF_VLAN_ID = true →
     Params.vlan_tci params ≠ SP_RULE_INVALID_VLAN_TCI).
Proof.
  intros Hv. pose proof (sawf_match_read_only rule params Hv) as Hall.
  split; [exact Hall|].
  destruct Hall as (_ & _ & _ & _ & _ & _ & _ & _ & _ & Hpcp & Hvid).
  unfold sawf_vlan_pcp, sawf_vlan_id, sawf_guard in Hpcp, Hvid. cbn [fst] in Hpcp, Hvid.
  intros [Hf|Hf] Htci; rewrite Hf in *; apply Z.eqb_eq in Htci; by rewrite Htci in *.
Qed.

Lemma sawf_match_reads_caller_values_witness :
  fst (sawf_vlan_id (H := sp_header_example 3)
         (sawf_rule 1 0 1 1048608 167772160 0 0) (params_example 167772160)) = true
  ∧ Params.vlan_tci (params_example 167772160) ≠ 4294967295.
Proof.
  destruct (sawf_match_reads_caller_values (H := sp_header_example 3)
              (sawf_rule 1 0 1 1048608 167772160 0 0) (params_example 167772160))
    as [Hall Htci].
  - reflexivity.
  - split.
    + apply Hall.
    + apply Htci. right. reflexivity.
Defined.

(** ** The netlink receiver *)

Section ReceiverFacts.
Context `{H : sp_header} `{HS : sp_header_sawf}.

Lemma land_lor_keep m G F : Z.land m F = F → Z.land (Z.lor m G) F = F.
Proof.
  intros Hm. apply Z.bits_inj'. intros n Hn.
  assert (Hb : Z.testbit (Z.land m F) n = Z.testbit F n) by (by rewrite Hm).
  rewrite Z.land_spec in Hb. rewrite Z.land_spec, Z.lor_spec.
  by destruct (Z.testbit m n), (Z.testbit G n), (Z.testbit F n).
Qed.

Lemma land_lor_self m F : Z.land (Z.lor m F) F = F.
Proof.
  apply Z.bits_inj'. intros n Hn. rewrite Z.land_spec, Z.lor_spec.
  by destruct (Z.testbit m n), (Z.testbit F n).
Qed.

Lemma fold_mask_or_keep l m F :
  Z.land m F = F → Z.land (fold_left mask_or l m) F = F.
Proof.
  revert m. induction l as [|[present G] l IH]; intros m Hm; cbn [fold_left]; [done|].
  apply IH. unfold mask_or. cbn [fst snd]. destruct present; [|done].
  by apply land_lor_keep.
Qed.

(** A flag whose statement is reached is in the mask, with all its bits. *)
Lemma fold_mask_or_covers l m F :
  (true, F) ∈ l → Z.land (fold_left mask_or l m) F = F.
Proof.
  revert m. induction l as [|e l IH]; intros m; [by intros ?%not_elem_of_nil|].
  intros [<-|Hin]%elem_of_cons; cbn [fold_left]; [|by apply IH].
  apply fold_mask_or_keep. unfold mask_or. cbn [fst snd]. apply land_lor_self.
Qed.

(** When no statement is reached the mask stays 0. *)
Lemma fold_mask_or_none l m :
  (∀ e, e ∈ l → fst e = false) → fold_left mask_or l m = m.
Proof.
  revert m. induction l as [|e l IH]; intros m Hl; cbn [fold_left]; [done|].
  rewrite IH by (intros x Hx; apply Hl; by right).
  unfold mask_or. by rewrite (Hl e) by left.
Qed.

Lemma flag_set_covers fl F : Z.land fl F = F → F ≠ 0 → flag_set fl F = true.
Proof.
  intros Hl Hne. unfold flag_set. rewrite Hl. by destruct (Z.eqb_spec F 0).
Qed.

Lemma receive_rule_flags a :
  flags (inner (receive_rule a)) = 0
  ∧ flags_sawf (inner (receive_rule a)) = receive_mask a.
Proof. done. Qed.

Lemma receive_update st a alloc_node alloc_hash :
  receive_rejects a = false →
  sp_mapdb_rule_receive st a alloc_node alloc_hash
  = sp_mapdb_rule_update st (Some (receive_rule a)) alloc_node alloc_hash.
Proof. unfold sp_mapdb_rule_receive. by intros ->. Qed.

End ReceiverFacts.

(** X17.  Messages that are not applied.  A message whose command attribute
    is present but is neither delete nor add, or that gives only one of the
    two bounds of the source or of the destination port range, is answered
    with invalid-entry and the table is not touched -- whatever else the
    message holds, and even while another writer holds the table.  More
    generally, whenever the status sent back by sp_mapdb_rule_receive() is
    not one of the three success codes, the table is as it was. *)
Theorem receive_rejected `{H : sp_header} `{HS : sp_header_sawf}
    (st : sp_mapdb_state) (a : genl_attrs) (alloc_node alloc_hash : bool) :
  ((∃ rule_cmd, Attrs.SP_GNL_ATTR_ADD_DELETE_RULE a = Some rule_cmd
                ∧ rule_cmd ≠ SP_MAPDB_ADD_REMOVE_FILTER_DELETE
                ∧ rule_cmd ≠ SP_MAPDB_ADD_REMOVE_FILTER_ADD)
   ∨ (is_Some (Attrs.SP_GNL_ATTR_SRC_PORT_RANGE_START a)
      ∧ Attrs.SP_GNL_ATTR_SRC_PORT_RANGE_END a = None)
   ∨ (Attrs.SP_GNL_ATTR_SRC_PORT_RANGE_START a = None
      ∧ is_Some (Attrs.SP_GNL_ATTR_SRC_PORT_RANGE_END a))
   ∨ (is_Some (Attrs.SP_GNL_ATTR_DST_PORT_RANGE_START a)
      ∧ Attrs.SP_GNL_ATTR_DST_PORT_RANGE_END a = None)
   ∨ (Attrs.SP_GNL_ATTR_DST_PORT_RANGE_START a = None
      ∧ is_Some (Attrs.SP_GNL_ATTR_DST_PORT_RANGE_END a)) →
   sp_mapdb_rule_receive st a alloc_node alloc_hash
   = (SP_MAPDB_UPDATE_RESULT_ERR_INVALIDENTRY, st))
  ∧ (is_success (fst (sp_mapdb_rule_receive st a alloc_node alloc_hash)) = false →
     snd (sp_mapdb_rule_receive st a alloc_node alloc_hash) = st).
Proof.
  split.
  - intros Hbad. unfold sp_mapdb_rule_receive.
    assert (Hrej : receive_rejects a = true); [|by rewrite Hrej].
    unfold receive_rejects.
    destruct Hbad as [(c & -> & Hd & Ha)|[[[x Hs] He]|[[Hs [x He]]|[[[x Hs] He]|[Hs [x He]]]]]].
    + destruct (Z.eqb_spec c SP_MAPDB_ADD_REMOVE_FILTER_DELETE); [done|].
      by destruct (Z.eqb_spec c SP_MAPDB_ADD_REMOVE_FILTER_ADD).
    + rewrite Hs, He. cbn. by rewrite orb_true_r.
    + rewrite Hs, He. cbn. by rewrite orb_true_r.
    + rewrite Hs, He. cbn. by rewrite !orb_true_r.
    + rewrite Hs, He. cbn. by rewrite !orb_true_r.
  - unfold sp_mapdb_rule_receive. destruct (receive_rejects a); [done|].
    apply rule_update_error.
Qed.

Lemma receive_rejected_witness :
  sp_mapdb_rule_receive (H := sp_header_example 3) (HS := sp_header_sawf_example)
    (sp_mapdb_run (H := sp_header_example 3) (take 2 ops_example))
    (attrs_add 9 4 5 None None (Some 1024) None) true true
  = (SP_MAPDB_UPDATE_RESULT_ERR_INVALIDENTRY,
     sp_mapdb_run (H := sp_header_example 3) (take 2 ops_example)).
Proof.
  refine (proj1 (receive_rejected (H := sp_header_example 3)
                   (HS := sp_header_sawf_example) _ _ true true) _).
  right. left. split; [by eexists | reflexivity].
Defined.

(** X18.  The flags of a received rule.  The rule that
    sp_mapdb_rule_receive() builds never has a generic match flag, so the
    generic matcher -- the one behind the MESH search and the latency
    lookup -- accepts every packet for it.  In its SAWF flag word every flag
    whose attribute is present (for a port range: whose two attributes are
    present) is set, with all its bits; and when no such attribute is present
    the word is 0 and the SAWF matcher accepts every set of parameters and
    leaves them unchanged. *)
Theorem receive_rule_flag_word `{H : sp_header} `{HS : sp_header_sawf}
    (a : genl_attrs) :
  flags (inner (receive_rule a)) = 0
  ∧ (∀ skb smac dmac, sp_mapdb_rule_match skb (receive_rule a) smac dmac = true)
  ∧ (∀ FLAG, (true, FLAG) ∈ receive_flags a →
             Z.land (flags_sawf (inner (receive_rule a))) FLAG = FLAG
             ∧ (FLAG ≠ 0 → flag_set (flags_sawf (inner (receive_rule a))) FLAG = true))
  ∧ ((∀ entry, entry ∈ receive_flags a → fst entry = false) →
     flags_sawf (inner (receive_rule a)) = 0
     ∧ ∀ params, sp_mapdb_rule_match_sawf (receive_rule a) params = (true, params)).
Proof.
  split; [done|]. split; [|split].
  - intros skb smac dmac. by apply rule_match_no_flags.
  - intros FLAG Hin.
    assert (Hl : Z.land (flags_sawf (inner (receive_rule a))) FLAG = FLAG).
    { cbn [receive_rule inner flags_sawf]. unfold receive_mask.
      by apply fold_mask_or_covers. }
    split; [done|]. intros Hne. by apply flag_set_covers.
  - intros Hnone.
    assert (Hz : flags_sawf (inner (receive_rule a)) = 0).
    { cbn [receive_rule inner flags_sawf]. unfold receive_mask.
      by apply fold_mask_or_none. }
    split; [done|]. intros params. by apply rule_match_sawf_no_flags.
Qed.

(** X19.  Subnets.  When a message carries an IPv4 address together with its
    mask, the receiver stores the address already ANDed with the mask, and the
    SAWF matcher then accepts exactly the parameters whose address agrees with
    the address of the message under the mask; this holds for the source and
    for the destination address.  (The flags are taken to be non-zero.) *)
Theorem receive_ipv4_subnet `{H : sp_header} `{HS : sp_header_sawf}
    (a : genl_attrs) (addr mask : Z) (params : sp_rule_input_params) :
  SP_RULE_FLAG_MATCH_SAWF_DST_IPV4 ≠ 0 →
  SP_RULE_FLAG_MATCH_SAWF_DST_IPV4_MASK ≠ 0 →
  SP_RULE_FLAG_MATCH_SAWF_SRC_IPV4 ≠ 0 →
  SP_RULE_FLAG_MATCH_SAWF_SRC_IPV4_MASK ≠ 0 →
  (Attrs.SP_GNL_ATTR_DST_IPV4_ADDR a = Some addr →
   Attrs.SP_GNL_ATTR_DST_IPV4_ADDR_MASK a = Some mask →
   dst_ipv4_addr (inner (receive_rule a)) = Z.land addr mask
   ∧ dst_ipv4_addr_mask (inner (receive_rule a)) = mask
   ∧ fst (sawf_dst_ipv4 (receive_rule a) params)
     = (Z.land (Params.ipv4_addr (Params.ip (Params.dst params))) mask
        =? Z.land addr mask))
  ∧ (Attrs.SP_GNL_ATTR_SRC_IPV4_ADDR a = Some addr →
     Attrs.SP_GNL_ATTR_SRC_IPV4_ADDR_MASK a = Some mask →
     src_ipv4_addr (inner (receive_rule a)) = Z.land addr mask
     ∧ src_ipv4_addr_mask (inner (receive_rule a)) = mask
     ∧ fst (sawf_src_ipv4 (receive_rule a) params)
       = (Z.land (Params.ipv4_addr (Params.ip (Params.src params))) mask
          =? Z.land addr mask)).
Proof.
  intros Hd Hdm Hs Hsm.
  assert (Hflag : ∀ FLAG, FLAG ≠ 0 → (true, FLAG) ∈ receive_flags a →
                          flag_set (flags_sawf (inner (receive_rule a))) FLAG = true).
  { intros FLAG Hne Hin. apply flag_set_covers; [|done].
    cbn [receive_rule inner flags_sawf]. unfold receive_mask.
    by apply fold_mask_or_covers. }
  split.
  - intros Ha Hm.
    assert (Hf1 : flag_set (flags_sawf (inner (receive_rule a)))
                    SP_RULE_FLAG_MATCH_SAWF_DST_IPV4 = true).
    { apply Hflag; [done|]. unfold receive_flags. rewrite Ha.
      rewrite (bool_decide_eq_true_2 (is_Some (Some addr))) by eauto.
      do 7 right. left. }
    assert (Hf2 : flag_set (flags_sawf (inner (receive_rule a)))
                    SP_RULE_FLAG_MATCH_SAWF_DST_IPV4_MASK = true).
    { apply Hflag; [done|]. unfold receive_flags. rewrite Hm.
      rewrite (bool_decide_eq_true_2 (is_Some (Some mask))) by eauto.
      do 8 right. left. }
    unfold sawf_dst_ipv4. rewrite Hf1, Hf2.
    cbn [receive_rule inner dst_ipv4_addr dst_ipv4_addr_mask].
    unfold masked_ipv4. rewrite Ha, Hm. done.
  - intros Ha Hm.
    assert (Hf1 : flag_set (flags_sawf (inner (receive_rule a)))
                    SP_RULE_FLAG_MATCH_SAWF_SRC_IPV4 = true).
    { apply Hflag; [done|]. unfold receive_flags. rewrite Ha.
      rewrite (bool_decide_eq_true_2 (is_Some (Some addr))) by eauto.
      do 5 right. left. }
    assert (Hf2 : flag_set (flags_sawf (inner (receive_rule a)))
                    SP_RULE_FLAG_MATCH_SAWF_SRC_IPV4_MASK = true).
    { apply Hflag; [done|]. unfold receive_flags. rewrite Hm.
      rewrite (bool_decide_eq_true_2 (is_Some (Some mask))) by eauto.
      do 6 right. left. }
    unfold sawf_src_ipv4. rewrite Hf1, Hf2.
    cbn [receive_rule inner src_ipv4_addr src_ipv4_addr_mask].
    unfold masked_ipv4. rewrite Ha, Hm. done.
Qed.

Lemma receive_ipv4_subnet_witness :
  dst_ipv4_addr (inner (receive_rule (H := sp_header_example 3)
                          (HS := sp_header_sawf_example)
                          (attrs_add 9 4 5 (Some 167772421) (Some 4294967040) None None)))
  = 167772416
  ∧ fst (sawf_dst_ipv4 (H := sp_header_example 3)
           (receive_rule (H := sp_header_example 3) (HS := sp_header_sawf_example)
              (attrs_add 9 4 5 (Some 167772421) (Some 4294967040) None None))
           (params_example 167772500))
    = true.
Proof.
  destruct (proj1 (receive_ipv4_subnet (H := sp_header_example 3)
                     (HS := sp_header_sawf_example)
                     (attrs_add 9 4 5 (Some 167772421) (Some 4294967040) None None)
                     167772421 4294967040 (params_example 167772500)
                     ltac:(cbn; lia) ltac:(cbn; lia) ltac:(cbn; lia) ltac:(cbn; lia))
              eq_refl eq_refl) as (Haddr & _ & Hv).
  split; [exact Haddr | exact Hv].
Defined.

(** X20.  From a netlink add to a query.  In any table the updater can
    produce that is not full, a well-formed add message without a classifier
    attribute (so for the default type, SAWF), with an output below
    [SP_MAPDB_NO_MATCH] and a precedence that fits a [uint8_t], is accepted
    when memory can be allocated; a query for its id then returns the rule
    that was built from the message (precedence 255 stored as 0). *)
Theorem receive_add_query `{H : sp_header} `{HS : sp_header_sawf}
    (ops : list sp_mapdb_op) (a : genl_attrs) :
  Forall op_well_typed ops →
  SP_MAPDB_ADD_REMOVE_FILTER_DELETE ≠ SP_MAPDB_ADD_REMOVE_FILTER_ADD →
  Attrs.SP_GNL_ATTR_ADD_DELETE_RULE a = Some SP_MAPDB_ADD_REMOVE_FILTER_ADD →
  Attrs.SP_GNL_ATTR_CLASSIFIER_TYPE a = None →
  0 <= default 0 (Attrs.SP_GNL_ATTR_RULE_PRECEDENCE a) < 256 →
  default 0 (Attrs.SP_GNL_ATTR_RULE_OUTPUT a) < SP_MAPDB_NO_MATCH →
  (is_Some (Attrs.SP_GNL_ATTR_SRC_PORT_RANGE_START a)
   ↔ is_Some (Attrs.SP_GNL_ATTR_SRC_PORT_RANGE_END a)) →
  (is_Some (Attrs.SP_GNL_ATTR_DST_PORT_RANGE_START a)
   ↔ is_Some (Attrs.SP_GNL_ATTR_DST_PORT_RANGE_END a)) →
  rule_count (sp_mapdb_run ops) ≠ SP_MAPDB_RULE_MAX →
  is_success (fst (sp_mapdb_rule_receive (sp_mapdb_run ops) a true true)) = true
  ∧ sp_mapdb_rule_query
      (snd (sp_mapdb_rule_receive (sp_mapdb_run ops) a true true))
      (default 0 (Attrs.SP_GNL_ATTR_ID a))
    = Some (stored_rule (receive_rule a) SP_RULE_TYPE_SAWF).
Proof.
  intros Hops Hne Hcmd Hty Hprec Hout Hsrc Hdst Hfull.
  pose proof (table_inv_run ops Hops) as Hinv.
  assert (Hrej : receive_rejects a = false).
  { unfold receive_rejects. rewrite Hcmd, Z.eqb_refl, orb_true_r. cbn [negb orb].
    apply orb_false_iff. split.
    - destruct (Attrs.SP_GNL_ATTR_SRC_PORT_RANGE_START a) as [x|],
        (Attrs.SP_GNL_ATTR_SRC_PORT_RANGE_END a) as [y|]; try done.
      + destruct Hsrc as [Hs _]. by destruct Hs as [? ?]; [eauto|].
      + destruct Hsrc as [_ Hs]. by destruct Hs as [? ?]; [eauto|].
    - destruct (Attrs.SP_GNL_ATTR_DST_PORT_RANGE_START a) as [x|],
        (Attrs.SP_GNL_ATTR_DST_PORT_RANGE_END a) as [y|]; try done.
      + destruct Hdst as [Hs _]. by destruct Hs as [? ?]; [eauto|].
      + destruct Hdst as [_ Hs]. by destruct Hs as [? ?]; [eauto|]. }
  rewrite receive_update by done.
  assert (Hr : rule_well_typed (receive_rule a)) by done.
  assert (Hc : cmd (receive_rule a) = SP_MAPDB_ADD_REMOVE_FILTER_ADD).
  { cbn [receive_rule cmd]. by rewrite Hcmd. }
  assert (Hct : classifier_type (receive_rule a) = SP_RULE_TYPE_SAWF).
  { cbn [receive_rule classifier_type]. by rewrite Hty. }
  assert (Hok : is_success (fst (sp_mapdb_rule_update (sp_mapdb_run ops)
                                   (Some (receive_rule a)) true true)) = true).
  { destruct Hinv as [_ Hw]. rewrite update_add by done. cbn [fst].
    rewrite add_succeeds by done. by destruct (sp_mapdb_search_hashentry _ _ _). }
  split; [done|].
  by apply (rule_query_after_add (sp_mapdb_run ops) (receive_rule a) true true).
Qed.

Lemma receive_add_query_witness :
  is_success
    (fst (sp_mapdb_rule_receive (H := sp_header_example 3) (HS := sp_header_sawf_example)
            (sp_mapdb_run (H := sp_header_example 3) (take 2 ops_example))
            (attrs_add 9 255 5 (Some 167772421) (Some 4294967040) None None)
            true true)) = true
  ∧ sp_mapdb_rule_query (H := sp_header_example 3)
      (snd (sp_mapdb_rule_receive (H := sp_header_example 3)
              (HS := sp_header_sawf_example)
              (sp_mapdb_run (H := sp_header_example 3) (take 2 ops_example))
              (attrs_add 9 255 5 (Some 167772421) (Some 4294967040) None None)
              true true))
      9
    = Some (stored_rule
              (receive_rule (H := sp_header_example 3) (HS := sp_header_sawf_example)
                 (attrs_add 9 255 5 (Some 167772421) (Some 4294967040) None None))
              1).
Proof.
  refine (receive_add_query (H := sp_header_example 3) (HS := sp_header_sawf_example)
            (take 2 ops_example)
            (attrs_add 9 255 5 (Some 167772421) (Some 4294967040) None None)
            _ _ _ _ _ _ _ _ _).
  - repeat constructor; cbn; lia.
  - cbn. lia.
  - reflexivity.
  - reflexivity.
  - cbn. lia.
  - cbn. lia.
  - split; intros [x Hx]; discriminate.
  - split; intros [x Hx]; discriminate.
  - vm_compute. lia.
Defined.

(** ** Where an added rule is linked *)

Section AddPosition.
Context `{H : sp_header}.

Lemma fmap_replace_split (l before after : list sp_mapdb_rule_node) cur new :
  NoDup (node_addr <$> l) → l = before ++ cur :: after →
  (fun n => if decide (node_addr n = node_addr cur) then new else n) <$> l
  = before ++ new :: after.
Proof.
  intros Hnd ->.
  rewrite (fmap_replace_insert _ (length before) cur new Hnd).
  - rewrite insert_app_r_alt by lia. by rewrite Nat.sub_diag.
  - by apply list_lookup_middle.
Qed.

Lemma filter_addr_split (l before after : list sp_mapdb_rule_node) cur :
  NoDup (node_addr <$> l) → l = before ++ cur :: after →
  filter (fun n => node_addr n ≠ node_addr cur) l = before ++ after.
Proof.
  intros Hnd ->.
  rewrite (filter_addr_delete _ (length before) cur Hnd).
  - apply delete_middle.
  - by apply list_lookup_middle.
Qed.

Lemma bucket_NoDup_addr st i :
  store_inv st → NoDup (node_addr <$> bucket (prec_map st) i).
Proof.
  intros Hinv. pose proof (inv_addr _ Hinv) as Hnd.
  rewrite (inv_index _ Hinv) in Hnd. unfold live_rules in Hnd.
  unfold bucket. destruct (prec_map st !! i) as [b|] eqn:Hb; [|constructor].
  cbn [default]. eapply sublist_NoDup; [exact Hnd|].
  apply fmap_sublist. apply take_drop_middle in Hb. rewrite <-Hb.
  rewrite join_app. csimpl. apply sublist_inserts_l, sublist_inserts_r. done.
Qed.

Lemma other_bucket_addr st i j n m :
  store_inv st → i ≠ j → n ∈ bucket (prec_map st) i → m ∈ bucket (prec_map st) j →
  node_addr n ≠ node_addr m.
Proof.
  intros Hinv Hij Hn Hm Heq.
  assert (n = m) as ->.
  { eapply (NoDup_fmap_eq node_addr (rule_id_hashmap st));
      [apply (inv_addr _ Hinv) | | | done];
      rewrite (inv_index _ Hinv); by eapply elem_of_bucket_join. }
  apply (inv_prec _ Hinv) in Hn, Hm. lia.
Qed.

End AddPosition.

(** X21.  Where an accepted add request links its rule.  In any table the
    updater can produce: a rule with a new key is linked at the head of the
    bucket of its precedence, before the older rules of that precedence; a
    modification that keeps the precedence takes the place of the old node in
    its bucket, so the order of the bucket is kept; a modification that
    changes the precedence unlinks the old node and links the new one at the
    head of the new bucket.  All other buckets are untouched. *)
Theorem add_position `{H : sp_header} (ops : list sp_mapdb_op) (r : sp_rule)
    (alloc_node alloc_hash : bool) :
  Forall op_well_typed ops → rule_well_typed r →
  cmd r = SP_MAPDB_ADD_REMOVE_FILTER_ADD →
  SP_MAPDB_ADD_REMOVE_FILTER_DELETE ≠ SP_MAPDB_ADD_REMOVE_FILTER_ADD →
  is_success (fst (sp_mapdb_rule_update (sp_mapdb_run ops) (Some r)
                     alloc_node alloc_hash)) = true →
  ((id r, classifier_type r) ∉ node_key <$> live_rules (sp_mapdb_run ops) →
   ∀ j, bucket (prec_map (snd (sp_mapdb_rule_update (sp_mapdb_run ops) (Some r)
                                 alloc_node alloc_hash))) j
        = if decide (j = Z.to_nat (rule_precedence (stored_rule r (classifier_type r))))
          then {| node_addr := next_node (sp_mapdb_run ops);
                  rule := stored_rule r (classifier_type r) |}
               :: bucket (prec_map (sp_mapdb_run ops)) j
          else bucket (prec_map (sp_mapdb_run ops)) j)
  ∧ (∀ q cur before after,
       bucket (prec_map (sp_mapdb_run ops)) q = before ++ cur :: after →
       node_key cur = (id r, classifier_type r) →
       ∀ j, bucket (prec_map (snd (sp_mapdb_rule_update (sp_mapdb_run ops) (Some r)
                                     alloc_node alloc_hash))) j
            = if decide (j = Z.to_nat (rule_precedence
                                         (stored_rule r (classifier_type r))))
              then if decide (j = q)
                   then before ++ {| node_addr := next_node (sp_mapdb_run ops);
                                     rule := stored_rule r (classifier_type r) |}
                               :: after
                   else {| node_addr := next_node (sp_mapdb_run ops);
                           rule := stored_rule r (classifier_type r) |}
                        :: bucket (prec_map (sp_mapdb_run ops)) j
              else if decide (j = q) then before ++ after
                   else bucket (prec_map (sp_mapdb_run ops)) j).
Proof.
  intros Hops Hr Hc Hne. set (st := sp_mapdb_run ops).
  pose proof (table_inv_run ops Hops) as [Hinv Hw]. fold st in Hinv, Hw.
  rewrite update_add by done. cbn [fst snd]. intros Hok.
  pose proof (stored_precedence_range r (classifier_type r) Hr) as Hp.
  fold (stored_rule r (classifier_type r)) in Hp.
  set (new := {| node_addr := next_node st;
                 rule := stored_rule r (classifier_type r) |}).
  set (p := Z.to_nat (rule_precedence (stored_rule r (classifier_type r)))).
  assert (Hpl : (p < length (prec_map st))%nat).
  { rewrite (inv_buckets _ Hinv). unfold p, SP_MAPDB_RULE_MAX_PRECEDENCENUM. lia. }
  revert Hok. unfold sp_mapdb_rule_add. fold (stored_rule r (classifier_type r)).
  cbn [set_single_writer rule_count next_node prec_map]. fold new.
  rewrite search_set_single_writer.
  destruct (_ =? _); [done|]. destruct (_ >=? _); [done|].
  destruct alloc_node; [|done]. cbn [negb].
  destruct (sp_mapdb_search_hashentry st (id r) (classifier_type r))
    as [[i cur0]|] eqn:Hs.
  - apply search_hashentry_Some in Hs as [Hi Hk0].
    assert (Hcur0 : cur0 ∈ live_rules st).
    { rewrite <-(inv_index _ Hinv). by eapply list_elem_of_lookup_2. }
    intros _. split.
    { intros Habs. exfalso. apply Habs. rewrite <-Hk0. by apply list_elem_of_fmap_2. }
    intros q cur before after Hq Hk j.
    assert (Hcurq : cur ∈ bucket (prec_map st) q).
    { rewrite Hq. apply elem_of_app. right. left. }
    assert (cur0 = cur) as ->.
    { eapply (NoDup_fmap_eq node_key (rule_id_hashmap st));
        [apply (inv_keys _ Hinv) | by eapply list_elem_of_lookup_2 | | congruence].
      rewrite (inv_index _ Hinv). by eapply elem_of_bucket_join. }
    pose proof (inv_prec _ Hinv _ _ Hcurq) as Hcp.
    destruct (Z.eqb_spec (rule_precedence (rule cur))
                (rule_precedence (stored_rule r (classifier_type r)))) as [Hsame|Hdiff];
      cbn [snd set_single_writer prec_map].
    + assert (q = p) as -> by (unfold p; lia).
      rewrite bucket_list_replace_rcu.
      destruct (decide (j = p)) as [->|Hj].
      * by apply fmap_replace_split; [apply bucket_NoDup_addr|].
      * rewrite <-(list_fmap_id (bucket (prec_map st) j)) at 2.
        apply list_fmap_ext. intros k n Hn. rewrite decide_False; [done|].
        apply (other_bucket_addr st j p); [done..| |done].
        by eapply list_elem_of_lookup_2.
    + assert (q ≠ p) by (unfold p; lia).
      rewrite bucket_list_add_rcu by (unfold list_del_rcu; by rewrite length_fmap).
      rewrite bucket_list_del_rcu. fold p.
      assert (Hkeep : ∀ j, j ≠ q →
                filter (fun n => node_addr n ≠ node_addr cur) (bucket (prec_map st) j)
                = bucket (prec_map st) j).
      { intros j' Hj'. apply filter_all. intros n Hn.
        by apply (other_bucket_addr st j' q). }
      destruct (decide (j = p)) as [->|Hj].
      * rewrite (decide_False (P := p = q)) by done. by rewrite Hkeep.
      * destruct (decide (j = q)) as [->|Hjq]; [|by apply Hkeep].
        by apply filter_addr_split; [apply bucket_NoDup_addr|].
  - destruct alloc_hash; [|done]. intros _. cbn [negb snd set_single_writer prec_map].
    split.
    + intros _ j. rewrite bucket_list_add_rcu by done. fold p. done.
    + intros q cur before after Hq Hk. exfalso.
      apply search_hashentry_None in Hs. apply Hs. rewrite <-Hk.
      apply list_elem_of_fmap_2. rewrite (inv_index _ Hinv).
      apply (elem_of_bucket_join _ q). rewrite Hq. apply elem_of_app. right. left.
Qed.

Lemma add_position_witness :
  bucket (prec_map (snd (sp_mapdb_rule_update (H := sp_header_example 3)
                           (sp_mapdb_run (H := sp_header_example 3)
                              [Op_update (Some (mesh_rule 1 10 1 0 0 5)) true true;
                               Op_update (Some (mesh_rule 2 10 1 0 0 6)) true true])
                           (Some (mesh_rule 1 10 1 0 0 4)) true true))) 10
  = [{| node_addr := 1; rule := mesh_rule 2 10 1 0 0 6 |};
     {| node_addr := 2; rule := mesh_rule 1 10 1 0 0 4 |}].
Proof.
  refine (proj2 (add_position (H := sp_header_example 3)
                   [Op_update (Some (mesh_rule 1 10 1 0 0 5)) true true;
                    Op_update (Some (mesh_rule 2 10 1 0 0 6)) true true]
                   (mesh_rule 1 10 1 0 0 4) true true _ _ _ _ _)
            10%nat {| node_addr := 0; rule := mesh_rule 1 10 1 0 0 5 |}
            [{| node_addr := 1; rule := mesh_rule 2 10 1 0 0 6 |}] [] _ _ 10%nat).
  - repeat constructor; cbn; lia.
  - unfold rule_well_typed. cbn. lia.
  - reflexivity.
  - cbn. lia.
  - reflexivity.
  - reflexivity.
  - reflexivity.
Defined.

(** ** Masks and the values they are compared with *)

Lemma ipv6_memcmp_false a b : ipv6_memcmp a b = false ↔ a = b.
Proof.
  destruct a as [[[a0 a1] a2] a3], b as [[[b0 b1] b2] b3]. cbn.
  rewrite negb_false_iff, !andb_true_iff, !Z.eqb_eq. split.
  - by intros [[[-> ->] ->] ->].
  - by intros [= -> -> -> ->].
Qed.

Section SawfMasks.
Context `{H : sp_header}.
Variable rule : sp_rule.

(** When the matcher accepts, each of the five tests that write has passed
    on the parameters it was handed. *)
Lemma sawf_match_writing_checks p :
  fst (sp_mapdb_rule_match_sawf rule p) = true →
  (∃ q, fst (sawf_dst_ipv4 rule q) = true)
  ∧ (∃ q, fst (sawf_src_ipv6 rule q) = true)
  ∧ (∃ q, fst (sawf_dst_ipv6 rule q) = true)
  ∧ (∃ q, fst (sawf_src_ipv4 rule q) = true)
  ∧ (∃ q, fst (sawf_spi rule q) = true).
Proof.
  unfold sp_mapdb_rule_match_sawf. intros Hv.
  apply sawf_seq_true in Hv as [_ Hv]. apply sawf_seq_true in Hv as [_ Hv].
  apply sawf_seq_true in Hv as [_ Hv]. apply sawf_seq_true in Hv as [_ Hv].
  apply sawf_seq_true in Hv as [Hd4 Hv]. apply sawf_seq_true in Hv as [_ Hv].
  apply sawf_seq_true in Hv as [Hs6 Hv]. apply sawf_seq_true in Hv as [Hd6 Hv].
  apply sawf_seq_true in Hv as [_ Hv]. apply sawf_seq_true in Hv as [_ Hv].
  apply sawf_seq_true in Hv as [Hs4 Hv]. apply sawf_seq_true in Hv as [_ Hv].
  apply sawf_seq_true in Hv as [_ Hv]. apply sawf_seq_true in Hv as [_ Hv].
  apply sawf_seq_true in Hv as [_ Hspi].
  split_and!; eauto.
Qed.

Lemma sawf_spi_test q :
  flag_set (flags_sawf (inner rule)) SP_RULE_FLAG_MATCH_SCS_SPI = true →
  fst (sawf_spi rule q)
  = (Z.land (Params.spi q) (match_pattern_mask (inner rule))
     =? match_pattern_value (inner rule)).
Proof. intros Hf. unfold sawf_spi. by rewrite Hf. Qed.

End SawfMasks.

(** X22.  A masked comparison needs a value under its mask.  The SAWF
    matcher ANDs the caller's value with the mask of the rule and compares
    the result with the value of the rule as it is stored.  So whenever
    sp_mapdb_rule_match_sawf() accepts, the value of every masked comparison
    the rule asks for has no bit outside its mask: the IPv4 and IPv6 source
    and destination addresses (address flag and mask flag set) and the SPI
    pattern (SPI flag set).  A rule whose stored address or pattern has a bit
    outside the mask matches no parameters at all. *)
Theorem sawf_masked_value_under_mask `{H : sp_header} (rule : sp_rule)
    (params : sp_rule_input_params) :
  fst (sp_mapdb_rule_match_sawf rule params) = true →
  (flag_set (flags_sawf (inner rule)) SP_RULE_FLAG_MATCH_SAWF_DST_IPV4 = true →
   flag_set (flags_sawf (inner rule)) SP_RULE_FLAG_MATCH_SAWF_DST_IPV4_MASK = true →
   Z.land (dst_ipv4_addr (inner rule)) (dst_ipv4_addr_mask (inner rule))
   = dst_ipv4_addr (inner rule))
  ∧ (flag_set (flags_sawf (inner rule)) SP_RULE_FLAG_MATCH_SAWF_SRC_IPV4 = true →
     flag_set (flags_sawf (inner rule)) SP_RULE_FLAG_MATCH_SAWF_SRC_IPV4_MASK = true →
     Z.land (src_ipv4_addr (inner rule)) (src_ipv4_addr_mask (inner rule))
     = src_ipv4_addr (inner rule))
  ∧ (flag_set (flags_sawf (inner rule)) SP_RULE_FLAG_MATCH_SAWF_DST_IPV6 = true →
     flag_set (flags_sawf (inner rule)) SP_RULE_FLAG_MATCH_SAWF_DST_IPV6_MASK = true →
     ipv6_and (dst_ipv6_addr (inner rule)) (dst_ipv6_addr_mask (inner rule))
     = dst_ipv6_addr (inner rule))
  ∧ (flag_set (flags_sawf (inner rule)) SP_RULE_FLAG_MATCH_SAWF_SRC_IPV6 = true →
     flag_set (flags_sawf (inner rule)) SP_RULE_FLAG_MATCH_SAWF_SRC_IPV6_MASK = true →
     ipv6_and (src_ipv6_addr (inner rule)) (src_ipv6_addr_mask (inner rule))
     = src_ipv6_addr (inner rule))
  ∧ (flag_set (flags_sawf (inner rule)) SP_RULE_FLAG_MATCH_SCS_SPI = true →
     Z.land (match_pattern_value (inner rule)) (match_pattern_mask (inner rule))
     = match_pattern_value (inner rule)).
Proof.
  intros Hv.
  destruct (sawf_match_writing_checks rule params Hv)
    as ([q1 Hd4] & [q2 Hs6] & [q3 Hd6] & [q4 Hs4] & [q5 Hspi]).
  split_and!.
  - intros Hf Hm. unfold sawf_dst_ipv4 in Hd4. rewrite Hf, Hm in Hd4.
    cbn in Hd4. apply Z.eqb_eq in Hd4. rewrite <-Hd4.
    by rewrite <-Z.land_assoc, Z.land_diag.
  - intros Hf Hm. unfold sawf_src_ipv4 in Hs4. rewrite Hf, Hm in Hs4.
    cbn in Hs4. apply Z.eqb_eq in Hs4. rewrite <-Hs4.
    by rewrite <-Z.land_assoc, Z.land_diag.
  - intros Hf Hm. unfold sawf_dst_ipv6 in Hd6. rewrite Hf, Hm in Hd6.
    cbn [fst Params.set_dst Params.set_ipv6_addr Params.dst Params.ip Params.ipv6_addr]
      in Hd6.
    apply negb_true_iff, ipv6_memcmp_false in Hd6. rewrite <-Hd6.
    apply ipv6_and_idemp.
  - intros Hf Hm. unfold sawf_src_ipv6 in Hs6. rewrite Hf, Hm in Hs6.
    cbn [fst Params.set_src Params.set_ipv6_addr Params.src Params.ip Params.ipv6_addr]
      in Hs6.
    apply negb_true_iff, ipv6_memcmp_false in Hs6. rewrite <-Hs6.
    apply ipv6_and_idemp.
  - intros Hf. rewrite sawf_spi_test in Hspi by done.
    apply Z.eqb_eq in Hspi. rewrite <-Hspi.
    by rewrite <-Z.land_assoc, Z.land_diag.
Qed.

Lemma sawf_masked_value_under_mask_witness :
  Z.land (dst_ipv4_addr (inner (sawf_rule 1 0 1 96 167772160 4294967040 0)))
    (dst_ipv4_addr_mask (inner (sawf_rule 1 0 1 96 167772160 4294967040 0)))
  = 167772160.
Proof.
  refine (proj1 (sawf_masked_value_under_mask (H := sp_header_example 3)
                   (sawf_rule 1 0 1 96 167772160 4294967040 0)
                   (params_example 167772165) _) _ _); reflexivity.
Defined.

(** X23.  The SPI pattern of a received rule.  Unlike an address, the pattern
    value of a message is stored as it comes, not ANDed with the pattern
    mask.  The SPI test of the rule accepts exactly the parameters whose SPI,
    ANDed with the mask of the message, equals the value of the message; and
    if that value has a bit outside the mask, the rule matches no parameters
    at all.  (The SPI flag is taken to be non-zero; a message with only one of
    the two attributes still sets the flag, the other member being 0.) *)
Theorem receive_spi_pattern `{H : sp_header} `{HS : sp_header_sawf}
    (a : genl_attrs) (params : sp_rule_input_params) :
  SP_RULE_FLAG_MATCH_SCS_SPI ≠ 0 →
  is_Some (Attrs.SP_GNL_ATTR_MATCH_PATTERN_VALUE a)
  ∨ is_Some (Attrs.SP_GNL_ATTR_MATCH_PATTERN_MASK a) →
  match_pattern_value (inner (receive_rule a))
  = default 0 (Attrs.SP_GNL_ATTR_MATCH_PATTERN_VALUE a)
  ∧ match_pattern_mask (inner (receive_rule a))
    = default 0 (Attrs.SP_GNL_ATTR_MATCH_PATTERN_MASK a)
  ∧ fst (sawf_spi (receive_rule a) params)
    = (Z.land (Params.spi params) (default 0 (Attrs.SP_GNL_ATTR_MATCH_PATTERN_MASK a))
       =? default 0 (Attrs.SP_GNL_ATTR_MATCH_PATTERN_VALUE a))
  ∧ (Z.land (default 0 (Attrs.SP_GNL_ATTR_MATCH_PATTERN_VALUE a))
       (default 0 (Attrs.SP_GNL_ATTR_MATCH_PATTERN_MASK a))
     ≠ default 0 (Attrs.SP_GNL_ATTR_MATCH_PATTERN_VALUE a) →
     fst (sp_mapdb_rule_match_sawf (receive_rule a) params) = false).
Proof.
  intros Hne Hattr.
  assert (Hf : flag_set (flags_sawf (inner (receive_rule a))) SP_RULE_FLAG_MATCH_SCS_SPI
               = true).
  { apply flag_set_covers; [|done].
    cbn [receive_rule inner flags_sawf]. unfold receive_mask.
    apply fold_mask_or_covers. unfold receive_flags.
    destruct Hattr as [Hs|Hs]; rewrite (bool_decide_eq_true_2 _ Hs).
    - do 19 right. left.
    - do 20 right. left. }
  split; [done|]. split; [done|]. split.
  - by rewrite sawf_spi_test.
  - intros Hbad.
    destruct (fst (sp_mapdb_rule_match_sawf (receive_rule a) params)) eqn:Hv; [|done].
    destruct (sawf_match_writing_checks _ _ Hv) as (_ & _ & _ & _ & [q Hspi]).
    rewrite sawf_spi_test in Hspi by done. apply Z.eqb_eq in Hspi.
    exfalso. apply Hbad.
    cbn [receive_rule inner match_pattern_value match_pattern_mask] in Hspi.
    rewrite <-Hspi. by rewrite <-Z.land_assoc, Z.land_diag.
Qed.

Lemma receive_spi_pattern_witness :
  fst (sp_mapdb_rule_match_sawf (H := sp_header_example 3)
         (receive_rule (H := sp_header_example 3) (HS := sp_header_sawf_example)
            (attrs_sawf 9 None None None None (Some 4660) (Some 65280)))
         (params_example 0)) = false.
Proof.
  refine (proj2 (proj2 (proj2 (receive_spi_pattern (H := sp_header_example 3)
                                 (HS := sp_header_sawf_example)
                                 (attrs_sawf 9 None None None None (Some 4660) (Some 65280))
                                 (params_example 0) _ _))) _).
  - cbn. lia.
  - left. by eexists.
  - intros Heq. vm_compute in Heq. discriminate.
Defined.

(** X24.  IPv6 subnets and port ranges of a received rule.  When a message
    carries an IPv6 address together with its mask, the receiver stores the
    address ANDed word by word with the mask ([IPV6_ADDR_LEN] is taken to be
    4, the number of words of an address), and the IPv6 test of the rule accepts exactly the
    parameters whose address agrees with that of the message under the mask.
    When a message carries both bounds of a port range, the range test of the
    rule accepts exactly the ports from the start to the end bound, both
    included.  (The flags are taken to be non-zero.) *)
Theorem receive_ipv6_subnet_and_ranges `{H : sp_header} `{HS : sp_header_sawf}
    (a : genl_attrs) (params : sp_rule_input_params) :
  SP_RULE_FLAG_MATCH_SAWF_DST_IPV6 ≠ 0 → SP_RULE_FLAG_MATCH_SAWF_DST_IPV6_MASK ≠ 0 →
  SP_RULE_FLAG_MATCH_SAWF_SRC_IPV6 ≠ 0 → SP_RULE_FLAG_MATCH_SAWF_SRC_IPV6_MASK ≠ 0 →
  SP_RULE_FLAG_MATCH_SAWF_SRC_PORT_RANGE_START ≠ 0 →
  SP_RULE_FLAG_MATCH_SAWF_SRC_PORT_RANGE_END ≠ 0 →
  SP_RULE_FLAG_MATCH_SAWF_DST_PORT_RANGE_START ≠ 0 →
  SP_RULE_FLAG_MATCH_SAWF_DST_PORT_RANGE_END ≠ 0 →
  IPV6_ADDR_LEN = 4 →
  (∀ addr mask,
     Attrs.SP_GNL_ATTR_DST_IPV6_ADDR a = Some addr →
     Attrs.SP_GNL_ATTR_DST_IPV6_ADDR_MASK a = Some mask →
     dst_ipv6_addr (inner (receive_rule a)) = ipv6_and addr mask
     ∧ fst (sawf_dst_ipv6 (receive_rule a) params)
       = negb (ipv6_memcmp
                 (ipv6_and (Params.ipv6_addr (Params.ip (Params.dst params))) mask)
                 (ipv6_and addr mask)))
  ∧ (∀ addr mask,
       Attrs.SP_GNL_ATTR_SRC_IPV6_ADDR a = Some addr →
       Attrs.SP_GNL_ATTR_SRC_IPV6_ADDR_MASK a = Some mask →
       src_ipv6_addr (inner (receive_rule a)) = ipv6_and addr mask
       ∧ fst (sawf_src_ipv6 (receive_rule a) params)
         = negb (ipv6_memcmp
                   (ipv6_and (Params.ipv6_addr (Params.ip (Params.src params))) mask)
                   (ipv6_and addr mask)))
  ∧ (∀ first last,
       Attrs.SP_GNL_ATTR_SRC_PORT_RANGE_START a = Some first →
       Attrs.SP_GNL_ATTR_SRC_PORT_RANGE_END a = Some last →
       fst (sawf_src_port_range (receive_rule a) params)
       = (Params.port (Params.src params) >=? first)
         && (Params.port (Params.src params) <=? last))
  ∧ (∀ first last,
       Attrs.SP_GNL_ATTR_DST_PORT_RANGE_START a = Some first →
       Attrs.SP_GNL_ATTR_DST_PORT_RANGE_END a = Some last →
       fst (sawf_dst_port_range (receive_rule a) params)
       = (Params.port (Params.dst params) >=? first)
         && (Params.port (Params.dst params) <=? last)).
Proof.
  intros Hd Hdm Hs Hsm Hss Hse Hds Hde Hlen.
  assert (Hflag : ∀ FLAG, FLAG ≠ 0 → (true, FLAG) ∈ receive_flags a →
                          flag_set (flags_sawf (inner (receive_rule a))) FLAG = true).
  { intros FLAG Hne Hin. apply flag_set_covers; [|done].
    cbn [receive_rule inner flags_sawf]. unfold receive_mask.
    by apply fold_mask_or_covers. }
  assert (Hand : ∀ x m, ipv6_and_first IPV6_ADDR_LEN x m = ipv6_and x m).
  { intros [[[x0 x1] x2] x3] [[[m0 m1] m2] m3]. unfold ipv6_and_first, ipv6_and.
    destruct (Z.ltb_spec 0 IPV6_ADDR_LEN); [|lia].
    destruct (Z.ltb_spec 1 IPV6_ADDR_LEN); [|lia].
    destruct (Z.ltb_spec 2 IPV6_ADDR_LEN); [|lia].
    destruct (Z.ltb_spec 3 IPV6_ADDR_LEN); [|lia]. done. }
  split_and!.
  - intros addr mask Ha Hm.
    assert (Hf1 : flag_set (flags_sawf (inner (receive_rule a)))
                    SP_RULE_FLAG_MATCH_SAWF_DST_IPV6 = true).
    { apply Hflag; [done|]. unfold receive_flags. rewrite Ha.
      rewrite (bool_decide_eq_true_2 (is_Some (Some addr))) by eauto.
      do 11 right. left. }
    assert (Hf2 : flag_set (flags_sawf (inner (receive_rule a)))
                    SP_RULE_FLAG_MATCH_SAWF_DST_IPV6_MASK = true).
    { apply Hflag; [done|]. unfold receive_flags. rewrite Hm.
      rewrite (bool_decide_eq_true_2 (is_Some (Some mask))) by eauto.
      do 12 right. left. }
    unfold sawf_dst_ipv6. rewrite Hf1, Hf2.
    cbn [receive_rule inner dst_ipv6_addr dst_ipv6_addr_mask fst Params.set_dst
         Params.set_ipv6_addr Params.dst Params.ip Params.ipv6_addr].
    unfold masked_ipv6. rewrite Ha, Hm. cbn [default]. by rewrite Hand.
  - intros addr mask Ha Hm.
    assert (Hf1 : flag_set (flags_sawf (inner (receive_rule a)))
                    SP_RULE_FLAG_MATCH_SAWF_SRC_IPV6 = true).
    { apply Hflag; [done|]. unfold receive_flags. rewrite Ha.
      rewrite (bool_decide_eq_true_2 (is_Some (Some addr))) by eauto.
      do 9 right. left. }
    assert (Hf2 : flag_set (flags_sawf (inner (receive_rule a)))
                    SP_RULE_FLAG_MATCH_SAWF_SRC_IPV6_MASK = true).
    { apply Hflag; [done|]. unfold receive_flags. rewrite Hm.
      rewrite (bool_decide_eq_true_2 (is_Some (Some mask))) by eauto.
      do 10 right. left. }
    unfold sawf_src_ipv6. rewrite Hf1, Hf2.
    cbn [receive_rule inner src_ipv6_addr src_ipv6_addr_mask fst Params.set_src
         Params.set_ipv6_addr Params.src Params.ip Params.ipv6_addr].
    unfold masked_ipv6. rewrite Ha, Hm. cbn [default]. by rewrite Hand.
  - intros first last Ha Hb.
    assert (Hf1 : flag_set (flags_sawf (inner (receive_rule a)))
                    SP_RULE_FLAG_MATCH_SAWF_SRC_PORT_RANGE_START = true).
    { apply Hflag; [done|]. unfold receive_flags. rewrite Ha, Hb.
      rewrite !(bool_decide_eq_true_2 (is_Some (Some _))) by eauto.
      do 21 right. left. }
    assert (Hf2 : flag_set (flags_sawf (inner (receive_rule a)))
                    SP_RULE_FLAG_MATCH_SAWF_SRC_PORT_RANGE_END = true).
    { apply Hflag; [done|]. unfold receive_flags. rewrite Ha, Hb.
      rewrite !(bool_decide_eq_true_2 (is_Some (Some _))) by eauto.
      do 22 right. left. }
    unfold sawf_src_port_range, sawf_guard. rewrite Hf1, Hf2.
    cbn [receive_rule inner src_port_range_start src_port_range_end fst andb].
    rewrite Ha, Hb. rewrite !(bool_decide_eq_true_2 (is_Some (Some _))) by eauto. done.
  - intros first last Ha Hb.
    assert (Hf1 : flag_set (flags_sawf (inner (receive_rule a)))
                    SP_RULE_FLAG_MATCH_SAWF_DST_PORT_RANGE_START = true).
    { apply Hflag; [done|]. unfold receive_flags. rewrite Ha, Hb.
      rewrite !(bool_decide_eq_true_2 (is_Some (Some _))) by eauto.
      do 23 right. left. }
    assert (Hf2 : flag_set (flags_sawf (inner (receive_rule a)))
                    SP_RULE_FLAG_MATCH_SAWF_DST_PORT_RANGE_END = true).
    { apply Hflag; [done|]. unfold receive_flags. rewrite Ha, Hb.
      rewrite !(bool_decide_eq_true_2 (is_Some (Some _))) by eauto.
      do 24 right. left. }
    unfold sawf_dst_port_range, sawf_guard. rewrite Hf1, Hf2.
    cbn [receive_rule inner dst_port_range_start dst_port_range_end fst andb].
    rewrite Ha, Hb. rewrite !(bool_decide_eq_true_2 (is_Some (Some _))) by eauto. done.
Qed.

Lemma receive_ipv6_subnet_and_ranges_witness :
  dst_ipv6_addr
    (inner (receive_rule (H := sp_header_example 3) (HS := sp_header_sawf_example)
              (attrs_sawf 9 (Some (1, 2, 3, 4)) (Some (4294967295, 4294967295, 0, 0))
                 (Some 1000) (Some 2000) None None)))
  = (1, 2, 0, 0)
  ∧ fst (sawf_src_port_range (H := sp_header_example 3)
           (receive_rule (H := sp_header_example 3) (HS := sp_header_sawf_example)
              (attrs_sawf 9 (Some (1, 2, 3, 4)) (Some (4294967295, 4294967295, 0, 0))
                 (Some 1000) (Some 2000) None None))
           (params_example 0))
    = false.
Proof.
  destruct (receive_ipv6_subnet_and_ranges (H := sp_header_example 3)
              (HS := sp_header_sawf_example)
              (attrs_sawf 9 (Some (1, 2, 3, 4)) (Some (4294967295, 4294967295, 0, 0))
                 (Some 1000) (Some 2000) None None)
              (params_example 0))
    as (Hd6 & _ & Hsrc & _).
  - cbn. lia.
  - cbn. lia.
  - cbn. lia.
  - cbn. lia.
  - cbn. lia.
  - cbn. lia.
  - cbn. lia.
  - cbn. lia.
  - cbn. lia.
  - split.
    + exact (proj1 (Hd6 _ _ eq_refl eq_refl)).
    + exact (Hsrc _ _ eq_refl eq_refl).
Defined.
